(** * pyannote.audio segmentation task mixin: corpus index, chunk sampler,
      chunk materializer and batch collator

    Shallow embedding of [pyannote/audio/tasks/segmentation/mixins.py]
    ([SegmentationTaskMixin]).

    Conventions of the embedding:
    - times and durations are exact rationals ([Q]); the rounding of the
      [float32] columns of the numpy arrays is not modelled, and a division
      by zero gives the non-finite values numpy gives ([npfloat]);
    - Python exceptions are values of [exn], carried by the [result] monad;
    - label and file indices are integers as in the arrays ([-1] is the
      out-of-scope sentinel), positions in Python lists are [nat];
    - the audio path and [torchaudio.info] columns play no part in the
      properties below and are left out of the index. *)

From Stdlib Require Import String List ZArith QArith Qround Qabs Bool Lia Arith Sorted.
Import ListNotations.

Local Open Scope Z_scope.

(** ** Python exceptions and the error monad *)

Inductive exn : Type :=
| ValueError
| TypeError
| KeyError
| IndexError
| ZeroDivisionError
| OverflowError
| NotImplementedError.

Inductive result (A : Type) : Type :=
| Ok (a : A)
| Raise (e : exn).

Arguments Ok {A} a.
Arguments Raise {A} e.

Definition bind {A B : Type} (r : result A) (k : A -> result B) : result B :=
  match r with
  | Ok a => k a
  | Raise e => Raise e
  end.

Notation "x <- r ;; k" := (bind r (fun x => k))
  (at level 61, r at next level, right associativity).
Notation "' p <- r ;; k" := (bind r (fun x => let p := x in k))
  (at level 61, p pattern, r at next level, right associativity).

(** ** Rationals as the code compares them *)

Definition Qlt_bool (x y : Q) : bool := negb (Qle_bool y x).

(** numpy floats: a finite value, or what a division by zero leaves. *)
Inductive npfloat : Type :=
| Finite (q : Q)
| PosInf
| NegInf
| NaN.

(** [a / b] on numpy floats (a [RuntimeWarning], never an exception). *)
Definition np_div (a b : Q) : npfloat :=
  if Qeq_bool b 0 then
    if Qeq_bool a 0 then NaN
    else if Qlt_bool 0 a then PosInf else NegInf
  else Finite (a / b).

(** ** Python lists *)

Section PyList.
Context {A : Type} (eqb : A -> A -> bool).

(** [x in l] *)
Definition py_in (x : A) (l : list A) : bool := existsb (eqb x) l.

(** [l.index(x)]: the first position of [x].  Python raises [ValueError]
    when [x] is absent; every call below follows an append of [x] or is
    made on a list built to contain it, and the position past the end
    stands for the absent case. *)
Fixpoint py_index (x : A) (l : list A) : nat :=
  match l with
  | [] => O
  | y :: l' => if eqb x y then O else S (py_index x l')
  end.

(** [if x not in l: l.append(x)] *)
Definition append_if_new (x : A) (l : list A) : list A :=
  if py_in x l then l else l ++ [x].

End PyList.

(** ** The corpus as the protocol yields it *)

(** [Subset] and [Scope] of [pyannote.database.protocol.protocol]; the
    lists give the integer codes. *)
Inductive Subset : Type := train | development | test.
Inductive Scope : Type := file | database | global.

Definition Subsets : list Subset := [train; development; test].
Definition Scopes : list Scope := [file; database; global].

Definition Subset_eqb (a b : Subset) : bool :=
  match a, b with
  | train, train | development, development | test, test => true
  | _, _ => false
  end.

Definition Scope_eqb (a b : Scope) : bool :=
  match a, b with
  | file, file | database, database | global, global => true
  | _, _ => false
  end.

(** The attributes the code reads from a [pyannote.core.Segment]. *)
Record Segment : Type := mkSegment {
  seg_start : Q;
  seg_end : Q;
  seg_duration : Q
}.

(** Values a metadata key of a protocol file may hold. *)
Inductive metaval : Type :=
| MStr (s : string)
| MInt (z : Z)
| MFloat (q : Q)
| MOther.

(** A protocol file: its subset and scope, the items of [file.items()]
    under the other keys, its annotated regions and the tracks of its
    annotation with their labels. *)
Record ProtocolFile : Type := mkFile {
  f_subset : Subset;
  f_scope : Scope;
  f_items : list (string * metaval);
  f_annotated : list Segment;
  f_annotation : list (Segment * string)
}.

(** ** The columnar index built by [setup] *)

Record AnnotatedRegion : Type := mkRegion {
  r_file_id : nat;
  r_duration : Q;
  r_start : Q;
  r_end : Q
}.

Record Annotation : Type := mkAnnotation {
  a_file_id : nat;
  a_start : Q;
  a_end : Q;
  file_label_idx : Z;
  database_label_idx : Z;
  global_label_idx : Z
}.

Record Chunk : Type := mkChunk {
  c_file_id : nat;
  c_start : Q;
  c_duration : Q
}.

(** [metadata_unique_values]: an insertion-ordered [defaultdict(list)]. *)
Definition unique_values : Type := list (string * list string).

Fixpoint muv_get (key : string) (muv : unique_values) : list string :=
  match muv with
  | [] => []
  | (k, vs) :: muv' => if String.eqb key k then vs else muv_get key muv'
  end.

Fixpoint muv_has (key : string) (muv : unique_values) : bool :=
  match muv with
  | [] => false
  | (k, _) :: muv' => String.eqb key k || muv_has key muv'
  end.

(** [metadata_unique_values[key]] as an expression: a missing key is
    created with the empty list. *)
Definition muv_touch (key : string) (muv : unique_values) : unique_values :=
  if muv_has key muv then muv else muv ++ [(key, [])].

Fixpoint muv_set (key : string) (vs : list string) (muv : unique_values)
  : unique_values :=
  match muv with
  | [] => [(key, vs)]
  | (k, old) :: muv' =>
      if String.eqb key k then (k, vs) :: muv'
      else (k, old) :: muv_set key vs muv'
  end.

Fixpoint dict_get (key : string) (d : list (string * Z)) : result Z :=
  match d with
  | [] => Raise KeyError
  | (k, v) :: d' => if String.eqb key k then Ok v else dict_get key d'
  end.

Fixpoint dict_set (key : string) (v : Z) (d : list (string * Z))
  : list (string * Z) :=
  match d with
  | [] => [(key, v)]
  | (k, old) :: d' =>
      if String.eqb key k then (k, v) :: d'
      else (k, old) :: dict_set key v d'
  end.

Definition skipped_keys : list string :=
  ["audio"; "torchaudio.info"; "annotation"; "annotated"; "uri"; "classes"]%string.

Definition reserved_keys : list string := ["subset"; "scope"]%string.

Definition Subsets_index (s : Subset) : Z := Z.of_nat (py_index Subset_eqb s Subsets).
Definition Scopes_index (s : Scope) : Z := Z.of_nat (py_index Scope_eqb s Scopes).

(** The loop over [file.items()].  The items under [subset] and [scope]
    are [f_subset] and [f_scope], which [encode_metadata] encodes; an item
    of [f_items] under one of these two names is passed over. *)
Fixpoint encode_items (items : list (string * metaval)) (muv : unique_values)
  (metadatum : list (string * Z)) : result (unique_values * list (string * Z)) :=
  match items with
  | [] => Ok (muv, metadatum)
  | (key, value) :: items' =>
      if py_in String.eqb key skipped_keys then encode_items items' muv metadatum
      else if py_in String.eqb key reserved_keys then encode_items items' muv metadatum
      else
        match value with
        | MStr s =>
            let muv1 := muv_touch key muv in
            let muv2 := muv_set key (append_if_new String.eqb s (muv_get key muv1)) muv1 in
            encode_items items' muv2
              (dict_set key (Z.of_nat (py_index String.eqb s (muv_get key muv2))) metadatum)
        | MInt z => encode_items items' muv (dict_set key z metadatum)
        | MFloat _ => encode_items items' muv metadatum
        | MOther => Raise NotImplementedError
        end
  end.

(** [tuple(metadatum[key] for key in metadata_unique_values)] *)
Fixpoint metadatum_tuple (keys : list string) (metadatum : list (string * Z))
  : result (list Z) :=
  match keys with
  | [] => Ok []
  | k :: keys' =>
      v <- dict_get k metadatum ;;
      vs <- metadatum_tuple keys' metadatum ;;
      Ok (v :: vs)
  end.

Definition encode_metadata (f : ProtocolFile) (muv : unique_values)
  : result (unique_values * list Z) :=
  ' (muv', metadatum) <-
      encode_items (f_items f) muv
        [("subset"%string, Subsets_index (f_subset f));
         ("scope"%string, Scopes_index (f_scope f))] ;;
  row <- metadatum_tuple (map fst muv') metadatum ;;
  Ok (muv', row).

(** ** [setup]: the pass over the corpus *)

(** The loop over [file["annotated"]]: a region shorter than the chunk
    duration is skipped, any other is appended and adds to the file's
    annotated duration. *)
Fixpoint annotated_loop (duration : Q) (file_id : nat) (segments : list Segment)
  (regions : list AnnotatedRegion) (total : Q) : list AnnotatedRegion * Q :=
  match segments with
  | [] => (regions, total)
  | segment :: segments' =>
      if Qlt_bool (seg_duration segment) duration
      then annotated_loop duration file_id segments' regions total
      else
        annotated_loop duration file_id segments'
          (regions ++ [mkRegion file_id (seg_duration segment)
                                (seg_start segment) (seg_end segment)])
          (total + seg_duration segment)%Q
  end.

(** The three label lists the annotation loop updates. *)
Record LabelLists : Type := mkLabelLists {
  file_unique_labels : list string;
  database_unique_labels : list string;
  unique_labels : list string
}.

(** One iteration of the loop over [itertracks(yield_label=True)]. *)
Definition annotation_step (file_id : nat) (scope : Scope)
  (st : LabelLists * list Annotation) (track : Segment * string)
  : LabelLists * list Annotation :=
  let (lists, rows) := st in
  let (segment, label) := track in
  let file_labels := append_if_new String.eqb label (file_unique_labels lists) in
  let file_idx := Z.of_nat (py_index String.eqb label file_labels) in
  let database_labels :=
    if Scope_eqb scope database
    then append_if_new String.eqb label (database_unique_labels lists)
    else database_unique_labels lists in
  let database_idx :=
    if Scope_eqb scope database
    then Z.of_nat (py_index String.eqb label database_labels)
    else -1 in
  let global_labels :=
    if Scope_eqb scope global
    then append_if_new String.eqb label (unique_labels lists)
    else unique_labels lists in
  let global_idx :=
    if Scope_eqb scope global
    then Z.of_nat (py_index String.eqb label global_labels)
    else -1 in
  (mkLabelLists file_labels database_labels global_labels,
   rows ++ [mkAnnotation file_id (seg_start segment) (seg_end segment)
                         file_idx database_idx global_idx]).

(** What the loop over the files carries from one file to the next. *)
Record LoopState : Type := mkLoopState {
  ls_unique_values : unique_values;
  ls_metadata : list (list Z);
  ls_annotated_duration : list Q;
  ls_annotated_regions : list AnnotatedRegion;
  ls_annotations : list Annotation;
  ls_unique_labels : list string
}.

Definition initial_state : LoopState :=
  mkLoopState
    [("scope"%string, ["file"; "database"; "global"]%string);
     ("subset"%string, ["train"; "development"; "test"]%string)]
    [] [] [] [] [].

(** The body of [for file_id, file in enumerate(files_iter)].  Both
    [database_unique_labels] and [file_unique_labels] start empty at every
    file; [unique_labels] is carried over. *)
Definition setup_file (duration : Q) (file_id : nat) (f : ProtocolFile)
  (s : LoopState) : result LoopState :=
  ' (muv, row) <- encode_metadata f (ls_unique_values s) ;;
  let (regions, total) :=
    annotated_loop duration file_id (f_annotated f) (ls_annotated_regions s) 0%Q in
  let (lists, rows) :=
    fold_left (annotation_step file_id (f_scope f)) (f_annotation f)
      (mkLabelLists [] [] (ls_unique_labels s), ls_annotations s) in
  Ok (mkLoopState muv (ls_metadata s ++ [row])
        (ls_annotated_duration s ++ [total]) regions rows (unique_labels lists)).

Fixpoint setup_loop (duration : Q) (file_id : nat) (files : list ProtocolFile)
  (s : LoopState) : result LoopState :=
  match files with
  | [] => Ok s
  | f :: files' =>
      s' <- setup_file duration file_id f s ;;
      setup_loop duration (S file_id) files' s'
  end.

(** The arrays [setup] leaves on the task. *)
Record Index : Type := mkIndex {
  metadata_unique_values : unique_values;
  metadata : list (list Z);
  annotated_duration : list Q;
  annotated_regions : list AnnotatedRegion;
  annotations : list Annotation;
  validation_chunks : list Chunk
}.

(** [np.array(metadata, dtype=[(key, "i") for key in metadata_unique_values])]:
    a tuple with fewer entries than fields cannot be assigned (the range of
    the integer fields is not modelled). *)
Definition np_array_metadata (muv : unique_values) (rows : list (list Z))
  : result (list (list Z)) :=
  if forallb (fun row => Nat.eqb (List.length row) (List.length muv)) rows
  then Ok rows else Raise ValueError.

(** [array[key]] on a structured array: the column of a field, [ValueError]
    when there is no field of that name. *)
Definition field_position (key : string) (muv : unique_values) : result nat :=
  if muv_has key muv then Ok (py_index String.eqb key (map fst muv))
  else Raise ValueError.

Definition metadata_column (key : string) (muv : unique_values)
  (rows : list (list Z)) : result (list Z) :=
  p <- field_position key muv ;;
  Ok (map (fun row => nth p row 0) rows).

(** [np.where(mask)[0]] *)
Fixpoint np_where_from (i : nat) (mask : list bool) : list nat :=
  match mask with
  | [] => []
  | b :: mask' =>
      if b then i :: np_where_from (S i) mask' else np_where_from (S i) mask'
  end.

Definition np_where (mask : list bool) : list nat := np_where_from O mask.

(** [a // b] on numpy floats *)
Definition np_floor_divide (a b : Q) : npfloat :=
  if Qeq_bool b 0 then
    if Qeq_bool a 0 then NaN
    else if Qlt_bool 0 a then PosInf else NegInf
  else Finite (inject_Z (Qfloor (a / b))).

(** Python's [round] to an integer: half to even. *)
Definition round_half_even (q : Q) : Z :=
  let f := Qfloor q in
  let r := (q - inject_Z f)%Q in
  if Qlt_bool r (1 # 2) then f
  else if Qlt_bool (1 # 2) r then f + 1
  else if Z.even f then f else f + 1.

Definition py_round (x : npfloat) : result Z :=
  match x with
  | Finite q => Ok (round_half_even q)
  | NaN => Raise ValueError
  | PosInf | NegInf => Raise OverflowError
  end.

(** [range(n)] *)
Definition py_range (n : Z) : list nat := seq O (Z.to_nat n).

(** The chunks of one annotated region of a validation file. *)
Definition region_chunks (duration : Q) (file_id : nat)
  (annotated_region : AnnotatedRegion) : result (list Chunk) :=
  num_chunks <- py_round (np_floor_divide (r_duration annotated_region) duration) ;;
  Ok (map (fun c =>
             mkChunk file_id
               (r_start annotated_region + inject_Z (Z.of_nat c) * duration)%Q
               duration)
          (py_range num_chunks)).

(** A [for] loop that extends a list, in the error monad. *)
Fixpoint extend_each {A B : Type} (body : A -> result (list B)) (l : list A)
  : result (list B) :=
  match l with
  | [] => Ok []
  | x :: l' =>
      ys <- body x ;;
      zs <- extend_each body l' ;;
      Ok (ys ++ zs)
  end.

Definition regions_of_file (regions : list AnnotatedRegion) (file_id : nat)
  : list AnnotatedRegion :=
  filter (fun r => Nat.eqb (r_file_id r) file_id) regions.

Definition tile_validation (duration : Q) (muv : unique_values)
  (rows : list (list Z)) (regions : list AnnotatedRegion) : result (list Chunk) :=
  subset <- metadata_column "subset" muv rows ;;
  let validation_file_ids :=
    np_where (map (fun v => Z.eqb v (Subsets_index development)) subset) in
  extend_each
    (fun file_id =>
       extend_each (region_chunks duration file_id)
                   (regions_of_file regions file_id))
    validation_file_ids.

(** The files [setup] iterates over: those of [protocol.train()], chained
    with those of [protocol.development()] when the task has a validation
    set. *)
Definition files_iter (has_validation : bool)
  (protocol_train protocol_development : list ProtocolFile) : list ProtocolFile :=
  if has_validation then protocol_train ++ protocol_development
  else protocol_train.

(** [setup]: [duration] is [getattr(self, "duration", 0.0)].  Without a
    validation set the method returns before it sets [validation_chunks],
    which is empty here. *)
Definition setup (duration : Q) (has_validation : bool)
  (protocol_train protocol_development : list ProtocolFile) : result Index :=
  s <- setup_loop duration O
         (files_iter has_validation protocol_train protocol_development)
         initial_state ;;
  rows <- np_array_metadata (ls_unique_values s) (ls_metadata s) ;;
  if has_validation then
    chunks <- tile_validation duration (ls_unique_values s) rows
                (ls_annotated_regions s) ;;
    Ok (mkIndex (ls_unique_values s) rows (ls_annotated_duration s)
          (ls_annotated_regions s) (ls_annotations s) chunks)
  else
    Ok (mkIndex (ls_unique_values s) rows (ls_annotated_duration s)
          (ls_annotated_regions s) (ls_annotations s) []).

(** ** [prepare_chunk]: the frame-level target of a chunk *)

(** [l[i]] on a Python list: a negative index counts from the end. *)
Definition py_getitem {A : Type} (l : list A) (i : Z) : result A :=
  let n := Z.of_nat (List.length l) in
  let j := if i <? 0 then i + n else i in
  if (j <? 0) || (n <=? j) then Raise IndexError
  else match nth_error l (Z.to_nat j) with
       | Some x => Ok x
       | None => Raise IndexError
       end.

(** [array[i]] for a file index. *)
Definition np_row {A : Type} (rows : list A) (i : nat) : result A :=
  match nth_error rows i with
  | Some x => Ok x
  | None => Raise IndexError
  end.

Definition np_maximum (a b : Q) : Q := if Qlt_bool a b then b else a.
Definition np_minimum (a b : Q) : Q := if Qlt_bool b a then b else a.

(** [np.unique] of an integer column: its distinct values in increasing
    order; [sorted(set(...))] gives the same list. *)
Fixpoint insert_unique (x : Z) (l : list Z) : list Z :=
  match l with
  | [] => [x]
  | y :: l' =>
      if x <? y then x :: l
      else if x =? y then l
      else y :: insert_unique x l'
  end.

Definition np_unique (l : list Z) : list Z := fold_right insert_unique [] l.

(** The bound of a slice [y[start:stop]] over [n] rows: a negative bound
    counts from the end and every bound is clipped to [0..n]. *)
Definition slice_bound (n : nat) (i : Z) : nat :=
  if i <? 0 then Z.to_nat (Z.max 0 (i + Z.of_nat n))
  else Nat.min n (Z.to_nat i).

Fixpoint list_set {A : Type} (i : nat) (v : A) (l : list A) : list A :=
  match l, i with
  | [], _ => []
  | _ :: l', O => v :: l'
  | x :: l', S i' => x :: list_set i' v l'
  end.

(** Rows [lo <= f < hi] of [y], numbered from [f], get [v] in column [col]. *)
Fixpoint assign_rows (f lo hi col : nat) (v : Z) (y : list (list Z))
  : list (list Z) :=
  match y with
  | [] => []
  | row :: y' =>
      (if Nat.leb lo f && Nat.ltb f hi then list_set col v row else row)
        :: assign_rows (S f) lo hi col v y'
  end.

(** [y[start:stop, col] = 1] *)
Definition assign_slice (start stop : Z) (col : nat) (y : list (list Z))
  : list (list Z) :=
  let n := List.length y in
  assign_rows O (slice_bound n start) (slice_bound n stop) col 1 y.

(** [np.zeros((rows, cols))] *)
Definition np_zeros (rows cols : nat) : list (list Z) :=
  repeat (repeat 0 cols) rows.

(** The label column [f"{scope}_label_idx"] of an annotation. *)
Definition label_idx (scope : Scope) (a : Annotation) : Z :=
  match scope with
  | file => file_label_idx a
  | database => database_label_idx a
  | global => global_label_idx a
  end.

(** A [SlidingWindowFeature]: the frame-by-label matrix and its labels. *)
Record SlidingWindowFeature : Type := mkFeature {
  data : list (list Z);
  labels : list Z
}.

(** A sample: the target [y] and the metadata [meta]. *)
Record Sample : Type := mkSample {
  y : SlidingWindowFeature;
  meta : list (string * Z)
}.

(** [Scopes[self.metadata[file_id]["scope"]]] *)
Definition file_scope (index : Index) (file_id : nat) : result Scope :=
  row <- np_row (metadata index) file_id ;;
  p <- field_position "scope" (metadata_unique_values index) ;;
  py_getitem Scopes (nth p row 0).

Section Materializer.

(** What [astype(np.int)] makes of a non-finite float is left to the
    platform. *)
Variable nonfinite_int : Z.

Definition floor_int (x : npfloat) : Z :=
  match x with Finite q => Qfloor q | _ => nonfinite_int end.

Definition ceil_int (x : npfloat) : Z :=
  match x with Finite q => Qceiling q | _ => nonfinite_int end.

(** Annotations of the file with a non-empty intersection with the chunk. *)
Definition chunk_annotations (rows : list Annotation) (file_id : nat)
  (chunk_start chunk_end : Q) : list Annotation :=
  filter (fun a => Qlt_bool (a_start a) chunk_end && Qlt_bool chunk_start (a_end a))
    (filter (fun a => Nat.eqb (a_file_id a) file_id) rows).

Definition start_idx (chunk_start resolution : Q) (a : Annotation) : Z :=
  floor_int (np_div (np_maximum (a_start a) chunk_start - chunk_start) resolution).

Definition end_idx (chunk_start chunk_end resolution : Q) (a : Annotation) : Z :=
  ceil_int (np_div (np_minimum (a_end a) chunk_end - chunk_start) resolution).

(** The loop that marks the frames of every chunk annotation. *)
Definition mark_annotations (scope : Scope) (chunk_start chunk_end resolution : Q)
  (chunk_labels : list Z) (chunk_rows : list Annotation) (y0 : list (list Z))
  : list (list Z) :=
  fold_left
    (fun y1 a =>
       assign_slice (start_idx chunk_start resolution a)
                    (end_idx chunk_start chunk_end resolution a)
                    (py_index Z.eqb (label_idx scope a) chunk_labels) y1)
    chunk_rows y0.

(** [prepare_chunk(file_id, start_time, duration)].  The crop of the
    waveform is taken to succeed; [num_frames] is what the model
    introspection answers for it, and [duration] is a Python float, whose
    division by zero raises. *)
Definition prepare_chunk (index : Index) (num_frames : nat)
  (file_id : nat) (start_time duration : Q) : result Sample :=
  row <- np_row (metadata index) file_id ;;
  scope <- file_scope index file_id ;;
  let chunk_start := start_time in
  let chunk_end := (start_time + duration)%Q in
  if Nat.eqb num_frames O then Raise ZeroDivisionError
  else
    let resolution := (duration / inject_Z (Z.of_nat num_frames))%Q in
    let chunk_rows := chunk_annotations (annotations index) file_id chunk_start chunk_end in
    let chunk_labels := np_unique (map (label_idx scope) chunk_rows) in
    let num_labels := List.length chunk_labels in
    let y0 := np_zeros num_frames num_labels in
    let y1 := mark_annotations scope chunk_start chunk_end resolution
                chunk_labels chunk_rows y0 in
    Ok (mkSample (mkFeature y1 chunk_labels)
          (dict_set "file" (Z.of_nat file_id)
             (combine (map fst (metadata_unique_values index)) row))).

End Materializer.


(** ** [collate_y]: one label ordering for a batch *)

(** [data[:, j]]; a matrix is the list of its rows. *)
Fixpoint column (m : list (list Z)) (j : nat) : result (list Z) :=
  match m with
  | [] => Ok []
  | row :: m' =>
      match nth_error row j with
      | None => Raise IndexError
      | Some v =>
          vs <- column m' j ;;
          Ok (v :: vs)
      end
  end.

Fixpoint set_column (g : nat) (m : list (list Z)) (col : list Z) : list (list Z) :=
  match m, col with
  | row :: m', v :: col' => list_set g v row :: set_column g m' col'
  | _, _ => m
  end.

(** [Y[i, :, g] = col]: a column of one value is broadcast, any other
    length than the number of frames cannot be. *)
Definition assign_column (g : nat) (m : list (list Z)) (col : list Z)
  : result (list (list Z)) :=
  if Nat.eqb (List.length col) (List.length m) then Ok (set_column g m col)
  else
    match col with
    | [v] => Ok (map (list_set g v) m)
    | _ => Raise ValueError
    end.

(** The inner loop over [enumerate(b["y"].labels)], from position
    [local_idx]. *)
Fixpoint collate_labels (unified : list Z) (b : SlidingWindowFeature)
  (local_idx : nat) (local_labels : list Z) (m : list (list Z))
  : result (list (list Z)) :=
  match local_labels with
  | [] => Ok m
  | label :: rest =>
      let global_idx := py_index Z.eqb label unified in
      col <- column (data b) local_idx ;;
      m' <- assign_column global_idx m col ;;
      collate_labels unified b (S local_idx) rest m'
  end.

Fixpoint collate_samples (unified : list Z) (num_frames : nat)
  (batch : list Sample) : result (list (list (list Z))) :=
  match batch with
  | [] => Ok []
  | b :: batch' =>
      m <- collate_labels unified (y b) O (labels (y b))
             (np_zeros num_frames (List.length unified)) ;;
      ms <- collate_samples unified num_frames batch' ;;
      Ok (m :: ms)
  end.

(** The sorted set of the labels of all the samples of the batch. *)
Definition unified_labels (batch : list Sample) : list Z :=
  np_unique (concat (map (fun b => labels (y b)) batch)).

Definition collate_y (batch : list Sample) : result (list (list (list Z))) :=
  let unified := unified_labels batch in
  match batch with
  | [] => Raise IndexError
  | b0 :: _ =>
      let num_frames := List.length (data (y b0)) in
      collate_samples unified num_frames batch
  end.

(** ** The training sampler *)

#[local] Set Warnings "-register-all".

(** Python values met as metadata values, filter values and dictionary
    keys. *)
Inductive pyval : Type :=
| PInt (z : Z)
| PStr (s : string)
| PList (l : list pyval)
| PTuple (l : list pyval).

Section ListEqb.
Context {A : Type} (eqb : A -> A -> bool).

Fixpoint list_eqb (l m : list A) : bool :=
  match l, m with
  | [], [] => true
  | x :: l', z :: m' => eqb x z && list_eqb l' m'
  | _, _ => false
  end.

End ListEqb.

Fixpoint pyval_eqb (a b : pyval) : bool :=
  match a, b with
  | PInt x, PInt z => Z.eqb x z
  | PStr x, PStr z => String.eqb x z
  | PList l, PList m => list_eqb pyval_eqb l m
  | PTuple l, PTuple m => list_eqb pyval_eqb l m
  | _, _ => false
  end.

(** A list cannot be hashed, nor can a tuple that holds one. *)
Fixpoint hashable (v : pyval) : bool :=
  match v with
  | PInt _ | PStr _ => true
  | PList _ => false
  | PTuple l => forallb hashable l
  end.

(** [np.sum] *)
Definition np_sum (l : list Q) : Q := fold_right Qplus 0%Q l.

(** [array[indices]] *)
Fixpoint take {A : Type} (rows : list A) (indices : list nat) : result (list A) :=
  match indices with
  | [] => Ok []
  | i :: indices' =>
      x <- np_row rows i ;;
      xs <- take rows indices' ;;
      Ok (x :: xs)
  end.

(** [durations / np.sum(durations)] *)
Definition normalize (durations : list Q) : list npfloat :=
  map (fun d => np_div d (np_sum durations)) durations.

(** *** [np.random.choice(a, p=p)] *)

Fixpoint finite_values (p : list npfloat) : option (list Q) :=
  match p with
  | [] => Some []
  | Finite q :: p' =>
      match finite_values p' with
      | Some qs => Some (q :: qs)
      | None => None
      end
  | _ :: _ => None
  end.

(** [sqrt(finfo(float64).eps)], the tolerance on the sum of [p] *)
Definition atol : Q := 1 # 67108864.

Fixpoint cumsum_from (acc : Q) (p : list Q) : list Q :=
  match p with
  | [] => []
  | x :: p' => (acc + x)%Q :: cumsum_from (acc + x)%Q p'
  end.

(** [cdf.searchsorted(u, side="right")] on a nondecreasing [cdf]: the first
    position whose value exceeds [u]. *)
Fixpoint searchsorted_right (cdf : list Q) (u : Q) : nat :=
  match cdf with
  | [] => O
  | c :: cdf' => if Qle_bool c u then S (searchsorted_right cdf' u) else O
  end.

(** The position numpy draws for the uniform sample [u] of [0, 1). *)
Definition choice_position (p : list Q) (u : Q) : nat :=
  let cdf := cumsum_from 0 p in
  let total := last cdf 0%Q in
  searchsorted_right (map (fun c => c / total)%Q cdf) u.

(** The checks of [choice] all raise [ValueError]: an empty [a], sizes that
    differ, a NaN, a negative entry, a sum away from 1 (which an infinite
    entry always is). *)
Definition np_random_choice {A : Type} (u : Q) (a : list A) (p : list npfloat)
  : result A :=
  match a with
  | [] => Raise ValueError
  | _ :: _ =>
      if negb (Nat.eqb (List.length p) (List.length a)) then Raise ValueError
      else
        match finite_values p with
        | None => Raise ValueError
        | Some qs =>
            if existsb (fun q => Qlt_bool q 0) qs then Raise ValueError
            else if Qlt_bool atol (Qabs (np_sum qs - 1)) then Raise ValueError
            else np_row a (choice_position qs u)
        end
  end.

(** [rng.uniform(a, b)] for the sample [u] of [0, 1) *)
Definition rng_uniform (a b u : Q) : Q := (a + (b - a) * u)%Q.

(** *** [train__iter__helper] *)

(** The random samples one chunk consumes: for the file, for the region
    and for the start time, each in [0, 1), and the integer [rng.choice]
    draws below the number of cells. *)
Record Draw : Type := mkDraw {
  u_file : Q;
  u_region : Q;
  u_start : Q;
  u_cell : Z
}.

(** What a generator does when asked for its next item. *)
Inductive step (A : Type) : Type :=
| Yield (a : A)
| Throw (e : exn)
| Spin.

Arguments Yield {A} a.
Arguments Throw {A} e.
Arguments Spin {A}.

Definition step_of {A : Type} (r : result A) : step A :=
  match r with Ok a => Yield a | Raise e => Throw e end.

Record Task : Type := mkTask {
  index : Index;
  duration : Q;
  num_chunks_per_file : nat;
  balance : option (list string)
}.

(** The helper between its start and its loop, and inside its loop: the
    file ids, their probabilities, the file drawn last and the chunks still
    to take from it. *)
Record HelperState : Type := mkHelperState {
  file_ids : list nat;
  prob_annotated_duration : list npfloat;
  current_file : nat;
  chunks_left : nat
}.

Section Sampler.

(** [column == value] for a value that is a sequence depends on the numpy
    at hand. *)
Variable np_equal_sequence : list Z -> list pyval -> result (list bool).

(** [self.metadata[key] == value]: a string never equals an integer
    code. *)
Definition np_equal (col : list Z) (value : pyval) : result (list bool) :=
  match value with
  | PInt z => Ok (map (fun c => Z.eqb c z) col)
  | PStr _ => Ok (map (fun _ => false) col)
  | PList l | PTuple l => np_equal_sequence col l
  end.

Fixpoint and_mask (m1 m2 : list bool) : list bool :=
  match m1, m2 with
  | b1 :: m1', b2 :: m2' => (b1 && b2) :: and_mask m1' m2'
  | _, _ => []
  end.

Fixpoint apply_filters (ix : Index) (filters : list (string * pyval))
  (training : list bool) : result (list bool) :=
  match filters with
  | [] => Ok training
  | (key, value) :: filters' =>
      col <- metadata_column key (metadata_unique_values ix) (metadata ix) ;;
      m <- np_equal col value ;;
      apply_filters ix filters' (and_mask training m)
  end.

(** The indices of the training files that match the filters. *)
Definition training_file_ids (ix : Index) (filters : list (string * pyval))
  : result (list nat) :=
  subset <- metadata_column "subset" (metadata_unique_values ix) (metadata ix) ;;
  training <- apply_filters ix filters
                (map (fun v => Z.eqb v (Subsets_index train)) subset) ;;
  Ok (np_where training).

(** The helper up to its [while True]. *)
Definition train__iter__helper_start (t : Task) (filters : list (string * pyval))
  : result HelperState :=
  ids <- training_file_ids (index t) filters ;;
  durations <- take (annotated_duration (index t)) ids ;;
  Ok (mkHelperState ids (normalize durations) O O).

(** The regions of a file, by position, and their probabilities. *)
Definition annotated_region_indices (ix : Index) (file_id : nat) : list nat :=
  np_where (map (fun r => Nat.eqb (r_file_id r) file_id) (annotated_regions ix)).

Definition prob_annotated_regions_duration (ix : Index) (file_id : nat)
  : result (list npfloat) :=
  durations <- take (map r_duration (annotated_regions ix))
                 (annotated_region_indices ix file_id) ;;
  Ok (normalize durations).

(** One iteration of the inner loop, up to the chunk it passes to
    [prepare_chunk]. *)
Definition draw_chunk (t : Task) (file_id : nat) (d : Draw) : result Chunk :=
  let ix := index t in
  p <- prob_annotated_regions_duration ix file_id ;;
  annotated_region_index <-
    np_random_choice (u_region d) (annotated_region_indices ix file_id) p ;;
  region <- np_row (annotated_regions ix) annotated_region_index ;;
  Ok (mkChunk file_id
        (rng_uniform (r_start region) (r_end region - duration t) (u_start d))
        (duration t)).

(** From one [yield] of the helper to the next.  With no chunk to take per
    file the loop draws files for ever. *)
Definition train__iter__helper_next (t : Task) (s : HelperState) (d : Draw)
  : step (Chunk * HelperState) :=
  match chunks_left s with
  | S k =>
      step_of (c <- draw_chunk t (current_file s) d ;;
               Ok (c, mkHelperState (file_ids s) (prob_annotated_duration s)
                        (current_file s) k))
  | O =>
      match np_random_choice (u_file d) (file_ids s) (prob_annotated_duration s) with
      | Raise e => Throw e
      | Ok file_id =>
          match num_chunks_per_file t with
          | O => Spin
          | S k =>
              step_of (c <- draw_chunk t file_id d ;;
                       Ok (c, mkHelperState (file_ids s)
                                (prob_annotated_duration s) file_id k))
          end
      end
  end.

(** A generator of [train__iter__helper(rng, **filters)]: its body runs
    from the first [next] on. *)
Inductive Generator : Type :=
| Created (filters : list (string * pyval))
| Running (s : HelperState).

Definition generator_next (t : Task) (g : Generator) (d : Draw)
  : step (Chunk * Generator) :=
  match g with
  | Created filters =>
      match train__iter__helper_start t filters with
      | Raise e => Throw e
      | Ok s =>
          match train__iter__helper_next t s d with
          | Yield (c, s') => Yield (c, Running s')
          | Throw e => Throw e
          | Spin => Spin
          end
      end
  | Running s =>
      match train__iter__helper_next t s d with
      | Yield (c, s') => Yield (c, Running s')
      | Throw e => Throw e
      | Spin => Spin
      end
  end.

(** *** [train__iter__] *)

(** [itertools.product] of the iterables it is given: the tuples of the
    cartesian product, the last iterable running fastest. *)
Fixpoint itertools_product (iterables : list (list pyval)) : list (list pyval) :=
  match iterables with
  | [] => [[]]
  | it :: rest =>
      flat_map (fun x => map (cons x) (itertools_product rest)) it
  end.

(** The dictionary [subchunks], from tuples to generators. *)
Definition subchunks_dict : Type := list (pyval * Generator).

Fixpoint dict_store (key : pyval) (g : Generator) (d : subchunks_dict)
  : subchunks_dict :=
  match d with
  | [] => [(key, g)]
  | (k, old) :: d' =>
      if pyval_eqb key k then (k, g) :: d'
      else (k, old) :: dict_store key g d'
  end.

(** [subchunks[key] = g] *)
Definition subchunks_setitem (key : pyval) (g : Generator) (d : subchunks_dict)
  : result subchunks_dict :=
  if hashable key then Ok (dict_store key g d) else Raise TypeError.

(** [subchunks[key]] *)
Fixpoint subchunks_getitem (key : pyval) (d : subchunks_dict) : result Generator :=
  match d with
  | [] => Raise KeyError
  | (k, g) :: d' => if pyval_eqb key k then Ok g else subchunks_getitem key d'
  end.

(** The loop [for product in ...]: the filters pair the balance keys with
    the entries of the tuple, and the generator is stored under the
    tuple. *)
Fixpoint build_subchunks (keys : list string) (products : list (list pyval))
  (subchunks : subchunks_dict) : result subchunks_dict :=
  match products with
  | [] => Ok subchunks
  | product :: products' =>
      let filters := combine keys product in
      d <- subchunks_setitem (PTuple product) (Created filters) subchunks ;;
      build_subchunks keys products' d
  end.

(** What the loop iterates over: [itertools.product] is called with one
    argument, the list of the lists of values of the balance keys. *)
Definition balance_products (muv : unique_values) (keys : list string)
  : list (list pyval) :=
  itertools_product
    [map (fun key => PList (map PStr (muv_get key muv))) keys].

Inductive IterState : Type :=
| Unbalanced (chunks : Generator)
| Balanced (subchunks : subchunks_dict).

(** [train__iter__] up to its [while True]. *)
Definition train__iter__start (t : Task) : result IterState :=
  match balance t with
  | None => Ok (Unbalanced (Created []))
  | Some keys =>
      subchunks <-
        build_subchunks keys
          (balance_products (metadata_unique_values (index t)) keys) [] ;;
      Ok (Balanced subchunks)
  end.

(** [rng.choice(subchunks)] is [subchunks[i]] for an integer [i] below
    [len(subchunks)], and [IndexError] on an empty dictionary. *)
Definition rng_choice (subchunks : subchunks_dict) (i : Z) : result Generator :=
  match subchunks with
  | [] => Raise IndexError
  | _ :: _ => subchunks_getitem (PInt i) subchunks
  end.

(** One turn of the loop of [train__iter__].  In balanced mode the
    generator [rng.choice] returns is itself used as a key of [subchunks],
    whose keys are tuples. *)
Definition train__iter__next (t : Task) (s : IterState) (d : Draw)
  : step (Chunk * IterState) :=
  match s with
  | Unbalanced chunks =>
      match generator_next t chunks d with
      | Yield (c, g) => Yield (c, Unbalanced g)
      | Throw e => Throw e
      | Spin => Spin
      end
  | Balanced subchunks =>
      match rng_choice subchunks (u_cell d) with
      | Raise e => Throw e
      | Ok _ => Throw KeyError
      end
  end.

End Sampler.

(** The chunks the sampler and the validation set give are passed to
    [prepare_chunk]; [frames] stands for the crop of the waveform and the
    introspection of the model. *)
Definition materialize (nonfinite_int : Z) (ix : Index) (frames : Chunk -> nat)
  (c : Chunk) : result Sample :=
  prepare_chunk nonfinite_int ix (frames c) (c_file_id c) (c_start c) (c_duration c).

Definition val__getitem__ (nonfinite_int : Z) (ix : Index) (frames : Chunk -> nat)
  (idx : Z) : result Sample :=
  validation_chunk <- py_getitem (validation_chunks ix) idx ;;
  materialize nonfinite_int ix frames validation_chunk.

Definition val__len__ (ix : Index) : nat := List.length (validation_chunks ix).

(** ** [train__len__] and the frames of [validation_step] *)

(** [math.ceil] of a float: no integer for a NaN or an infinite value. *)
Definition math_ceil (x : npfloat) : result Z :=
  match x with
  | Finite q => Ok (Qceiling q)
  | NaN => Raise ValueError
  | PosInf | NegInf => Raise OverflowError
  end.

(** [train__len__]: [np.sum(self.annotated_duration)] is a numpy float,
    [batch_size] is [self.batch_size]. *)
Definition train__len__ (t : Task) (batch_size : Z) : result Z :=
  n <- math_ceil (np_div (np_sum (annotated_duration (index t))) (duration t)) ;;
  Ok (Z.max batch_size n).

(** [round(warm_up / self.duration * num_frames)] on Python floats, whose
    division by zero raises. *)
Definition warm_up_frames (warm_up chunk_duration : Q) (num_frames : nat)
  : result Z :=
  if Qeq_bool chunk_duration 0 then Raise ZeroDivisionError
  else Ok (round_half_even
             (warm_up / chunk_duration * inject_Z (Z.of_nat num_frames))).

(** [range(start, stop, step)] for a positive step: [count] values from
    [start] on. *)
Fixpoint range_from (start step count : nat) : list nat :=
  match count with
  | O => []
  | S count' => start :: range_from (start + step) step count'
  end.

Definition py_range_step (start stop step : nat) : list nat :=
  range_from start step ((stop - start + (step - 1)) / step).

(** The positions [axis[start:stop:step]] keeps on an axis of [n] entries,
    for a positive step. *)
Definition slice_positions (n : nat) (start stop : Z) (step : nat) : list nat :=
  py_range_step (slice_bound n start) (slice_bound n stop) step.

(** The frames [validation_step] keeps of the [num_frames] frames of the
    prediction: [warm_up_left : num_frames - warm_up_right : 10]. *)
Definition validation_frames (warm_up_left_s warm_up_right_s chunk_duration : Q)
  (num_frames : nat) : result (list nat) :=
  warm_up_left <- warm_up_frames warm_up_left_s chunk_duration num_frames ;;
  warm_up_right <- warm_up_frames warm_up_right_s chunk_duration num_frames ;;
  Ok (slice_positions num_frames warm_up_left
        (Z.of_nat num_frames - warm_up_right) 10).

(** [math.ceil(math.sqrt(n))] for a non-negative integer *)
Definition ceil_sqrt (n : Z) : Z :=
  let r := Z.sqrt n in
  if r * r =? n then r else r + 1.

(** The grid of plots of [validation_step]: [nrows] and [ncols] for
    [num_samples = min(batch_size, 9)]; [math.sqrt] refuses a negative
    number and the division by [nrows] a zero. *)
Definition plot_grid (batch_size : Z) : result (Z * Z) :=
  let num_samples := Z.min batch_size 9 in
  if num_samples <? 0 then Raise ValueError
  else
    let nrows := ceil_sqrt num_samples in
    if nrows =? 0 then Raise ZeroDivisionError
    else Ok (nrows, Qceiling (inject_Z num_samples / inject_Z nrows)).

(** Where sample [sample_idx] is plotted: the rows of its reference and
    hypothesis axes, and their column. *)
Definition sample_axes (nrows ncols sample_idx : Z) : Z * Z * Z :=
  let row_idx := sample_idx / nrows in
  let col_idx := sample_idx mod ncols in
  (row_idx * 2 + 0, row_idx * 2 + 1, col_idx).

(** ** Definitions the statements use *)

(** A segment that is not shorter than the chunk duration. *)
Definition retained (duration : Q) (segment : Segment) : bool :=
  negb (Qlt_bool (seg_duration segment) duration).

Definition region_of (file_id : nat) (segment : Segment) : AnnotatedRegion :=
  mkRegion file_id (seg_duration segment) (seg_start segment) (seg_end segment).

(** The file without its annotated segments shorter than the chunk
    duration. *)
Definition drop_short (duration : Q) (f : ProtocolFile) : ProtocolFile :=
  mkFile (f_subset f) (f_scope f) (f_items f)
    (filter (retained duration) (f_annotated f)) (f_annotation f).

(** The label indices an annotation of a file of scope [sc] may carry. *)
Definition scope_indices (sc : Scope) (a : Annotation) : Prop :=
  0 <= file_label_idx a /\
  (0 <= database_label_idx a \/ database_label_idx a = -1) /\
  (0 <= global_label_idx a \/ global_label_idx a = -1) /\
  (0 <= database_label_idx a <-> sc = database) /\
  (0 <= global_label_idx a <-> sc = global) /\
  (database_label_idx a = -1 \/ global_label_idx a = -1) /\
  (sc = file -> database_label_idx a = -1 /\ global_label_idx a = -1).

(** A row the annotation loop writes for file [file_id] of scope [sc]. *)
Definition row_of_file (file_id : nat) (sc : Scope) (a : Annotation) : Prop :=
  a_file_id a = file_id /\ scope_indices sc a /\
  (sc = database -> database_label_idx a = file_label_idx a).

(** The first two fields of a metadata row: the codes of the scope and of
    the subset of the file. *)
Definition row_codes (row : list Z) (f : ProtocolFile) : Prop :=
  exists rest,
    row = Scopes_index (f_scope f) :: Subsets_index (f_subset f) :: rest.

Definition keys_prefix (muv : unique_values) : Prop :=
  exists rest, map fst muv = "scope"%string :: "subset"%string :: rest.

(** The indices of the files of the development subset, in increasing
    order. *)
Definition development_file_ids (files : list ProtocolFile) : list nat :=
  filter
    (fun i =>
       match nth_error files i with
       | Some f => Subset_eqb (f_subset f) development
       | None => false
       end)
    (seq O (List.length files)).

(** The tiles of a region as the specification words them:
    [floor(region_duration / chunk_duration)] chunks, the [k]-th starting at
    [region_start + k * chunk_duration]. *)
Definition tiles (duration : Q) (region : AnnotatedRegion) : list Chunk :=
  map (fun k =>
         mkChunk (r_file_id region)
           (r_start region + inject_Z (Z.of_nat k) * duration)%Q duration)
      (seq O (Z.to_nat (Qfloor (r_duration region / duration)))).

(** The entry of a frame-by-label matrix at frame [f] and column [j]. *)
Definition entry (m : list (list Z)) (f j : nat) : Z := nth j (nth f m []) 0.

(** A matrix of [n] rows of [w] columns. *)
Definition shape (n w : nat) (m : list (list Z)) : Prop :=
  List.length m = n /\ Forall (fun row => List.length row = w) m.

(** A sample as [prepare_chunk] builds them for [n] frames: labels without
    duplicates and a target of [n] rows with one column per label. *)
Definition well_formed (n : nat) (b : Sample) : Prop :=
  NoDup (labels (y b)) /\
  shape n (List.length (labels (y b))) (data (y b)).

(** What a sample contributes to its matrix [m] of the collated batch:
    the column of a unified label is the sample's column of that label, and
    is zero when the sample does not have the label. *)
Definition collated (n : nat) (unified : list Z) (m : list (list Z))
  (b : Sample) : Prop :=
  shape n (List.length unified) m /\
  forall f g,
    (f < n)%nat -> (g < List.length unified)%nat ->
    (forall j,
        (j < List.length (labels (y b)))%nat ->
        nth j (labels (y b)) 0 = nth g unified 0 ->
        entry m f g = entry (data (y b)) f j) /\
    (~ In (nth g unified 0) (labels (y b)) -> entry m f g = 0).

(** An annotation of file [file_id] that overlaps the chunk window, as
    the specification words it. *)
Definition overlaps (ix : Index) (file_id : nat) (chunk_start chunk_end : Q)
  (a : Annotation) : Prop :=
  In a (annotations ix) /\ a_file_id a = file_id /\
  (a_start a < chunk_end)%Q /\ (chunk_start < a_end a)%Q.

(** The regions [setup] stores for the files numbered from [file_id]. *)
Fixpoint regions_from (duration : Q) (file_id : nat) (files : list ProtocolFile)
  : list AnnotatedRegion :=
  match files with
  | [] => []
  | f :: files' =>
      map (region_of file_id) (filter (retained duration) (f_annotated f))
        ++ regions_from duration (S file_id) files'
  end.

(** The retained annotated duration of a file. *)
Definition retained_duration (duration : Q) (f : ProtocolFile) : Q :=
  np_sum (map seg_duration (filter (retained duration) (f_annotated f))).

(** The indices of the files of the training subset, in increasing
    order. *)
Definition train_file_ids (files : list ProtocolFile) : list nat :=
  filter
    (fun i =>
       match nth_error files i with
       | Some f => Subset_eqb (f_subset f) train
       | None => false
       end)
    (seq O (List.length files)).

(** The helper run over a list of draws: the chunks it yields, and the
    state it is left in. *)
Fixpoint helper_run (t : Task) (s : HelperState) (draws : list Draw)
  : step (list Chunk * HelperState) :=
  match draws with
  | [] => Yield ([], s)
  | d :: draws' =>
      match train__iter__helper_next t s d with
      | Yield (c, s') =>
          match helper_run t s' draws' with
          | Yield (cs, s'') => Yield (c :: cs, s'')
          | Throw e => Throw e
          | Spin => Spin
          end
      | Throw e => Throw e
      | Spin => Spin
      end
  end.

(** Segments as [pyannote.core] builds them: the duration fits between the
    start and the end. *)
Definition segments_fit (files : list ProtocolFile) : Prop :=
  forall f segment,
    In f files -> In segment (f_annotated f) ->
    (seg_start segment + seg_duration segment <= seg_end segment)%Q.

(** A draw whose uniform samples are in [0, 1). *)
Definition unit_draw (d : Draw) : Prop :=
  (0 <= u_file d)%Q /\ (u_file d < 1)%Q /\
  (0 <= u_region d)%Q /\ (u_region d < 1)%Q /\
  (0 <= u_start d)%Q /\ (u_start d < 1)%Q.

(** [muv'] holds what [muv] holds and more: the keys of [muv] come first
    and the values of every key are a prefix of its values in [muv']. *)
Definition muv_extends (muv muv' : unique_values) : Prop :=
  (exists tail, map fst muv' = map fst muv ++ tail) /\
  forall k, exists tail, muv_get k muv' = muv_get k muv ++ tail.

(** No key lists a value twice. *)
Definition muv_nodup (muv : unique_values) : Prop :=
  forall k, NoDup (muv_get k muv).

(** A key of a file that [setup] encodes. *)
Definition encoded_key (key : string) : Prop :=
  py_in String.eqb key skipped_keys = false /\
  py_in String.eqb key reserved_keys = false.

(** A value [setup] puts in the dictionary of its file: a string or an
    integer. *)
Definition stored_value (v : metaval) : Prop :=
  (exists s, v = MStr s) \/ (exists z, v = MInt z).

(** A file all of whose encoded values are of a type [setup] supports. *)
Definition supported_file (f : ProtocolFile) : Prop :=
  forall key v, In (key, v) (f_items f) -> encoded_key key -> v <> MOther.

(** [f] carries the keys of [f0]: its string keys are string keys of [f0],
    and it has a string or an integer under every string key of [f0]. *)
Definition same_keys (f0 f : ProtocolFile) : Prop :=
  (forall key value,
      In (key, MStr value) (f_items f) -> encoded_key key ->
      exists value0, In (key, MStr value0) (f_items f0)) /\
  (forall key value0,
      In (key, MStr value0) (f_items f0) -> encoded_key key ->
      exists v, In (key, v) (f_items f) /\ stored_value v).

(** Every field of [muv] is [scope], [subset] or a key under which [f] has
    a string or an integer. *)
Definition fields_stored (muv : unique_values) (f : ProtocolFile) : Prop :=
  forall k,
    muv_has k muv = true ->
    k = "scope"%string \/ k = "subset"%string \/
    (encoded_key k /\ exists v, In (k, v) (f_items f) /\ stored_value v).

(** A track of the corpus: the index and the scope of its file, its
    segment and its label. *)
Record Track : Type := mkTrack {
  t_file_id : nat;
  t_scope : Scope;
  t_segment : Segment;
  t_label : string
}.

(** The tracks of the files numbered from [file_id], in the order [setup]
    meets them. *)
Fixpoint corpus_tracks (file_id : nat) (files : list ProtocolFile) : list Track :=
  match files with
  | [] => []
  | f :: files' =>
      map (fun track => mkTrack file_id (f_scope f) (fst track) (snd track))
          (f_annotation f)
        ++ corpus_tracks (S file_id) files'
  end.

(** Row [a] stands for the track [tr]: it has its file and its bounds, its
    [file_label_idx] is the position of the label of the track in [labels],
    and so is its [global_label_idx] in [unique] when the scope is
    [global]. *)
Definition row_of_track_in (labels unique : list string)
  (a : Annotation) (tr : Track) : Prop :=
  a_file_id a = t_file_id tr /\
  a_start a = seg_start (t_segment tr) /\
  a_end a = seg_end (t_segment tr) /\
  (exists p, file_label_idx a = Z.of_nat p /\
             nth_error labels p = Some (t_label tr)) /\
  (t_scope tr = global ->
   exists p, global_label_idx a = Z.of_nat p /\
             nth_error unique p = Some (t_label tr)).

(** The same, the labels of each file being read in [per_file]. *)
Definition row_of_track (per_file : list (list string)) (unique : list string)
  (a : Annotation) (tr : Track) : Prop :=
  exists labels,
    nth_error per_file (t_file_id tr) = Some labels /\
    row_of_track_in labels unique a tr.

(** [train__iter__] run over a list of draws: the chunks it yields, and
    the state it is left in. *)
Fixpoint iter_run
  (np_equal_sequence : list Z -> list pyval -> result (list bool))
  (t : Task) (s : IterState) (draws : list Draw)
  : step (list Chunk * IterState) :=
  match draws with
  | [] => Yield ([], s)
  | d :: draws' =>
      match train__iter__next np_equal_sequence t s d with
      | Yield (c, s') =>
          match iter_run np_equal_sequence t s' draws' with
          | Yield (cs, s'') => Yield (c :: cs, s'')
          | Throw e => Throw e
          | Spin => Spin
          end
      | Throw e => Throw e
      | Spin => Spin
      end
  end.

(** *** Example corpora *)

(** Two files of scope [database], annotated on 0-10 s: "spk1" on 2-5 s in
    the first, "spk2" on 1-9 s in the second. *)
Definition two_files : list ProtocolFile :=
  [mkFile train database [] [mkSegment 0 10 10]
     [(mkSegment 2 5 3, "spk1"%string)];
   mkFile train database [] [mkSegment 0 10 10]
     [(mkSegment 1 9 8, "spk2"%string)]].

(** Two files of scope [database] that share the label "b". *)
Definition shared_label_files : list ProtocolFile :=
  [mkFile train database [] [mkSegment 0 10 10]
     [(mkSegment 0 2 2, "a"%string); (mkSegment 2 4 2, "b"%string)];
   mkFile train database [] [mkSegment 0 10 10]
     [(mkSegment 1 3 2, "b"%string)]].

(** A file with a 2 s and a 5 s annotated region. *)
Definition short_region_files : list ProtocolFile :=
  [mkFile train file [] [mkSegment 0 2 2; mkSegment 3 8 5]
     [(mkSegment 4 6 2, "spk1"%string)]].

(** A development file with one annotated region of 9.5 s. *)
Definition development_files : list ProtocolFile :=
  [mkFile development file [("domain"%string, MStr "A"%string)]
     [mkSegment 0 (19 # 2) (19 # 2)] []].

(** The index of [two_files] for 4 s chunks. *)
Definition two_files_index : Index :=
  Eval vm_compute in
    match setup 4 false two_files [] with
    | Ok ix => ix
    | Raise _ => mkIndex [] [] [] [] [] []
    end.

(** The sequence comparison of numpy taken in the examples. *)
Definition no_sequence_filter (col : list Z) (l : list pyval)
  : result (list bool) :=
  Raise ValueError.

(** No file at all, and a file whose only annotated region is shorter than
    the 4 s chunks. *)
Definition empty_index : Index :=
  Eval vm_compute in
    match setup 4 false [] [] with
    | Ok ix => ix
    | Raise _ => mkIndex [] [] [] [] [] []
    end.

Definition short_file_index : Index :=
  Eval vm_compute in
    match setup 4 false
            [mkFile train file [] [mkSegment 0 2 2] []] [] with
    | Ok ix => ix
    | Raise _ => mkIndex [] [] [] [] [] []
    end.

(** Two training files of the domains "A" and "B". *)
Definition domain_files : list ProtocolFile :=
  [mkFile train file [("domain"%string, MStr "A"%string)]
     [mkSegment 0 10 10] [(mkSegment 2 5 3, "spk1"%string)];
   mkFile train file [("domain"%string, MStr "B"%string)]
     [mkSegment 0 10 10] [(mkSegment 1 9 8, "spk2"%string)]].

Definition domain_index : Index :=
  Eval vm_compute in
    match setup 4 false domain_files [] with
    | Ok ix => ix
    | Raise _ => mkIndex [] [] [] [] [] []
    end.

(** Two training files whose [domain] is a string in the first and an
    integer in the second. *)
Definition mixed_files : list ProtocolFile :=
  [mkFile train file [("domain"%string, MStr "A"%string)]
     [mkSegment 0 10 10] [];
   mkFile train file [("domain"%string, MInt 0)]
     [mkSegment 0 10 10] []].

Definition mixed_index : Index :=
  Eval vm_compute in
    match setup 4 false mixed_files [] with
    | Ok ix => ix
    | Raise _ => mkIndex [] [] [] [] [] []
    end.

(** Two files of scope [global] that share the label "b". *)
Definition global_label_files : list ProtocolFile :=
  [mkFile train global [] [mkSegment 0 10 10]
     [(mkSegment 0 2 2, "a"%string); (mkSegment 2 4 2, "b"%string)];
   mkFile train global [] [mkSegment 0 10 10]
     [(mkSegment 1 3 2, "b"%string)]].

Definition global_label_index : Index :=
  Eval vm_compute in
    match setup 1 false global_label_files [] with
    | Ok ix => ix
    | Raise _ => mkIndex [] [] [] [] [] []
    end.

(** The index of a training file of 10 s and of the development file, for
    3 s chunks. *)
Definition train_and_development_index : Index :=
  Eval vm_compute in
    match setup 3 true
            [mkFile train file [("domain"%string, MStr "A"%string)]
               [mkSegment 0 10 10] []]
            development_files with
    | Ok ix => ix
    | Raise _ => mkIndex [] [] [] [] [] []
    end.

(** * Properties *)

(** ** Auxiliary facts *)

Lemma Qlt_bool_iff (x y : Q) : Qlt_bool x y = true <-> (x < y)%Q.
Proof.
  unfold Qlt_bool. rewrite negb_true_iff. split.
  - intros H. apply Qnot_le_lt. intros Hle.
    apply Qle_bool_iff in Hle. congruence.
  - intros H. destruct (Qle_bool y x) eqn:E; [|reflexivity].
    apply Qle_bool_iff in E. exfalso. exact (Qlt_not_le _ _ H E).
Qed.

Lemma Qlt_bool_false_iff (x y : Q) : Qlt_bool x y = false <-> (y <= x)%Q.
Proof.
  unfold Qlt_bool. rewrite negb_false_iff. apply Qle_bool_iff.
Qed.

Lemma retained_iff (duration : Q) (segment : Segment) :
  retained duration segment = true <-> ~ (seg_duration segment < duration)%Q.
Proof.
  unfold retained. rewrite negb_true_iff, Qlt_bool_false_iff. split.
  - intros H Hlt. exact (Qlt_not_le _ _ Hlt H).
  - intros H. apply Qnot_lt_le. exact H.
Qed.

Lemma bind_ok {A B : Type} (r : result A) (k : A -> result B) (b : B) :
  bind r k = Ok b -> exists a, r = Ok a /\ k a = Ok b.
Proof.
  destruct r as [a|e]; simpl; intros H; [|discriminate].
  exists a. split; [reflexivity|exact H].
Qed.

(** ** The loop over the annotated regions *)

Lemma annotated_loop_regions (duration : Q) (file_id : nat) (segments : list Segment) :
  forall regions total,
    fst (annotated_loop duration file_id segments regions total)
    = regions ++ map (region_of file_id) (filter (retained duration) segments).
Proof.
  induction segments as [|segment segments IH]; intros regions total; simpl.
  - now rewrite app_nil_r.
  - unfold retained at 1.
    destruct (Qlt_bool (seg_duration segment) duration); simpl.
    + apply IH.
    + rewrite IH, <- app_assoc. reflexivity.
Qed.

Lemma annotated_loop_total (duration : Q) (file_id : nat) (segments : list Segment) :
  forall regions total,
    (snd (annotated_loop duration file_id segments regions total)
     == total + np_sum (map seg_duration (filter (retained duration) segments)))%Q.
Proof.
  induction segments as [|segment segments IH]; intros regions total; simpl.
  - ring.
  - unfold retained at 1.
    destruct (Qlt_bool (seg_duration segment) duration); simpl.
    + apply IH.
    + rewrite IH. ring.
Qed.

Lemma annotated_loop_drop_short (duration : Q) (file_id : nat) (segments : list Segment) :
  forall regions total,
    annotated_loop duration file_id (filter (retained duration) segments) regions total
    = annotated_loop duration file_id segments regions total.
Proof.
  induction segments as [|segment segments IH]; intros regions total; simpl.
  - reflexivity.
  - unfold retained at 1.
    destruct (Qlt_bool (seg_duration segment) duration) eqn:E; simpl.
    + apply IH.
    + rewrite E. apply IH.
Qed.

(** ** The loop over the annotations *)

Lemma annotation_step_row (file_id : nat) (sc : Scope) (lists : LabelLists)
  (rows : list Annotation) (track : Segment * string) :
  (sc = database -> database_unique_labels lists = file_unique_labels lists) ->
  exists lists' a,
    annotation_step file_id sc (lists, rows) track = (lists', rows ++ [a]) /\
    (sc = database -> database_unique_labels lists' = file_unique_labels lists') /\
    row_of_file file_id sc a.
Proof.
  intros Hinv. destruct track as [segment label]. unfold annotation_step.
  eexists. eexists. split; [reflexivity|]. split.
  - intros ->. simpl. now rewrite Hinv.
  - unfold row_of_file, scope_indices; simpl. split; [reflexivity|]. split.
    + destruct sc; simpl; repeat split; intros; try lia; try discriminate; auto;
        try (left; lia); try (right; reflexivity).
    + intros ->. simpl. now rewrite Hinv.
Qed.

Lemma annotation_fold_rows (file_id : nat) (sc : Scope) (tracks : list (Segment * string)) :
  forall st,
    (sc = database ->
     database_unique_labels (fst st) = file_unique_labels (fst st)) ->
    exists new,
      snd (fold_left (annotation_step file_id sc) tracks st) = snd st ++ new /\
      Forall (row_of_file file_id sc) new.
Proof.
  induction tracks as [|track tracks IH]; intros [lists rows] Hinv;
    cbn [fold_left snd].
  - exists []. split; [now rewrite app_nil_r|constructor].
  - destruct (annotation_step_row file_id sc lists rows track Hinv)
      as (lists1 & a & Hstep & Hinv1 & Ha).
    rewrite Hstep.
    destruct (IH (lists1, rows ++ [a]) Hinv1) as (new & Hnew & Hall).
    exists (a :: new). split.
    + rewrite Hnew. simpl. now rewrite <- app_assoc.
    + constructor; assumption.
Qed.

(** ** One file *)

Lemma setup_file_spec (duration : Q) (file_id : nat) (f : ProtocolFile)
  (s s' : LoopState) :
  setup_file duration file_id f s = Ok s' ->
  exists muv row total new,
    encode_metadata f (ls_unique_values s) = Ok (muv, row) /\
    ls_unique_values s' = muv /\
    ls_metadata s' = ls_metadata s ++ [row] /\
    ls_annotated_duration s' = ls_annotated_duration s ++ [total] /\
    (total == np_sum (map seg_duration (filter (retained duration) (f_annotated f))))%Q /\
    ls_annotated_regions s'
    = ls_annotated_regions s
        ++ map (region_of file_id) (filter (retained duration) (f_annotated f)) /\
    ls_annotations s' = ls_annotations s ++ new /\
    Forall (row_of_file file_id (f_scope f)) new.
Proof.
  unfold setup_file. intros H.
  apply bind_ok in H. destruct H as ([muv row] & Henc & H).
  pose proof (annotated_loop_regions duration file_id (f_annotated f)
                (ls_annotated_regions s) 0%Q) as Hreg.
  pose proof (annotated_loop_total duration file_id (f_annotated f)
                (ls_annotated_regions s) 0%Q) as Htot.
  destruct (annotated_loop duration file_id (f_annotated f)
              (ls_annotated_regions s) 0%Q) as [regions total].
  simpl in Hreg, Htot.
  destruct (annotation_fold_rows file_id (f_scope f) (f_annotation f)
              (mkLabelLists [] [] (ls_unique_labels s), ls_annotations s)
              (fun _ => eq_refl))
    as (new & Hnew & Hall).
  destruct (fold_left (annotation_step file_id (f_scope f)) (f_annotation f)
              (mkLabelLists [] [] (ls_unique_labels s), ls_annotations s))
    as [lists rows].
  simpl in Hnew. injection H as <-. simpl.
  exists muv, row, total, new. repeat split; try assumption; try reflexivity.
  rewrite Htot. ring.
Qed.

Lemma setup_file_drop_short (duration : Q) (file_id : nat) (f : ProtocolFile)
  (s : LoopState) :
  setup_file duration file_id (drop_short duration f) s
  = setup_file duration file_id f s.
Proof.
  unfold setup_file, drop_short, encode_metadata; simpl.
  rewrite annotated_loop_drop_short. reflexivity.
Qed.

Lemma setup_loop_drop_short (duration : Q) (files : list ProtocolFile) :
  forall file_id s,
    setup_loop duration file_id (map (drop_short duration) files) s
    = setup_loop duration file_id files s.
Proof.
  induction files as [|f files IH]; intros file_id s; simpl.
  - reflexivity.
  - rewrite setup_file_drop_short.
    destruct (setup_file duration file_id f s); simpl; [apply IH|reflexivity].
Qed.

Lemma setup_drop_short (duration : Q) (has_validation : bool)
  (protocol_train protocol_development : list ProtocolFile) :
  setup duration has_validation
    (map (drop_short duration) protocol_train)
    (map (drop_short duration) protocol_development)
  = setup duration has_validation protocol_train protocol_development.
Proof.
  unfold setup, files_iter. destruct has_validation.
  - rewrite <- map_app, setup_loop_drop_short. reflexivity.
  - rewrite setup_loop_drop_short. reflexivity.
Qed.

(** ** The loop over the files *)

Lemma setup_loop_regions (duration : Q) (files : list ProtocolFile) :
  forall file_id s s',
    setup_loop duration file_id files s = Ok s' ->
    forall r,
      In r (ls_annotated_regions s') <->
      In r (ls_annotated_regions s) \/
      exists k f segment,
        nth_error files k = Some f /\ In segment (f_annotated f) /\
        retained duration segment = true /\
        r = region_of (file_id + k) segment.
Proof.
  induction files as [|f files IH]; intros file_id s s' H r; simpl in H.
  - injection H as <-. split; [auto|].
    intros [Hin|(k & f & seg & Hk & _)]; [exact Hin|].
    destruct k; discriminate.
  - apply bind_ok in H. destruct H as (s1 & Hfile & Hloop).
    apply setup_file_spec in Hfile.
    destruct Hfile as (muv & row & total & new & _ & _ & _ & _ & _ & Hreg & _).
    rewrite (IH _ _ _ Hloop r), Hreg, in_app_iff, in_map_iff. split.
    + intros [[Hin|(seg & Heq & Hseg)]|(k & f' & seg & Hk & Hseg & Hret & Heq)].
      * left; exact Hin.
      * apply filter_In in Hseg. destruct Hseg as [Hseg Hret].
        right. exists O, f, seg. rewrite Nat.add_0_r. auto.
      * right. exists (S k), f', seg.
        replace (file_id + S k)%nat with (S file_id + k)%nat by lia. auto.
    + intros [Hin|(k & f' & seg & Hk & Hseg & Hret & Heq)].
      * left; left; exact Hin.
      * destruct k as [|k]; simpl in Hk.
        -- injection Hk as <-. left; right. exists seg.
           rewrite Nat.add_0_r in Heq. split; [auto|].
           apply filter_In. auto.
        -- right. exists k, f', seg.
           replace (S file_id + k)%nat with (file_id + S k)%nat by lia. auto.
Qed.

Lemma setup_loop_durations (duration : Q) (files : list ProtocolFile) :
  forall file_id s s',
    setup_loop duration file_id files s = Ok s' ->
    exists totals,
      ls_annotated_duration s' = ls_annotated_duration s ++ totals /\
      Forall2
        (fun total f =>
           (total == np_sum (map seg_duration
                               (filter (retained duration) (f_annotated f))))%Q)
        totals files.
Proof.
  induction files as [|f files IH]; intros file_id s s' H; simpl in H.
  - injection H as <-. exists []. split; [now rewrite app_nil_r|constructor].
  - apply bind_ok in H. destruct H as (s1 & Hfile & Hloop).
    apply setup_file_spec in Hfile.
    destruct Hfile as (muv & row & total & new & _ & _ & _ & Hdur & Htot & _).
    destruct (IH _ _ _ Hloop) as (totals & Heq & Hall).
    exists (total :: totals). split.
    + rewrite Heq, Hdur, <- app_assoc. reflexivity.
    + constructor; assumption.
Qed.

Lemma setup_loop_annotations (duration : Q) (files : list ProtocolFile) :
  forall file_id s s',
    setup_loop duration file_id files s = Ok s' ->
    forall a,
      In a (ls_annotations s') ->
      In a (ls_annotations s) \/
      exists k f,
        nth_error files k = Some f /\ row_of_file (file_id + k) (f_scope f) a.
Proof.
  induction files as [|f files IH]; intros file_id s s' H a Ha; simpl in H.
  - injection H as <-. left; exact Ha.
  - apply bind_ok in H. destruct H as (s1 & Hfile & Hloop).
    apply setup_file_spec in Hfile.
    destruct Hfile as (muv & row & total & new & _ & _ & _ & _ & _ & _ & Hann & Hall).
    destruct (IH _ _ _ Hloop a Ha) as [Hin|(k & f' & Hk & Hrow)].
    + rewrite Hann in Hin. apply in_app_iff in Hin. destruct Hin as [Hin|Hin].
      * left; exact Hin.
      * right. exists O, f. rewrite Forall_forall in Hall.
        rewrite Nat.add_0_r. split; [reflexivity|exact (Hall a Hin)].
    + right. exists (S k), f'. simpl. split; [exact Hk|].
      replace (file_id + S k)%nat with (S file_id + k)%nat by lia. exact Hrow.
Qed.

(** ** [setup] as a whole *)

Lemma np_array_metadata_ok (muv : unique_values) (rows rows' : list (list Z)) :
  np_array_metadata muv rows = Ok rows' ->
  rows' = rows /\ Forall (fun row => List.length row = List.length muv) rows.
Proof.
  unfold np_array_metadata.
  destruct (forallb _ rows) eqn:E; [|discriminate].
  intros H. injection H as <-. split; [reflexivity|].
  rewrite forallb_forall in E. apply Forall_forall. intros row Hrow.
  apply Nat.eqb_eq. exact (E row Hrow).
Qed.

Lemma setup_inv (duration : Q) (has_validation : bool)
  (protocol_train protocol_development : list ProtocolFile) (ix : Index) :
  setup duration has_validation protocol_train protocol_development = Ok ix ->
  exists s,
    setup_loop duration O
      (files_iter has_validation protocol_train protocol_development)
      initial_state = Ok s /\
    metadata_unique_values ix = ls_unique_values s /\
    metadata ix = ls_metadata s /\
    annotated_duration ix = ls_annotated_duration s /\
    annotated_regions ix = ls_annotated_regions s /\
    annotations ix = ls_annotations s /\
    Forall (fun row => List.length row = List.length (ls_unique_values s))
      (ls_metadata s) /\
    (if has_validation
     then tile_validation duration (ls_unique_values s) (ls_metadata s)
            (ls_annotated_regions s)
     else Ok []) = Ok (validation_chunks ix).
Proof.
  unfold setup, files_iter. intros H.
  apply bind_ok in H. destruct H as (s & Hloop & H).
  apply bind_ok in H. destruct H as (rows & Hrows & H).
  apply np_array_metadata_ok in Hrows. destruct Hrows as [-> Hlen].
  exists s. destruct has_validation.
  - apply bind_ok in H. destruct H as (chunks & Htile & H).
    injection H as <-. simpl. repeat split; assumption.
  - injection H as <-. simpl. repeat split; assumption.
Qed.

Lemma Forall2_nth_error {A B : Type} (R : A -> B -> Prop) (l : list A) (l' : list B) :
  Forall2 R l l' ->
  forall k b, nth_error l' k = Some b ->
  exists a, nth_error l k = Some a /\ R a b.
Proof.
  induction 1 as [|a b l l' Hab Hall IH]; intros k b' Hk.
  - destruct k; discriminate.
  - destruct k as [|k]; simpl in *.
    + injection Hk as <-. exists a. auto.
    + apply IH. exact Hk.
Qed.



(** C9: every annotation row written by [setup] belongs to a file of the
    corpus and carries a non-negative [file_label_idx]; its
    [database_label_idx] is non-negative exactly when the scope of that file
    is [database] and is [-1] otherwise, its [global_label_idx] is
    non-negative exactly when the scope is [global] and is [-1] otherwise;
    so at most one of the two differs from [-1], and both are [-1] when the
    scope is [file]. *)
Theorem setup_label_indices_follow_scope
  (duration : Q) (has_validation : bool)
  (protocol_train protocol_development : list ProtocolFile) (ix : Index) :
  setup duration has_validation protocol_train protocol_development = Ok ix ->
  forall a,
    In a (annotations ix) ->
    exists f,
      nth_error (files_iter has_validation protocol_train protocol_development)
        (a_file_id a) = Some f /\
      0 <= file_label_idx a /\
      (0 <= database_label_idx a \/ database_label_idx a = -1) /\
      (0 <= global_label_idx a \/ global_label_idx a = -1) /\
      (0 <= database_label_idx a <-> f_scope f = database) /\
      (0 <= global_label_idx a <-> f_scope f = global) /\
      (database_label_idx a = -1 \/ global_label_idx a = -1) /\
      (f_scope f = file ->
       database_label_idx a = -1 /\ global_label_idx a = -1).
Proof.
  intros Hsetup a Ha.
  destruct (setup_inv _ _ _ _ _ Hsetup) as (s & Hloop & _ & _ & _ & _ & Hann & _).
  rewrite Hann in Ha.
  destruct (setup_loop_annotations _ _ _ _ _ Hloop a Ha)
    as [[]|(k & f & Hk & Hid & Hsc & _)].
  exists f. simpl in Hid. rewrite Hid. split; [exact Hk|exact Hsc].
Qed.

Lemma setup_label_indices_follow_scope_witness :
  exists ix a f,
    setup 4 false two_files [] = Ok ix /\
    nth_error (annotations ix) 1 = Some a /\
    nth_error two_files (a_file_id a) = Some f /\
    f_scope f = database /\
    file_label_idx a = 0 /\ database_label_idx a = 0 /\ global_label_idx a = -1.
Proof.
  eexists. eexists.
  destruct (setup_label_indices_follow_scope 4 false two_files [] _ eq_refl
              (mkAnnotation 1 1 9 0 0 (-1)))
    as (f & Hf & _).
  - simpl. auto.
  - exists f. split; [reflexivity|]. split; [reflexivity|].
    split; [exact Hf|]. simpl in Hf. injection Hf as <-.
    repeat split.
Defined.

(** C1, at two files of scope [database] that share the label "b": the
    label is numbered 1 in the first file, where "a" came first, and 0 in
    the second, because the list of database-scope labels is emptied at
    every file.  Each row is (file index, file-scope index, database-scope
    index). *)
Theorem database_label_idx_restarts_at_each_file :
  exists ix,
    setup 1 false shared_label_files [] = Ok ix /\
    map (fun a => (a_file_id a, file_label_idx a, database_label_idx a))
        (annotations ix)
    = [(0%nat, 0, 0); (0%nat, 1, 1); (1%nat, 0, 0)].
Proof.
  eexists. split; reflexivity.
Qed.

(** In a file of scope [database] the database-scope index of every
    annotation is its file-scope index. *)
Lemma setup_database_idx_is_file_idx
  (duration : Q) (has_validation : bool)
  (protocol_train protocol_development : list ProtocolFile) (ix : Index) :
  setup duration has_validation protocol_train protocol_development = Ok ix ->
  forall a f,
    In a (annotations ix) ->
    nth_error (files_iter has_validation protocol_train protocol_development)
      (a_file_id a) = Some f ->
    f_scope f = database ->
    database_label_idx a = file_label_idx a.
Proof.
  intros Hsetup a f Ha Hf Hsc.
  destruct (setup_inv _ _ _ _ _ Hsetup) as (s & Hloop & _ & _ & _ & _ & Hann & _).
  rewrite Hann in Ha.
  destruct (setup_loop_annotations _ _ _ _ _ Hloop a Ha)
    as [[]|(k & f' & Hk & Hid & _ & Hdb)].
  simpl in Hid. rewrite Hid in Hf. rewrite Hk in Hf. injection Hf as ->.
  exact (Hdb Hsc).
Qed.

(** ** The metadata columns *)

Lemma string_eqb_false_in (k key : string) (l : list string) :
  py_in String.eqb k l = true -> py_in String.eqb key l = false ->
  String.eqb k key = false.
Proof.
  intros Hk Hkey. destruct (String.eqb k key) eqn:E; [|reflexivity].
  apply String.eqb_eq in E. subst. congruence.
Qed.

Lemma dict_get_set_other (k key : string) (v : Z) (d : list (string * Z)) :
  String.eqb k key = false -> dict_get k (dict_set key v d) = dict_get k d.
Proof.
  intros Hne. induction d as [|[k' v'] d IH]; simpl.
  - now rewrite Hne.
  - destruct (String.eqb key k') eqn:E; simpl.
    + apply String.eqb_eq in E. subst k'. now rewrite Hne.
    + destruct (String.eqb k k'); [reflexivity|exact IH].
Qed.

Lemma muv_touch_keys (key : string) (muv : unique_values) :
  exists tail, map fst (muv_touch key muv) = map fst muv ++ tail.
Proof.
  unfold muv_touch. destruct (muv_has key muv).
  - exists []. now rewrite app_nil_r.
  - exists [key]. now rewrite map_app.
Qed.

Lemma muv_set_keys (key : string) (vs : list string) (muv : unique_values) :
  exists tail, map fst (muv_set key vs muv) = map fst muv ++ tail.
Proof.
  induction muv as [|[k old] muv IH]; simpl.
  - exists [key]. reflexivity.
  - destruct (String.eqb key k); simpl.
    + exists []. now rewrite app_nil_r.
    + destruct IH as (tail & ->). exists tail. reflexivity.
Qed.

Lemma encode_items_inv (items : list (string * metaval)) :
  forall muv md muv' md',
    encode_items items muv md = Ok (muv', md') ->
    (forall k, py_in String.eqb k reserved_keys = true ->
               dict_get k md' = dict_get k md) /\
    exists tail, map fst muv' = map fst muv ++ tail.
Proof.
  induction items as [|[key value] items IH]; intros muv md muv' md' H;
    cbn [encode_items] in H.
  - injection H as <- <-. split; [reflexivity|]. exists []. now rewrite app_nil_r.
  - destruct (py_in String.eqb key skipped_keys); [exact (IH _ _ _ _ H)|].
    destruct (py_in String.eqb key reserved_keys) eqn:Hres; [exact (IH _ _ _ _ H)|].
    destruct value as [v|z|q|].
    + destruct (IH _ _ _ _ H) as (Hget & tail & Hkeys). split.
      * intros k Hk. rewrite (Hget k Hk).
        apply dict_get_set_other. exact (string_eqb_false_in _ _ _ Hk Hres).
      * destruct (muv_touch_keys key muv) as (t1 & Ht1).
        destruct (muv_set_keys key
                    (append_if_new String.eqb v (muv_get key (muv_touch key muv)))
                    (muv_touch key muv)) as (t2 & Ht2).
        exists (t1 ++ t2 ++ tail). rewrite Hkeys, Ht2, Ht1.
        now rewrite <- !app_assoc.
    + destruct (IH _ _ _ _ H) as (Hget & tail & Hkeys). split.
      * intros k Hk. rewrite (Hget k Hk).
        apply dict_get_set_other. exact (string_eqb_false_in _ _ _ Hk Hres).
      * exists tail. exact Hkeys.
    + exact (IH _ _ _ _ H).
    + discriminate.
Qed.

Lemma encode_metadata_codes (f : ProtocolFile) (muv muv' : unique_values)
  (row : list Z) :
  keys_prefix muv ->
  encode_metadata f muv = Ok (muv', row) ->
  keys_prefix muv' /\ row_codes row f.
Proof.
  intros (rest & Hkeys) H. unfold encode_metadata in H.
  apply bind_ok in H. destruct H as ([muv1 md] & Henc & H).
  apply bind_ok in H. destruct H as (row1 & Hrow & H).
  injection H as <- <-.
  destruct (encode_items_inv _ _ _ _ _ Henc) as (Hget & tail & Hkeys1).
  rewrite Hkeys in Hkeys1. simpl in Hkeys1. split.
  - exists (rest ++ tail). exact Hkeys1.
  - rewrite Hkeys1 in Hrow. cbn [metadatum_tuple] in Hrow.
    rewrite (Hget "scope"%string eq_refl), (Hget "subset"%string eq_refl) in Hrow.
    simpl in Hrow.
    apply bind_ok in Hrow. destruct Hrow as (vs & Hvs & Hrow).
    apply bind_ok in Hvs. destruct Hvs as (vs0 & _ & Hvs).
    injection Hvs as <-. injection Hrow as <-. exists vs0. reflexivity.
Qed.

Lemma setup_loop_metadata (duration : Q) (files : list ProtocolFile) :
  forall file_id s s',
    keys_prefix (ls_unique_values s) ->
    setup_loop duration file_id files s = Ok s' ->
    keys_prefix (ls_unique_values s') /\
    exists rows,
      ls_metadata s' = ls_metadata s ++ rows /\ Forall2 row_codes rows files.
Proof.
  induction files as [|f files IH]; intros file_id s s' Hpre H; simpl in H.
  - injection H as <-. split; [exact Hpre|].
    exists []. split; [now rewrite app_nil_r|constructor].
  - apply bind_ok in H. destruct H as (s1 & Hfile & Hloop).
    apply setup_file_spec in Hfile.
    destruct Hfile as (muv & row & total & new & Henc & Hmuv & Hmeta & _).
    destruct (encode_metadata_codes _ _ _ _ Hpre Henc) as [Hpre1 Hcodes].
    rewrite <- Hmuv in Hpre1.
    destruct (IH _ _ _ Hpre1 Hloop) as (Hpre' & rows & Heq & Hall).
    split; [exact Hpre'|].
    exists (row :: rows). split.
    + rewrite Heq, Hmeta, <- app_assoc. reflexivity.
    + constructor; assumption.
Qed.

Lemma initial_keys_prefix : keys_prefix (ls_unique_values initial_state).
Proof. exists []. reflexivity. Qed.

Lemma field_position_prefix (muv : unique_values) :
  keys_prefix muv ->
  field_position "scope" muv = Ok O /\ field_position "subset" muv = Ok 1%nat.
Proof.
  intros (rest & Hkeys).
  destruct muv as [|[k1 v1] [|[k2 v2] muv]]; try discriminate.
  simpl in Hkeys. injection Hkeys as -> -> _.
  split; reflexivity.
Qed.

Lemma subset_column (rows : list (list Z)) (files : list ProtocolFile) :
  Forall2 row_codes rows files ->
  map (fun row => nth 1 row 0) rows
  = map (fun f => Subsets_index (f_subset f)) files.
Proof.
  induction 1 as [|row f rows files (rest & ->) Hall IH]; simpl.
  - reflexivity.
  - now rewrite IH.
Qed.

Lemma Subsets_index_eqb (a b : Subset) :
  Z.eqb (Subsets_index a) (Subsets_index b) = Subset_eqb a b.
Proof. destruct a, b; reflexivity. Qed.

Lemma np_where_from_map {A : Type} (p : A -> bool) (l : list A) :
  forall i,
    np_where_from i (map p l)
    = filter (fun j => match nth_error l (j - i) with
                       | Some x => p x
                       | None => false
                       end)
             (seq i (List.length l)).
Proof.
  induction l as [|x l IH]; intros i; simpl.
  - reflexivity.
  - rewrite Nat.sub_diag. simpl. rewrite IH.
    assert (Hext :
      filter (fun j => match nth_error l (j - S i) with
                       | Some x0 => p x0 | None => false end)
             (seq (S i) (List.length l))
      = filter (fun j => match nth_error (x :: l) (j - i) with
                         | Some x0 => p x0 | None => false end)
               (seq (S i) (List.length l))).
    { apply filter_ext_in. intros j Hj. apply in_seq in Hj.
      replace (j - i)%nat with (S (j - S i)) by lia. reflexivity. }
    rewrite Hext. destruct (p x); reflexivity.
Qed.

Lemma np_where_map {A : Type} (p : A -> bool) (l : list A) :
  np_where (map p l)
  = filter (fun j => match nth_error l j with
                     | Some x => p x
                     | None => false
                     end)
           (seq O (List.length l)).
Proof.
  unfold np_where. rewrite np_where_from_map.
  apply filter_ext. intros j. now rewrite Nat.sub_0_r.
Qed.

Lemma extend_each_ok {A B : Type} (body : A -> result (list B))
  (g : A -> list B) (l : list A) :
  (forall x, In x l -> body x = Ok (g x)) ->
  extend_each body l = Ok (flat_map g l).
Proof.
  induction l as [|x l IH]; intros H; simpl.
  - reflexivity.
  - rewrite (H x (or_introl eq_refl)). simpl.
    rewrite IH by (intros z Hz; apply H; right; exact Hz).
    reflexivity.
Qed.

Lemma round_half_even_Z (z : Z) : round_half_even (inject_Z z) = z.
Proof.
  unfold round_half_even. rewrite Qfloor_Z.
  assert (H : Qlt_bool (inject_Z z - inject_Z z) (1 # 2) = true).
  { apply Qlt_bool_iff.
    assert (E : (inject_Z z - inject_Z z == 0)%Q) by ring.
    rewrite E. reflexivity. }
  now rewrite H.
Qed.

Lemma py_round_floor_divide (a b : Q) :
  ~ (b == 0)%Q ->
  py_round (np_floor_divide a b) = Ok (Qfloor (a / b)).
Proof.
  intros Hb. unfold np_floor_divide.
  destruct (Qeq_bool b 0) eqn:E.
  - apply Qeq_bool_iff in E. contradiction.
  - simpl. now rewrite round_half_even_Z.
Qed.

Lemma region_chunks_tiles (duration : Q) (region : AnnotatedRegion) :
  ~ (duration == 0)%Q ->
  region_chunks duration (r_file_id region) region = Ok (tiles duration region).
Proof.
  intros Hd. unfold region_chunks.
  rewrite (py_round_floor_divide _ _ Hd). reflexivity.
Qed.

Lemma tile_fits (duration : Q) (region : AnnotatedRegion) (k : nat) :
  (0 < duration)%Q ->
  (k < Z.to_nat (Qfloor (r_duration region / duration)))%nat ->
  (r_start region + inject_Z (Z.of_nat k) * duration + duration
   <= r_start region + r_duration region)%Q.
Proof.
  intros Hd Hk.
  assert (Hk1 : (inject_Z (Z.of_nat k + 1) <= r_duration region / duration)%Q).
  { apply Qle_trans with (inject_Z (Qfloor (r_duration region / duration))).
    - rewrite <- Zle_Qle. lia.
    - apply Qfloor_le. }
  assert (Hne : ~ (duration == 0)%Q).
  { intros E. rewrite E in Hd. discriminate Hd. }
  assert (Hmul : (inject_Z (Z.of_nat k + 1) * duration
                  <= r_duration region / duration * duration)%Q).
  { apply Qmult_le_compat_r; [exact Hk1|apply Qlt_le_weak; exact Hd]. }
  assert (E1 : (r_duration region / duration * duration == r_duration region)%Q)
    by (field; exact Hne).
  assert (E2 : (inject_Z (Z.of_nat k + 1) * duration
                == inject_Z (Z.of_nat k) * duration + duration)%Q).
  { rewrite inject_Z_plus. ring. }
  rewrite E1, E2 in Hmul.
  rewrite <- Qplus_assoc. apply Qplus_le_r. exact Hmul.
Qed.



(** ** Sorted distinct values *)

Lemma insert_unique_In (x y : Z) (l : list Z) :
  In y (insert_unique x l) <-> y = x \/ In y l.
Proof.
  induction l as [|z l IH]; simpl.
  - intuition.
  - destruct (x <? z) eqn:E1; [simpl; intuition|].
    destruct (x =? z) eqn:E2.
    + apply Z.eqb_eq in E2. subst z. simpl. intuition.
    + simpl. rewrite IH. intuition.
Qed.

Lemma insert_unique_sorted (x : Z) (l : list Z) :
  StronglySorted Z.lt l -> StronglySorted Z.lt (insert_unique x l).
Proof.
  induction 1 as [|z l Hsorted IH Hall]; simpl.
  - constructor; constructor.
  - destruct (x <? z) eqn:E1.
    + apply Z.ltb_lt in E1. constructor.
      * constructor; assumption.
      * constructor; [exact E1|].
        eapply Forall_impl; [|exact Hall]. intros w Hw. simpl in Hw. lia.
    + destruct (x =? z) eqn:E2.
      * constructor; assumption.
      * apply Z.ltb_ge in E1. apply Z.eqb_neq in E2.
        constructor; [exact IH|].
        apply Forall_forall. intros w Hw. apply insert_unique_In in Hw.
        destruct Hw as [->|Hw]; [lia|].
        rewrite Forall_forall in Hall. exact (Hall w Hw).
Qed.

Lemma np_unique_In (x : Z) (l : list Z) : In x (np_unique l) <-> In x l.
Proof.
  induction l as [|z l IH]; simpl; [tauto|].
  rewrite insert_unique_In, IH. intuition.
Qed.

Lemma np_unique_sorted (l : list Z) : StronglySorted Z.lt (np_unique l).
Proof.
  induction l as [|z l IH]; simpl; [constructor|].
  apply insert_unique_sorted. exact IH.
Qed.

Lemma sorted_NoDup (l : list Z) : StronglySorted Z.lt l -> NoDup l.
Proof.
  induction 1 as [|z l Hsorted IH Hall]; constructor; [|exact IH].
  intros Hin. rewrite Forall_forall in Hall. specialize (Hall z Hin). lia.
Qed.

Lemma sorted_nth_lt (l : list Z) :
  StronglySorted Z.lt l ->
  forall j k, (j < k)%nat -> (k < List.length l)%nat -> nth j l 0 < nth k l 0.
Proof.
  induction 1 as [|z l Hsorted IH Hall]; intros j k Hjk Hk; simpl in Hk.
  - lia.
  - destruct k as [|k]; [lia|]. rewrite Forall_forall in Hall.
    destruct j as [|j]; simpl.
    + apply Hall. apply nth_In. lia.
    + apply IH; lia.
Qed.

(** ** The shape of the target matrix *)

Lemma list_set_length {A : Type} (i : nat) (v : A) (l : list A) :
  List.length (list_set i v l) = List.length l.
Proof.
  revert i. induction l as [|x l IH]; intros [|i]; simpl; auto.
Qed.

Lemma assign_rows_length (f lo hi col : nat) (v : Z) (m : list (list Z)) :
  List.length (assign_rows f lo hi col v m) = List.length m.
Proof.
  revert f. induction m as [|row m IH]; intros f; simpl; auto.
Qed.

Lemma assign_rows_width (w : nat) (lo hi col : nat) (v : Z) (m : list (list Z)) :
  forall f,
    Forall (fun row => List.length row = w) m ->
    Forall (fun row => List.length row = w) (assign_rows f lo hi col v m).
Proof.
  induction m as [|row m IH]; intros f H; simpl; [constructor|].
  inversion H as [|? ? Hrow Hm]; subst. constructor.
  - destruct (_ && _); [now rewrite list_set_length|reflexivity].
  - apply IH. exact Hm.
Qed.

Lemma np_zeros_shape (n w : nat) : shape n w (np_zeros n w).
Proof.
  unfold shape, np_zeros. split; [apply repeat_length|].
  apply Forall_forall. intros row Hrow. apply repeat_spec in Hrow. subst.
  apply repeat_length.
Qed.

Lemma assign_slice_shape (n w : nat) (start stop : Z) (col : nat)
  (m : list (list Z)) :
  shape n w m -> shape n w (assign_slice start stop col m).
Proof.
  intros [Hn Hw]. unfold assign_slice. split.
  - now rewrite assign_rows_length.
  - apply assign_rows_width. exact Hw.
Qed.

Lemma mark_annotations_shape (nonfinite_int : Z) (n w : nat) (scope : Scope)
  (chunk_start chunk_end resolution : Q) (chunk_labels : list Z)
  (chunk_rows : list Annotation) :
  forall m,
    shape n w m ->
    shape n w (mark_annotations nonfinite_int scope chunk_start chunk_end
                 resolution chunk_labels chunk_rows m).
Proof.
  unfold mark_annotations.
  induction chunk_rows as [|a chunk_rows IH]; intros m Hm; simpl.
  - exact Hm.
  - apply IH. apply assign_slice_shape. exact Hm.
Qed.

(** ** [prepare_chunk] *)

Lemma chunk_annotations_In (rows : list Annotation) (file_id : nat)
  (chunk_start chunk_end : Q) (a : Annotation) :
  In a (chunk_annotations rows file_id chunk_start chunk_end) <->
  In a rows /\ a_file_id a = file_id /\
  (a_start a < chunk_end)%Q /\ (chunk_start < a_end a)%Q.
Proof.
  unfold chunk_annotations.
  rewrite !filter_In, andb_true_iff, !Qlt_bool_iff, Nat.eqb_eq. tauto.
Qed.

Lemma prepare_chunk_inv (nonfinite_int : Z) (ix : Index) (num_frames file_id : nat)
  (start_time duration : Q) (smp : Sample) :
  prepare_chunk nonfinite_int ix num_frames file_id start_time duration = Ok smp ->
  num_frames <> O /\
  exists scope,
    file_scope ix file_id = Ok scope /\
    let chunk_rows :=
      chunk_annotations (annotations ix) file_id start_time
        (start_time + duration)%Q in
    let chunk_labels := np_unique (map (label_idx scope) chunk_rows) in
    labels (y smp) = chunk_labels /\
    data (y smp)
    = mark_annotations nonfinite_int scope start_time (start_time + duration)%Q
        (duration / inject_Z (Z.of_nat num_frames))%Q chunk_labels chunk_rows
        (np_zeros num_frames (List.length chunk_labels)).
Proof.
  unfold prepare_chunk. intros H.
  apply bind_ok in H. destruct H as (row & Hrow & H).
  apply bind_ok in H. destruct H as (scope & Hscope & H).
  destruct (Nat.eqb num_frames O) eqn:E; [discriminate|].
  apply Nat.eqb_neq in E. split; [exact E|].
  exists scope. split; [exact Hscope|].
  injection H as <-. simpl. split; reflexivity.
Qed.



(** ** The entries of the target matrix *)

Lemma list_set_nth (i j : nat) (v : Z) (l : list Z) :
  nth j (list_set i v l) 0
  = if Nat.eqb j i && Nat.ltb i (List.length l) then v else nth j l 0.
Proof.
  revert i j. induction l as [|x l IH]; intros i j.
  - destruct i, j; simpl; try reflexivity; now rewrite andb_false_r.
  - destruct i as [|i], j as [|j]; simpl; try reflexivity.
    rewrite IH. reflexivity.
Qed.

Lemma assign_rows_entry (lo hi col : nat) (v : Z) (m : list (list Z)) :
  forall f0 f j,
    entry (assign_rows f0 lo hi col v m) f j
    = if Nat.leb lo (f0 + f) && Nat.ltb (f0 + f) hi && Nat.eqb j col
         && Nat.ltb col (List.length (nth f m []))
      then v else entry m f j.
Proof.
  unfold entry. induction m as [|row m IH]; intros f0 f j.
  - destruct f; simpl; now rewrite andb_false_r.
  - destruct f as [|f]; simpl.
    + rewrite Nat.add_0_r.
      destruct (Nat.leb lo f0 && Nat.ltb f0 hi); simpl; [|reflexivity].
      apply list_set_nth.
    + rewrite IH. replace (S f0 + f)%nat with (f0 + S f)%nat by lia. reflexivity.
Qed.

Lemma shape_row (n w : nat) (m : list (list Z)) (f : nat) :
  shape n w m -> (f < n)%nat -> List.length (nth f m []) = w.
Proof.
  intros [Hn Hw] Hf. rewrite Forall_forall in Hw. apply Hw. apply nth_In. lia.
Qed.

Lemma assign_slice_entry (n w : nat) (start stop : Z) (col : nat)
  (m : list (list Z)) (f j : nat) :
  shape n w m -> (f < n)%nat -> (col < w)%nat ->
  entry (assign_slice start stop col m) f j
  = if Nat.leb (slice_bound n start) f && Nat.ltb f (slice_bound n stop)
       && Nat.eqb j col
    then 1 else entry m f j.
Proof.
  intros Hm Hf Hcol. unfold assign_slice. rewrite assign_rows_entry.
  rewrite (shape_row _ _ _ _ Hm Hf). destruct Hm as [-> _]. simpl.
  assert (E : Nat.ltb col w = true) by (apply Nat.ltb_lt; exact Hcol).
  rewrite E, andb_true_r. reflexivity.
Qed.

Lemma np_zeros_entry (n w f j : nat) : entry (np_zeros n w) f j = 0.
Proof.
  unfold entry, np_zeros.
  destruct (Nat.lt_ge_cases f n) as [Hf|Hf].
  - rewrite nth_indep with (d' := repeat 0 w) by (now rewrite repeat_length).
    rewrite nth_repeat.
    destruct (Nat.lt_ge_cases j w) as [Hj|Hj].
    + apply nth_repeat.
    + apply nth_overflow. now rewrite repeat_length.
  - rewrite (nth_overflow (repeat (repeat 0 w) n) [])
      by (now rewrite repeat_length).
    now destruct j.
Qed.

Section Marks.

Variable nonfinite_int : Z.
Variables (n w : nat) (scope : Scope) (chunk_start chunk_end resolution : Q).
Variable chunk_labels : list Z.

(** Frame [f] and column [j] are among those the loop sets for [a]. *)
Definition marked (a : Annotation) (f j : nat) : Prop :=
  (slice_bound n (start_idx nonfinite_int chunk_start resolution a) <= f)%nat /\
  (f < slice_bound n (end_idx nonfinite_int chunk_start chunk_end resolution a))%nat /\
  j = py_index Z.eqb (label_idx scope a) chunk_labels.

Lemma mark_annotations_entry (chunk_rows : list Annotation) :
  forall m,
    shape n w m ->
    (forall a, In a chunk_rows ->
               (py_index Z.eqb (label_idx scope a) chunk_labels < w)%nat) ->
    forall f j,
      (f < n)%nat -> (j < w)%nat ->
      (entry m f j = 0 \/ entry m f j = 1) ->
      let m' := mark_annotations nonfinite_int scope chunk_start chunk_end
                  resolution chunk_labels chunk_rows m in
      (entry m' f j = 0 \/ entry m' f j = 1) /\
      (entry m' f j = 1 <->
       entry m f j = 1 \/ exists a, In a chunk_rows /\ marked a f j).
Proof.
  unfold mark_annotations.
  induction chunk_rows as [|a chunk_rows IH]; intros m Hm Hcols f j Hf Hj Hbin;
    cbn [fold_left].
  - split; [exact Hbin|]. split; [auto|].
    intros [H|(a & [] & _)]. exact H.
  - assert (Hcol : (py_index Z.eqb (label_idx scope a) chunk_labels < w)%nat)
      by (apply Hcols; left; reflexivity).
    pose proof (assign_slice_entry n w
                  (start_idx nonfinite_int chunk_start resolution a)
                  (end_idx nonfinite_int chunk_start chunk_end resolution a)
                  _ m f j Hm Hf Hcol) as Hentry.
    set (m1 := assign_slice _ _ _ m) in *.
    assert (Hm1 : shape n w m1) by (apply assign_slice_shape; exact Hm).
    assert (Hstep : (entry m1 f j = 0 \/ entry m1 f j = 1) /\
                    (entry m1 f j = 1 <-> entry m f j = 1 \/ marked a f j)).
    { rewrite Hentry. unfold marked.
      destruct (Nat.leb _ f) eqn:E1; simpl.
      - destruct (Nat.ltb f _) eqn:E2; simpl.
        + destruct (Nat.eqb j _) eqn:E3.
          * apply Nat.leb_le in E1. apply Nat.ltb_lt in E2.
            apply Nat.eqb_eq in E3. split; [right; reflexivity|]. tauto.
          * apply Nat.eqb_neq in E3. split; [exact Hbin|]. tauto.
        + apply Nat.ltb_ge in E2. split; [exact Hbin|].
          split; [auto|]. intros [H|(_ & H & _)]; [exact H|lia].
      - apply Nat.leb_gt in E1. split; [exact Hbin|].
        split; [auto|]. intros [H|(H & _)]; [exact H|lia]. }
    destruct Hstep as [Hbin1 Hiff1].
    destruct (IH m1 Hm1 (fun b Hb => Hcols b (or_intror Hb)) f j Hf Hj Hbin1)
      as [Hbin' Hiff'].
    split; [exact Hbin'|].
    rewrite Hiff', Hiff1. split.
    + intros [[H|H]|(b & Hb & H)]; [left; exact H| |].
      * right. exists a. split; [left; reflexivity|exact H].
      * right. exists b. split; [right; exact Hb|exact H].
    + intros [H|(b & [<-|Hb] & H)]; [left; left; exact H| |].
      * left; right; exact H.
      * right. exists b. split; assumption.
Qed.

End Marks.

(** ** Frame indices *)

Lemma Qpos_nonzero (q : Q) : (0 < q)%Q -> ~ (q == 0)%Q.
Proof. intros H E. rewrite E in H. discriminate H. Qed.

Lemma np_div_finite (a b : Q) : ~ (b == 0)%Q -> np_div a b = Finite (a / b).
Proof.
  intros Hb. unfold np_div. destruct (Qeq_bool b 0) eqn:E; [|reflexivity].
  apply Qeq_bool_iff in E. contradiction.
Qed.

Lemma np_maximum_ge (a b : Q) : (b <= np_maximum a b)%Q.
Proof.
  unfold np_maximum. destruct (Qlt_bool a b) eqn:E.
  - apply Qle_refl.
  - apply Qlt_bool_false_iff in E. exact E.
Qed.

Lemma np_maximum_le (a b : Q) : (a <= b)%Q -> (np_maximum a b == b)%Q.
Proof.
  intros H. unfold np_maximum. destruct (Qlt_bool a b) eqn:E.
  - reflexivity.
  - apply Qlt_bool_false_iff in E. apply Qle_antisym; assumption.
Qed.

Lemma np_minimum_gt (a b c : Q) : (c < a)%Q -> (c < b)%Q -> (c < np_minimum a b)%Q.
Proof.
  intros Ha Hb. unfold np_minimum. destruct (Qlt_bool b a); assumption.
Qed.

Lemma np_minimum_ge (a b : Q) : (b <= a)%Q -> (np_minimum a b == b)%Q.
Proof.
  intros H. unfold np_minimum. destruct (Qlt_bool b a) eqn:E.
  - reflexivity.
  - apply Qlt_bool_false_iff in E. apply Qle_antisym; assumption.
Qed.

Lemma Qdiv_nonneg (x r : Q) : (0 <= x)%Q -> (0 < r)%Q -> (0 <= x / r)%Q.
Proof.
  intros Hx Hr. apply Qle_shift_div_l; [exact Hr|].
  rewrite Qmult_0_l. exact Hx.
Qed.

Lemma start_idx_floor (nonfinite_int : Z) (chunk_start resolution : Q)
  (a : Annotation) :
  (0 < resolution)%Q ->
  start_idx nonfinite_int chunk_start resolution a
  = Qfloor ((np_maximum (a_start a) chunk_start - chunk_start) / resolution) /\
  0 <= start_idx nonfinite_int chunk_start resolution a.
Proof.
  intros Hr. unfold start_idx.
  rewrite np_div_finite by (apply Qpos_nonzero; exact Hr). cbn [floor_int].
  split; [reflexivity|].
  change 0 with (Qfloor 0). apply Qfloor_resp_le.
  apply Qdiv_nonneg; [|exact Hr].
  pose proof (np_maximum_ge (a_start a) chunk_start) as H.
  apply (Qplus_le_l _ _ chunk_start). ring_simplify. exact H.
Qed.

Lemma end_idx_ceiling (nonfinite_int : Z) (chunk_start chunk_end resolution : Q)
  (a : Annotation) :
  (0 < resolution)%Q -> (chunk_start < chunk_end)%Q -> (chunk_start < a_end a)%Q ->
  end_idx nonfinite_int chunk_start chunk_end resolution a
  = Qceiling ((np_minimum (a_end a) chunk_end - chunk_start) / resolution) /\
  0 <= end_idx nonfinite_int chunk_start chunk_end resolution a.
Proof.
  intros Hr Hce Ha. unfold end_idx.
  rewrite np_div_finite by (apply Qpos_nonzero; exact Hr). cbn [ceil_int].
  split; [reflexivity|].
  change 0 with (Qceiling 0). apply Qceiling_resp_le.
  apply Qdiv_nonneg; [|exact Hr].
  pose proof (np_minimum_gt _ _ _ Ha Hce) as H. apply Qlt_le_weak in H.
  apply (Qplus_le_l _ _ chunk_start). ring_simplify. exact H.
Qed.

Lemma slice_bound_nonneg (n f : nat) (i : Z) :
  0 <= i -> (f < n)%nat ->
  ((slice_bound n i <= f)%nat <-> i <= Z.of_nat f) /\
  ((f < slice_bound n i)%nat <-> Z.of_nat f < i).
Proof.
  intros Hi Hf. unfold slice_bound.
  destruct (i <? 0) eqn:E; [apply Z.ltb_lt in E; lia|].
  split; lia.
Qed.

Lemma py_index_In (x : Z) (l : list Z) :
  In x l ->
  (py_index Z.eqb x l < List.length l)%nat /\ nth (py_index Z.eqb x l) l 0 = x.
Proof.
  induction l as [|z l IH]; intros Hin; [destruct Hin|]. simpl.
  destruct (x =? z) eqn:E.
  - apply Z.eqb_eq in E. subst. split; [lia|reflexivity].
  - apply Z.eqb_neq in E. destruct Hin as [->|Hin]; [contradiction|].
    destruct (IH Hin) as [Hlt Hnth]. split; [lia|exact Hnth].
Qed.

Lemma py_index_nth (l : list Z) :
  NoDup l ->
  forall j, (j < List.length l)%nat -> py_index Z.eqb (nth j l 0) l = j.
Proof.
  induction 1 as [|z l Hnotin Hnodup IH]; intros j Hj; simpl in Hj; [lia|].
  destruct j as [|j]; simpl.
  - now rewrite Z.eqb_refl.
  - destruct (nth j l 0 =? z) eqn:E.
    + apply Z.eqb_eq in E. exfalso. apply Hnotin. rewrite <- E.
      apply nth_In. lia.
    + rewrite IH by lia. reflexivity.
Qed.

Lemma np_unique_constant (L : Z) (l : list Z) :
  l <> [] -> (forall x, In x l -> x = L) -> np_unique l = [L].
Proof.
  induction l as [|z l IH]; intros Hne Hall; [contradiction|]. simpl.
  rewrite (Hall z (or_introl eq_refl)).
  destruct l as [|z' l].
  - reflexivity.
  - rewrite IH; [|discriminate|intros x Hx; apply Hall; right; exact Hx].
    simpl. now rewrite Z.ltb_irrefl, Z.eqb_refl.
Qed.

Lemma shape_ones (n : nat) (m : list (list Z)) :
  shape n 1 m ->
  (forall f, (f < n)%nat -> entry m f 0 = 1) ->
  m = repeat [1] n.
Proof.
  intros Hm Hentries. pose proof Hm as [Hn Hw].
  apply nth_ext with (d := []) (d' := []).
  - now rewrite repeat_length.
  - intros f Hf. rewrite Hn in Hf.
    rewrite (nth_indep (repeat [1] n) [] [1]) by (now rewrite repeat_length).
    rewrite nth_repeat.
    pose proof (shape_row _ _ _ f Hm Hf) as Hlen.
    specialize (Hentries f Hf). unfold entry in Hentries.
    destruct (nth f m []) as [|v [|v' row]]; try discriminate.
    simpl in Hentries. now subst.
Qed.

Lemma resolution_pos (duration : Q) (num_frames : nat) :
  (0 < duration)%Q -> num_frames <> O ->
  (0 < inject_Z (Z.of_nat num_frames))%Q /\
  (0 < duration / inject_Z (Z.of_nat num_frames))%Q.
Proof.
  intros Hd Hn.
  assert (Hpos : (0 < inject_Z (Z.of_nat num_frames))%Q).
  { change 0%Q with (inject_Z 0). rewrite <- Zlt_Qlt. lia. }
  split; [exact Hpos|].
  apply Qlt_shift_div_l; [exact Hpos|]. rewrite Qmult_0_l. exact Hd.
Qed.

Lemma prepare_chunk_entry
  (nonfinite_int : Z) (ix : Index) (num_frames file_id : nat)
  (start_time duration : Q) (smp : Sample) (scope : Scope) :
  (0 < duration)%Q ->
  prepare_chunk nonfinite_int ix num_frames file_id start_time duration = Ok smp ->
  file_scope ix file_id = Ok scope ->
  forall f j,
    (f < num_frames)%nat -> (j < List.length (labels (y smp)))%nat ->
    (entry (data (y smp)) f j = 0 \/ entry (data (y smp)) f j = 1) /\
    (entry (data (y smp)) f j = 1 <->
     exists a,
       overlaps ix file_id start_time (start_time + duration)%Q a /\
       label_idx scope a = nth j (labels (y smp)) 0 /\
       Qfloor ((np_maximum (a_start a) start_time - start_time)
               / (duration / inject_Z (Z.of_nat num_frames)))
       <= Z.of_nat f /\
       Z.of_nat f
       < Qceiling ((np_minimum (a_end a) (start_time + duration) - start_time)
                   / (duration / inject_Z (Z.of_nat num_frames)))).
Proof.
  intros Hd H Hscope f j Hf Hj.
  apply prepare_chunk_inv in H.
  destruct H as (Hnf & scope' & Hscope' & Hlabels & Hdata).
  rewrite Hscope in Hscope'. injection Hscope' as <-.
  destruct (resolution_pos duration num_frames Hd Hnf) as [_ Hres].
  assert (Hce : (start_time < start_time + duration)%Q).
  { rewrite <- (Qplus_0_r start_time) at 1. apply Qplus_lt_r. exact Hd. }
  set (rows := chunk_annotations (annotations ix) file_id start_time
                 (start_time + duration)%Q) in *.
  set (L := np_unique (map (label_idx scope) rows)) in *.
  rewrite Hlabels in Hj |- *. rewrite Hdata.
  assert (HL : forall a, In a rows -> In (label_idx scope a) L).
  { intros a Ha. apply np_unique_In. apply in_map. exact Ha. }
  assert (Hnodup : NoDup L) by (apply sorted_NoDup, np_unique_sorted).
  destruct (mark_annotations_entry nonfinite_int num_frames (List.length L) scope
              start_time (start_time + duration)%Q
              (duration / inject_Z (Z.of_nat num_frames))%Q L rows
              (np_zeros num_frames (List.length L))
              (np_zeros_shape _ _)
              (fun a Ha => proj1 (py_index_In _ _ (HL a Ha)))
              f j Hf Hj (or_introl (np_zeros_entry _ _ _ _)))
    as [Hbin Hiff].
  split; [exact Hbin|].
  rewrite Hiff, np_zeros_entry. unfold marked, overlaps. split.
  - intros [Habs|(a & Ha & Hlo & Hhi & Hcol)]; [discriminate|].
    pose proof Ha as Hrows. apply chunk_annotations_In in Ha.
    destruct Ha as (Hin & Hid & Hs & He).
    destruct (start_idx_floor nonfinite_int start_time _ a Hres) as [Es Hs0].
    destruct (end_idx_ceiling nonfinite_int start_time _ _ a Hres Hce He)
      as [Ee He0].
    apply (slice_bound_nonneg _ _ _ Hs0 Hf) in Hlo.
    apply (slice_bound_nonneg _ _ _ He0 Hf) in Hhi.
    rewrite Es in Hlo. rewrite Ee in Hhi.
    exists a. repeat split; try assumption.
    subst j. symmetry. exact (proj2 (py_index_In _ _ (HL a Hrows))).
  - intros (a & (Hin & Hid & Hs & He) & Hlabel & Hlo & Hhi).
    right. exists a.
    assert (Hrows : In a rows) by (apply chunk_annotations_In; auto).
    destruct (start_idx_floor nonfinite_int start_time _ a Hres) as [Es Hs0].
    destruct (end_idx_ceiling nonfinite_int start_time _ _ a Hres Hce He)
      as [Ee He0].
    split; [exact Hrows|]. split; [|split].
    + apply (slice_bound_nonneg _ _ _ Hs0 Hf). rewrite Es. exact Hlo.
    + apply (slice_bound_nonneg _ _ _ He0 Hf). rewrite Ee. exact Hhi.
    + rewrite Hlabel. symmetry. apply py_index_nth; assumption.
Qed.



(** ** [collate_y] *)

Lemma column_ok (n w : nat) (m : list (list Z)) (j : nat) :
  shape n w m -> (j < w)%nat ->
  column m j = Ok (map (fun row => nth j row 0) m).
Proof.
  intros [_ Hw] Hj. induction Hw as [|row m Hrow Hm IH]; simpl.
  - reflexivity.
  - destruct (nth_error row j) as [v|] eqn:E.
    + rewrite IH. simpl. rewrite (nth_error_nth _ _ 0 E). reflexivity.
    + apply nth_error_None in E. lia.
Qed.

Lemma set_column_shape (n w g : nat) (m : list (list Z)) (col : list Z) :
  shape n w m -> shape n w (set_column g m col).
Proof.
  intros [Hn Hw]. subst n. revert col.
  induction Hw as [|row m Hrow Hm IH]; intros col; simpl.
  - split; [reflexivity|constructor].
  - destruct col as [|v col]; [split; [reflexivity|constructor; assumption]|].
    destruct (IH col) as [Hlen Hall]. split; simpl.
    + now rewrite Hlen.
    + constructor; [now rewrite list_set_length|exact Hall].
Qed.

Lemma set_column_entry (w g : nat) (m : list (list Z)) :
  Forall (fun row => List.length row = w) m -> (g < w)%nat ->
  forall col f g',
    List.length col = List.length m -> (f < List.length m)%nat ->
    entry (set_column g m col) f g'
    = if Nat.eqb g' g then nth f col 0 else entry m f g'.
Proof.
  intros Hw Hg. unfold entry.
  induction Hw as [|row m Hrow Hm IH]; intros col f g' Hlen Hf; simpl in Hf.
  - lia.
  - destruct col as [|v col]; [discriminate|]. simpl in Hlen.
    destruct f as [|f]; simpl.
    + rewrite list_set_nth, Hrow.
      assert (E : Nat.ltb g w = true) by (apply Nat.ltb_lt; exact Hg).
      rewrite E, andb_true_r. reflexivity.
    + apply IH; lia.
Qed.

Section CollateLabels.

Variables (n w : nat) (unified : list Z) (b : SlidingWindowFeature).
Hypothesis unified_sorted : StronglySorted Z.lt unified.
Hypothesis unified_width : List.length unified = w.
Hypothesis data_shape : shape n (List.length (labels b)) (data b).

Lemma collate_labels_spec (local : list Z) :
  forall local_idx m,
    (local_idx + List.length local = List.length (labels b))%nat ->
    NoDup local ->
    (forall l, In l local -> In l unified) ->
    shape n w m ->
    exists m',
      collate_labels unified b local_idx local m = Ok m' /\
      shape n w m' /\
      forall f g,
        (f < n)%nat -> (g < w)%nat ->
        (forall k,
            (k < List.length local)%nat ->
            nth k local 0 = nth g unified 0 ->
            entry m' f g = entry (data b) f (local_idx + k)) /\
        (~ In (nth g unified 0) local -> entry m' f g = entry m f g).
Proof.
  induction local as [|label local IH];
    intros local_idx m Hlen Hnodup Hin Hm; cbn [collate_labels].
  - exists m. split; [reflexivity|]. split; [exact Hm|].
    intros f g Hf Hg. split; [intros k Hk; simpl in Hk; lia|reflexivity].
  - simpl in Hlen. apply NoDup_cons_iff in Hnodup.
    destruct Hnodup as [Hnotin Hnodup'].
    destruct (py_index_In label unified (Hin label (or_introl eq_refl)))
      as [Hglobal Hnth].
    rewrite unified_width in Hglobal.
    rewrite (column_ok n _ (data b) local_idx data_shape) by lia.
    cbn [bind]. unfold assign_column.
    pose proof Hm as [Hmn Hmw]. pose proof data_shape as [Hdn _].
    rewrite length_map, Hdn, Hmn, Nat.eqb_refl. cbn [bind].
    set (col := map (fun row => nth local_idx row 0) (data b)).
    set (global_idx := py_index Z.eqb label unified) in *.
    destruct (IH (S local_idx) (set_column global_idx m col)) as (m' & Hrun & Hm' & Hspec).
    + lia.
    + exact Hnodup'.
    + intros l Hl. apply Hin. right. exact Hl.
    + apply set_column_shape. exact Hm.
    + exists m'. split; [exact Hrun|]. split; [exact Hm'|].
      intros f g Hf Hg. destruct (Hspec f g Hf Hg) as [Hhit Hmiss].
      assert (Hstep : entry (set_column global_idx m col) f g
                      = if Nat.eqb g global_idx then nth f col 0
                        else entry m f g).
      { apply (set_column_entry w); try assumption.
        - unfold col. now rewrite length_map, Hdn, Hmn.
        - now rewrite Hmn. }
      assert (Hcol : nth f col 0 = entry (data b) f local_idx).
      { unfold col, entry.
        rewrite nth_indep with (d' := nth local_idx [] 0)
          by (now rewrite length_map, Hdn).
        now rewrite (map_nth (fun row => nth local_idx row 0)). }
      split.
      * intros [|k] Hk Heq; simpl in Hk, Heq.
        -- assert (Eg : g = global_idx).
           { unfold global_idx. rewrite Heq. symmetry.
             apply py_index_nth; [apply sorted_NoDup; assumption|lia]. }
           rewrite Hmiss by (rewrite <- Heq; exact Hnotin).
           rewrite Hstep, Eg, Nat.eqb_refl, Hcol, Nat.add_0_r. reflexivity.
        -- rewrite (Hhit k) by (lia || exact Heq).
           replace (S local_idx + k)%nat with (local_idx + S k)%nat by lia.
           reflexivity.
      * intros Hnot. rewrite Hmiss by (intros H; apply Hnot; right; exact H).
        rewrite Hstep.
        destruct (Nat.eqb g global_idx) eqn:E; [|reflexivity].
        apply Nat.eqb_eq in E. exfalso. apply Hnot. left.
        rewrite E. symmetry. exact Hnth.
Qed.

End CollateLabels.

Lemma unified_labels_In (batch : list Sample) (l : Z) :
  In l (unified_labels batch) <->
  exists b, In b batch /\ In l (labels (y b)).
Proof.
  unfold unified_labels. rewrite np_unique_In, in_concat. split.
  - intros (ls & Hls & Hl). apply in_map_iff in Hls.
    destruct Hls as (b & <- & Hb). exists b. auto.
  - intros (b & Hb & Hl). exists (labels (y b)). split; [|exact Hl].
    apply in_map_iff. exists b. auto.
Qed.

Lemma collate_samples_spec (n : nat) (unified : list Z) (batch : list Sample) :
  StronglySorted Z.lt unified ->
  (forall b, In b batch ->
             well_formed n b /\ forall l, In l (labels (y b)) -> In l unified) ->
  exists Y,
    collate_samples unified n batch = Ok Y /\
    Forall2 (collated n unified) Y batch.
Proof.
  intros Hsorted. induction batch as [|b batch IH]; intros Hall; simpl.
  - exists []. split; [reflexivity|constructor].
  - destruct (Hall b (or_introl eq_refl)) as [[Hnodup Hshape] Hsub].
    destruct (collate_labels_spec n (List.length unified) unified (y b)
                Hsorted eq_refl Hshape (labels (y b)) O
                (np_zeros n (List.length unified)) eq_refl Hnodup Hsub
                (np_zeros_shape _ _))
      as (m & Hrun & Hm & Hspec).
    destruct IH as (Y & HY & Hall2).
    { intros b' Hb'. apply Hall. right. exact Hb'. }
    rewrite Hrun, HY. simpl. exists (m :: Y). split; [reflexivity|].
    constructor; [|exact Hall2].
    split; [exact Hm|]. intros f g Hf Hg.
    destruct (Hspec f g Hf Hg) as [Hhit Hmiss]. split.
    + intros j Hj Heq. rewrite (Hhit j Hj Heq). reflexivity.
    + intros Hnot. rewrite (Hmiss Hnot). apply np_zeros_entry.
Qed.

(** C5: for a non-empty batch of samples that all have the number of
    frames of the first one, [collate_y] returns one matrix per sample, of
    that many frames and one column per label of the sorted union of the
    samples' labels; in the matrix of a sample, the column of a unified
    label holds the sample's column of that label, and is zero when the
    sample does not have the label.  So two samples with the single labels
    [A] and [B], [A <> B], give two columns, the first sample being zero in
    the column of [B] and the second in the column of [A]. *)
Theorem collate_y_unifies_labels (b0 : Sample) (others : list Sample) :
  (forall b, In b (b0 :: others) ->
             well_formed (List.length (data (y b0))) b) ->
  exists Y,
    collate_y (b0 :: others) = Ok Y /\
    StronglySorted Z.lt (unified_labels (b0 :: others)) /\
    (forall l,
        In l (unified_labels (b0 :: others)) <->
        exists b, In b (b0 :: others) /\ In l (labels (y b))) /\
    List.length Y = List.length (b0 :: others) /\
    (forall i b,
        nth_error (b0 :: others) i = Some b ->
        exists m,
          nth_error Y i = Some m /\
          collated (List.length (data (y b0))) (unified_labels (b0 :: others)) m b) /\
    (forall b1 A B,
        others = [b1] -> labels (y b0) = [A] -> labels (y b1) = [B] -> A <> B ->
        List.length (unified_labels (b0 :: others)) = 2%nat /\
        exists m0 m1,
          Y = [m0; m1] /\
          forall f,
            (f < List.length (data (y b0)))%nat ->
            entry m0 f (py_index Z.eqb B (unified_labels (b0 :: others))) = 0 /\
            entry m1 f (py_index Z.eqb A (unified_labels (b0 :: others))) = 0).
Proof.
  intros Hwf.
  set (batch := b0 :: others) in *.
  set (n := List.length (data (y b0))) in *.
  pose proof (np_unique_sorted
                (concat (map (fun b => labels (y b)) batch))) as Hsorted.
  fold (unified_labels batch) in Hsorted.
  destruct (collate_samples_spec n (unified_labels batch) batch Hsorted)
    as (Y & HY & Hall).
  { intros b Hb. split; [exact (Hwf b Hb)|].
    intros l Hl. apply unified_labels_In. exists b. auto. }
  exists Y. split; [exact HY|]. split; [exact Hsorted|].
  split; [apply unified_labels_In|].
  split; [exact (Forall2_length Hall)|]. split.
  - intros i b Hb. exact (Forall2_nth_error _ _ _ Hall i b Hb).
  - intros b1 A B Hothers HA HB Hne.
    assert (Hlen : List.length (unified_labels batch) = 2%nat).
    { unfold unified_labels, batch. rewrite Hothers. simpl. rewrite HA, HB. simpl.
      destruct (A <? B) eqn:E1; [reflexivity|].
      destruct (A =? B) eqn:E2; [|reflexivity].
      apply Z.eqb_eq in E2. contradiction. }
    split; [exact Hlen|].
    unfold batch in Hall. rewrite Hothers in Hall.
    inversion Hall as [|m0 ? Y1 ? H0 Hall1]; subst.
    inversion Hall1 as [|m1 ? Y2 ? H1 Hall2]; subst.
    inversion Hall2; subst.
    exists m0, m1. split; [reflexivity|]. intros f Hf.
    fold batch in H0, H1.
    assert (HinA : In A (unified_labels batch)).
    { apply unified_labels_In. exists b0. rewrite HA. simpl. auto. }
    assert (HinB : In B (unified_labels batch)).
    { apply unified_labels_In. exists b1. rewrite HB. simpl. auto. }
    destruct (py_index_In _ _ HinA) as [HltA HnthA].
    destruct (py_index_In _ _ HinB) as [HltB HnthB].
    destruct H0 as [_ H0]. destruct H1 as [_ H1]. split.
    + apply (H0 f _ Hf HltB). rewrite HnthB, HA. simpl. intuition.
    + apply (H1 f _ Hf HltA). rewrite HnthA, HB. simpl. intuition.
Qed.

Lemma collate_y_unifies_labels_witness :
  exists Y,
    collate_y [mkSample (mkFeature [[1]; [0]; [1]] [5]) [];
               mkSample (mkFeature [[1]; [1]; [0]] [2]) []] = Ok Y /\
    Y = [[[0; 1]; [0; 0]; [0; 1]]; [[1; 0]; [1; 0]; [0; 0]]] /\
    List.length Y = 2%nat.
Proof.
  destruct (collate_y_unifies_labels
              (mkSample (mkFeature [[1]; [0]; [1]] [5]) [])
              [mkSample (mkFeature [[1]; [1]; [0]] [2]) []])
    as (Y & HY & _ & _ & Hlen & _).
  - intros b [<-|[<-|[]]]; (split; [repeat constructor; simpl; tauto|]);
      (split; [reflexivity|repeat constructor]).
  - exists Y. split; [exact HY|]. split; [|exact Hlen].
    vm_compute in HY. injection HY as <-. reflexivity.
Defined.

(** ** The arrays the sampler reads *)

Lemma setup_loop_regions_from (duration : Q) (files : list ProtocolFile) :
  forall file_id s s',
    setup_loop duration file_id files s = Ok s' ->
    ls_annotated_regions s'
    = ls_annotated_regions s ++ regions_from duration file_id files.
Proof.
  induction files as [|f files IH]; intros file_id s s' H; simpl in H.
  - injection H as <-. simpl. now rewrite app_nil_r.
  - apply bind_ok in H. destruct H as (s1 & Hfile & Hloop).
    apply setup_file_spec in Hfile.
    destruct Hfile as (muv & row & total & new & _ & _ & _ & _ & _ & Hreg & _).
    rewrite (IH _ _ _ Hloop), Hreg. simpl. now rewrite <- app_assoc.
Qed.

Lemma regions_of_file_from (duration : Q) (files : list ProtocolFile) :
  forall file_id fid,
    regions_of_file (regions_from duration file_id files) fid
    = if Nat.leb file_id fid then
        match nth_error files (fid - file_id) with
        | Some f => map (region_of fid) (filter (retained duration) (f_annotated f))
        | None => []
        end
      else [].
Proof.
  unfold regions_of_file.
  induction files as [|f files IH]; intros file_id fid; simpl.
  - destruct (Nat.leb file_id fid); [|reflexivity].
    now destruct (fid - file_id)%nat.
  - rewrite filter_app, IH.
    destruct (Nat.eq_dec file_id fid) as [->|Hne].
    + assert (E : Nat.leb (S fid) fid = false) by (apply Nat.leb_gt; lia).
      rewrite E, app_nil_r, Nat.leb_refl, Nat.sub_diag. cbn [nth_error].
      apply forallb_filter_id. apply forallb_forall. intros r Hr.
      apply in_map_iff in Hr. destruct Hr as (seg & <- & _). simpl.
      apply Nat.eqb_refl.
    + assert (Hnone :
        filter (fun r => Nat.eqb (r_file_id r) fid)
          (map (region_of file_id) (filter (retained duration) (f_annotated f)))
        = []).
      { induction (filter (retained duration) (f_annotated f)) as [|seg l IHl];
          simpl; [reflexivity|].
        destruct (Nat.eqb file_id fid) eqn:E; [|exact IHl].
        apply Nat.eqb_eq in E. contradiction. }
      rewrite Hnone. cbn [app].
      destruct (Nat.leb file_id fid) eqn:E1.
      * apply Nat.leb_le in E1.
        assert (E2 : Nat.leb (S file_id) fid = true) by (apply Nat.leb_le; lia).
        rewrite E2.
        replace (fid - file_id)%nat with (S (fid - S file_id)) by lia.
        reflexivity.
      * apply Nat.leb_gt in E1.
        assert (E2 : Nat.leb (S file_id) fid = false) by (apply Nat.leb_gt; lia).
        now rewrite E2.
Qed.

Lemma take_np_where_from {A B : Type} (g : A -> B) (p : A -> bool) (l : list A) :
  forall (pre : list B),
    take (pre ++ map g l) (np_where_from (List.length pre) (map p l))
    = Ok (map g (filter p l)).
Proof.
  induction l as [|x l IH]; intros pre; simpl; [reflexivity|].
  assert (Hrest :
    take (pre ++ g x :: map g l) (np_where_from (S (List.length pre)) (map p l))
    = Ok (map g (filter p l))).
  { specialize (IH (pre ++ [g x])).
    rewrite <- app_assoc, length_app, Nat.add_1_r in IH. exact IH. }
  destruct (p x); simpl; [|exact Hrest].
  unfold np_row at 1. rewrite nth_error_app2 by lia.
  rewrite Nat.sub_diag. simpl. rewrite Hrest. reflexivity.
Qed.

Lemma take_np_where {A B : Type} (g : A -> B) (p : A -> bool) (l : list A) :
  take (map g l) (np_where (map p l)) = Ok (map g (filter p l)).
Proof. exact (take_np_where_from g p l []). Qed.

Lemma take_Forall2 {A : Type} (rows : list A) (indices : list nat) (xs : list A) :
  take rows indices = Ok xs ->
  Forall2 (fun i x => nth_error rows i = Some x) indices xs.
Proof.
  revert xs. induction indices as [|i indices IH]; intros xs H; simpl in H.
  - injection H as <-. constructor.
  - apply bind_ok in H. destruct H as (x & Hx & H).
    apply bind_ok in H. destruct H as (xs' & Hxs & H).
    injection H as <-. constructor; [|apply IH; exact Hxs].
    unfold np_row in Hx. destruct (nth_error rows i); [|discriminate].
    now injection Hx as ->.
Qed.

(** ** Probability vectors *)

Lemma normalize_finite (l : list Q) :
  ~ (np_sum l == 0)%Q ->
  normalize l = map Finite (map (fun d => d / np_sum l)%Q l).
Proof.
  intros Hne. unfold normalize. rewrite map_map. apply map_ext.
  intros d. apply np_div_finite. exact Hne.
Qed.

Lemma finite_values_map (p : list Q) : finite_values (map Finite p) = Some p.
Proof.
  induction p as [|q p IH]; simpl; [reflexivity|]. now rewrite IH.
Qed.

Lemma np_sum_div (t : Q) (l : list Q) :
  (np_sum (map (fun d => d / t) l) == np_sum l / t)%Q.
Proof.
  induction l as [|x l IH]; simpl.
  - unfold Qdiv. ring.
  - rewrite IH. unfold Qdiv. ring.
Qed.

Lemma np_sum_normalized (l : list Q) :
  ~ (np_sum l == 0)%Q ->
  (np_sum (map (fun d => d / np_sum l) l) == 1)%Q.
Proof.
  intros Hne. rewrite np_sum_div. field. exact Hne.
Qed.

Lemma np_sum_nonneg (l : list Q) :
  Forall (fun d => 0 <= d)%Q l -> (0 <= np_sum l)%Q.
Proof.
  induction 1 as [|x l Hx Hl IH]; simpl.
  - apply Qle_refl.
  - rewrite <- (Qplus_0_r 0). apply Qplus_le_compat; assumption.
Qed.

Lemma Qdiv_lt_iff (a b t : Q) : (0 < t)%Q -> (a / t < b / t <-> a < b)%Q.
Proof.
  intros Ht. unfold Qdiv. apply Qmult_lt_r. apply Qinv_lt_0_compat. exact Ht.
Qed.

Lemma last_cumsum (p : list Q) :
  forall acc d, p <> [] -> (last (cumsum_from acc p) d == acc + np_sum p)%Q.
Proof.
  induction p as [|x p IH]; intros acc d Hne; [contradiction|].
  destruct p as [|x' p].
  - simpl. ring.
  - change (cumsum_from acc (x :: x' :: p))
      with ((acc + x)%Q :: cumsum_from (acc + x)%Q (x' :: p)).
    change (last ((acc + x)%Q :: cumsum_from (acc + x)%Q (x' :: p)) d)
      with (last (cumsum_from (acc + x)%Q (x' :: p)) d).
    rewrite IH by discriminate.
    change (np_sum (x :: x' :: p)) with (x + np_sum (x' :: p))%Q. ring.
Qed.

(** The position drawn for [u] holds a positive probability, and is inside
    the vector when [u] is below the normalized total. *)
Lemma searchsorted_positive (t u : Q) (p : list Q) :
  (0 < t)%Q ->
  Forall (fun q => 0 <= q)%Q p ->
  forall acc,
    (acc / t <= u)%Q ->
    let k := searchsorted_right (map (fun c => c / t)%Q (cumsum_from acc p)) u in
    ((u < (acc + np_sum p) / t)%Q -> (k < List.length p)%nat) /\
    ((k < List.length p)%nat -> (0 < nth k p 0)%Q).
Proof.
  intros Ht Hp. induction Hp as [|x p Hx Hp IH]; intros acc Hacc; simpl.
  - split; [|lia]. intros Hu. exfalso.
    assert (E : (acc + 0 == acc)%Q) by ring. rewrite E in Hu.
    exact (Qlt_not_le _ _ Hu Hacc).
  - destruct (Qle_bool ((acc + x) / t) u) eqn:E.
    + apply Qle_bool_iff in E. destruct (IH (acc + x)%Q E) as [Hin Hpos].
      split.
      * intros Hu. apply -> Nat.succ_lt_mono. apply Hin.
        assert (E2 : (acc + x + np_sum p == acc + (x + np_sum p))%Q) by ring.
        rewrite E2. exact Hu.
      * intros Hk. apply Hpos. lia.
    + split; [intros _; lia|]. intros _.
      assert (Hlt : (u < (acc + x) / t)%Q).
      { apply Qnot_le_lt. intros Hle. apply Qle_bool_iff in Hle. congruence. }
      assert (Hlt2 : (acc / t < (acc + x) / t)%Q)
        by (eapply Qle_lt_trans; eassumption).
      apply (proj1 (Qdiv_lt_iff _ _ _ Ht)) in Hlt2.
      apply (Qplus_lt_r _ _ acc). rewrite Qplus_0_r. exact Hlt2.
Qed.

Lemma choice_position_positive (p : list Q) (u : Q) :
  Forall (fun q => 0 <= q)%Q p -> (np_sum p == 1)%Q ->
  (0 <= u)%Q -> (u < 1)%Q ->
  (choice_position p u < List.length p)%nat /\
  (0 < nth (choice_position p u) p 0)%Q.
Proof.
  intros Hp Hsum Hu0 Hu1.
  assert (Hne : p <> []).
  { intros ->. simpl in Hsum. discriminate Hsum. }
  unfold choice_position.
  assert (Hlast : (last (cumsum_from 0 p) 0 == 1)%Q).
  { rewrite (last_cumsum p 0 0 Hne), Hsum. reflexivity. }
  set (t := last (cumsum_from 0 p) 0%Q) in *.
  assert (Ht : (0 < t)%Q) by (rewrite Hlast; reflexivity).
  destruct (searchsorted_positive t u p Ht Hp 0%Q) as [Hin Hpos].
  - assert (E : (0 / t == 0)%Q) by (unfold Qdiv; ring). rewrite E. exact Hu0.
  - assert (Hk : (searchsorted_right
                    (map (fun c => c / t)%Q (cumsum_from 0 p)) u
                  < List.length p)%nat).
    { apply Hin. rewrite Hsum, Hlast.
      assert (E : ((0 + 1) / 1 == 1)%Q) by reflexivity.
      rewrite E. exact Hu1. }
    split; [exact Hk|exact (Hpos Hk)].
Qed.

Lemma np_random_choice_ok {A : Type} (u : Q) (a : list A) (p : list Q) :
  List.length p = List.length a ->
  Forall (fun q => 0 <= q)%Q p -> (np_sum p == 1)%Q ->
  (0 <= u)%Q -> (u < 1)%Q ->
  exists k x q,
    np_random_choice u a (map Finite p) = Ok x /\
    nth_error a k = Some x /\ nth_error p k = Some q /\ (0 < q)%Q.
Proof.
  intros Hlen Hp Hsum Hu0 Hu1.
  destruct (choice_position_positive p u Hp Hsum Hu0 Hu1) as [Hk Hpos].
  unfold np_random_choice.
  destruct a as [|x0 a].
  { simpl in Hlen. lia. }
  rewrite length_map, Hlen, Nat.eqb_refl. cbn [negb].
  rewrite finite_values_map.
  assert (Hneg : existsb (fun q => Qlt_bool q 0) p = false).
  { destruct (existsb (fun q => Qlt_bool q 0) p) eqn:E; [|reflexivity].
    apply existsb_exists in E. destruct E as (q & Hq & Hlt).
    apply Qlt_bool_iff in Hlt. rewrite Forall_forall in Hp.
    exfalso. exact (Qlt_not_le _ _ Hlt (Hp q Hq)). }
  rewrite Hneg.
  assert (Htol : Qlt_bool atol (Qabs (np_sum p - 1)) = false).
  { apply Qlt_bool_false_iff.
    assert (E : (np_sum p - 1 == 0)%Q) by (rewrite Hsum; reflexivity).
    rewrite E. discriminate. }
  rewrite Htol. unfold np_row.
  rewrite Hlen in Hk.
  destruct (nth_error (x0 :: a) (choice_position p u)) as [x|] eqn:E.
  - exists (choice_position p u), x, (nth (choice_position p u) p 0%Q).
    repeat split; try assumption.
    apply nth_error_nth'. now rewrite Hlen.
  - apply nth_error_None in E. lia.
Qed.

Lemma np_random_choice_degenerate {A : Type} (u : Q) (a : list A) (l : list Q) :
  (np_sum l == 0)%Q ->
  np_random_choice u a (normalize l) = Raise ValueError.
Proof.
  intros Hsum. unfold np_random_choice.
  destruct a as [|x a]; [reflexivity|].
  destruct (negb _); [reflexivity|].
  destruct l as [|d l].
  - (* no probability at all: the cumulated sum is empty *)
    simpl.
    replace (Qlt_bool atol (Qabs (0 - 1))) with true by reflexivity.
    reflexivity.
  - unfold normalize. cbn [map finite_values]. unfold np_div at 1.
    apply Qeq_bool_iff in Hsum. rewrite Hsum.
    destruct (Qeq_bool d 0); [reflexivity|].
    destruct (Qlt_bool 0 d); reflexivity.
Qed.

(** ** The training sampler on the index of [setup] *)

Lemma Forall2_nth_error_l {A B : Type} (R : A -> B -> Prop) (l : list A) (l' : list B) :
  Forall2 R l l' ->
  forall k a, nth_error l k = Some a ->
  exists b, nth_error l' k = Some b /\ R a b.
Proof.
  induction 1 as [|a b l l' Hab Hall IH]; intros k a' Hk.
  - destruct k; discriminate.
  - destruct k as [|k]; simpl in *.
    + injection Hk as <-. exists b. auto.
    + apply IH. exact Hk.
Qed.

Lemma retained_duration_nonneg (duration : Q) (f : ProtocolFile) :
  (0 <= duration)%Q -> (0 <= retained_duration duration f)%Q.
Proof.
  intros Hd. unfold retained_duration. apply np_sum_nonneg.
  apply Forall_forall. intros x Hx. apply in_map_iff in Hx.
  destruct Hx as (seg & <- & Hseg). apply filter_In in Hseg.
  destruct Hseg as [_ Hret]. unfold retained in Hret.
  apply negb_true_iff, Qlt_bool_false_iff in Hret.
  eapply Qle_trans; eassumption.
Qed.

Lemma setup_arrays (duration : Q) (has_validation : bool)
  (protocol_train protocol_development : list ProtocolFile) (ix : Index) :
  setup duration has_validation protocol_train protocol_development = Ok ix ->
  let files := files_iter has_validation protocol_train protocol_development in
  annotated_regions ix = regions_from duration O files /\
  Forall2 (fun total f => (total == retained_duration duration f)%Q)
    (annotated_duration ix) files.
Proof.
  intros Hsetup files.
  destruct (setup_inv _ _ _ _ _ Hsetup) as (s & Hloop & _ & _ & Hdur & Hreg & _).
  split.
  - rewrite Hreg. exact (setup_loop_regions_from _ _ _ _ _ Hloop).
  - destruct (setup_loop_durations _ _ _ _ _ Hloop) as (totals & Heq & Hall).
    simpl in Heq. rewrite Hdur, Heq. exact Hall.
Qed.

Lemma region_durations (file_id : nat) (segments : list Segment) :
  map r_duration (map (region_of file_id) segments) = map seg_duration segments.
Proof. rewrite map_map. reflexivity. Qed.

Lemma Forall2_normalized (t : Q) (l : list Q) :
  Forall2 (fun q d => (q == d / t)%Q) (map (fun d => d / t)%Q l) l.
Proof.
  induction l as [|d l IH]; simpl; constructor; [reflexivity|exact IH].
Qed.

Lemma Forall2_map_r_inv {A B C : Type} (R : A -> C -> Prop) (g : B -> C)
  (l : list A) (l' : list B) :
  Forall2 R l (map g l') -> Forall2 (fun a b => R a (g b)) l l'.
Proof.
  revert l. induction l' as [|b l' IH]; intros l H; inversion H; subst;
    constructor; auto.
Qed.

(** The region probabilities of a file with a positive retained duration. *)
Lemma region_probabilities (duration : Q) (has_validation : bool)
  (protocol_train protocol_development : list ProtocolFile) (ix : Index)
  (file_id : nat) (f : ProtocolFile) :
  setup duration has_validation protocol_train protocol_development = Ok ix ->
  nth_error (files_iter has_validation protocol_train protocol_development)
    file_id = Some f ->
  (0 < retained_duration duration f)%Q ->
  exists rp,
    prob_annotated_regions_duration ix file_id = Ok (map Finite rp) /\
    (np_sum rp == 1)%Q /\
    Forall2 (fun q r => (q == r_duration r / retained_duration duration f)%Q)
      rp (regions_of_file (annotated_regions ix) file_id).
Proof.
  intros Hsetup Hf Hpos.
  destruct (setup_arrays _ _ _ _ _ Hsetup) as [Hreg _].
  unfold prob_annotated_regions_duration, annotated_region_indices.
  rewrite take_np_where. cbn [bind].
  fold (regions_of_file (annotated_regions ix) file_id).
  rewrite Hreg, regions_of_file_from. simpl Nat.leb. cbn iota.
  rewrite Nat.sub_0_r, Hf, region_durations.
  fold (retained_duration duration f).
  set (durations := map seg_duration
                      (filter (retained duration) (f_annotated f))).
  assert (Hne : ~ (np_sum durations == 0)%Q)
    by (apply Qpos_nonzero; exact Hpos).
  exists (map (fun d => d / np_sum durations)%Q durations).
  split; [now rewrite (normalize_finite _ Hne)|].
  split; [exact (np_sum_normalized _ Hne)|].
  apply (Forall2_map_r_inv
           (fun q x => (q == x / retained_duration duration f)%Q) r_duration).
  rewrite region_durations. apply Forall2_normalized.
Qed.

Lemma Forall2_In_r {A B : Type} (R : A -> B -> Prop) (l : list A) (l' : list B) :
  Forall2 R l l' ->
  forall b, In b l' -> exists a, In a l /\ R a b.
Proof.
  induction 1 as [|a b l l' Hab Hall IH]; intros b' Hb; [destruct Hb|].
  destruct Hb as [<-|Hb].
  - exists a. split; [left; reflexivity|exact Hab].
  - destruct (IH b' Hb) as (a' & Ha' & HR). exists a'. split; [right|]; assumption.
Qed.

(** C7: on the index of [setup] for a non-negative chunk duration, when the
    retained annotated durations of the filtered training files have a
    positive sum, the helper starts with a probability vector over these
    files that sums to 1, each entry being the retained annotated duration
    of its file over that sum; a file whose regions were all filtered out
    has probability 0; for every uniform sample the file drawn has a
    positive retained duration, so such a file is never drawn; and the
    regions of the file drawn get a probability vector that sums to 1, each
    entry being the duration of its region over the retained duration of
    the file. *)
Theorem sampler_probabilities_follow_durations
  (np_equal_sequence : list Z -> list pyval -> result (list bool))
  (chunk_duration : Q) (has_validation : bool)
  (protocol_train protocol_development : list ProtocolFile)
  (t : Task) (filters : list (string * pyval))
  (ids : list nat) (durations : list Q) :
  (0 <= chunk_duration)%Q ->
  setup chunk_duration has_validation protocol_train protocol_development
  = Ok (index t) ->
  training_file_ids np_equal_sequence (index t) filters = Ok ids ->
  take (annotated_duration (index t)) ids = Ok durations ->
  (0 < np_sum durations)%Q ->
  let files := files_iter has_validation protocol_train protocol_development in
  exists p,
    train__iter__helper_start np_equal_sequence t filters
    = Ok (mkHelperState ids (map Finite p) O O) /\
    (np_sum p == 1)%Q /\
    Forall2 (fun q dur => (q == dur / np_sum durations)%Q) p durations /\
    Forall2 (fun file_id dur =>
               exists f,
                 nth_error files file_id = Some f /\
                 (dur == retained_duration chunk_duration f)%Q)
      ids durations /\
    (forall k file_id f,
        nth_error ids k = Some file_id ->
        nth_error files file_id = Some f ->
        Forall (fun segment => (seg_duration segment < chunk_duration)%Q)
          (f_annotated f) ->
        exists q, nth_error p k = Some q /\ (q == 0)%Q) /\
    (forall u,
        (0 <= u)%Q -> (u < 1)%Q ->
        exists file_id f rp,
          np_random_choice u ids (map Finite p) = Ok file_id /\
          In file_id ids /\
          nth_error files file_id = Some f /\
          (0 < retained_duration chunk_duration f)%Q /\
          prob_annotated_regions_duration (index t) file_id = Ok (map Finite rp) /\
          (np_sum rp == 1)%Q /\
          Forall2
            (fun q r =>
               (q == r_duration r / retained_duration chunk_duration f)%Q)
            rp (regions_of_file (annotated_regions (index t)) file_id)).
Proof.
  intros Hd Hsetup Hids Htake Hpos files.
  destruct (setup_arrays _ _ _ _ _ Hsetup) as [_ Hdur]. fold files in Hdur.
  pose proof (take_Forall2 _ _ _ Htake) as Htaken.
  assert (Hne : ~ (np_sum durations == 0)%Q) by (apply Qpos_nonzero; exact Hpos).
  assert (Hfiles :
    Forall2 (fun file_id dur =>
               exists f, nth_error files file_id = Some f /\
                         (dur == retained_duration chunk_duration f)%Q)
      ids durations).
  { eapply Forall2_impl; [|exact Htaken]. intros file_id dur Hnth.
    exact (Forall2_nth_error_l _ _ _ Hdur file_id dur Hnth). }
  assert (Hnonneg : Forall (fun q => 0 <= q)%Q
                      (map (fun d => d / np_sum durations)%Q durations)).
  { apply Forall_forall. intros q Hq. apply in_map_iff in Hq.
    destruct Hq as (dur & <- & Hdur_in).
    apply Qdiv_nonneg; [|exact Hpos].
    destruct (Forall2_In_r _ _ _ Hfiles dur Hdur_in)
      as (file_id & _ & f & _ & Heq).
    rewrite Heq. apply retained_duration_nonneg. exact Hd. }
  exists (map (fun d => d / np_sum durations)%Q durations).
  split; [|split; [|split; [|split; [|split]]]].
  - unfold train__iter__helper_start. rewrite Hids. cbn [bind]. rewrite Htake. cbn [bind].
    now rewrite (normalize_finite _ Hne).
  - exact (np_sum_normalized _ Hne).
  - apply Forall2_normalized.
  - exact Hfiles.
  - intros k file_id f Hk Hf Hshort.
    destruct (Forall2_nth_error_l _ _ _ Hfiles k file_id Hk)
      as (dur & Hdur_k & f' & Hf' & Heq).
    rewrite Hf in Hf'. injection Hf' as <-.
    exists (dur / np_sum durations)%Q. split.
    + rewrite nth_error_map, Hdur_k. reflexivity.
    + rewrite Heq. unfold retained_duration.
      assert (Hnone : filter (retained chunk_duration) (f_annotated f) = []).
      { induction Hshort as [|seg l Hseg Hl IH]; simpl; [reflexivity|].
        unfold retained at 1. apply Qlt_bool_iff in Hseg. rewrite Hseg.
        exact IH. }
      rewrite Hnone. simpl. unfold Qdiv. ring.
  - intros u Hu0 Hu1.
    destruct (np_random_choice_ok u ids
                (map (fun d => d / np_sum durations)%Q durations))
      as (k & file_id & q & Hchoice & Hk & Hq & Hqpos);
      try assumption.
    { rewrite length_map. symmetry. exact (Forall2_length Htaken). }
    { exact (np_sum_normalized _ Hne). }
    destruct (Forall2_nth_error_l _ _ _ Hfiles k file_id Hk)
      as (dur & Hdur_k & f & Hf & Heq).
    rewrite nth_error_map, Hdur_k in Hq. injection Hq as <-.
    assert (Hdpos : (0 < retained_duration chunk_duration f)%Q).
    { rewrite <- Heq. apply (Qdiv_lt_iff 0 dur _ Hpos).
      assert (E : (0 / np_sum durations == 0)%Q) by (unfold Qdiv; ring).
      rewrite E. exact Hqpos. }
    destruct (region_probabilities _ _ _ _ _ file_id f Hsetup Hf Hdpos)
      as (rp & Hrp & Hsum & Hprop).
    exists file_id, f, rp.
    split; [exact Hchoice|]. split; [exact (nth_error_In _ _ Hk)|].
    split; [exact Hf|]. split; [exact Hdpos|].
    split; [exact Hrp|]. split; [exact Hsum|exact Hprop].
Qed.

Lemma sampler_probabilities_follow_durations_witness :
  exists p,
    train__iter__helper_start no_sequence_filter (mkTask two_files_index 4 1 None) []
    = Ok (mkHelperState [0%nat; 1%nat] (map Finite p) O O) /\
    (np_sum p == 1)%Q.
Proof.
  destruct (sampler_probabilities_follow_durations no_sequence_filter
              4 false two_files [] (mkTask two_files_index 4 1 None) []
              [0%nat; 1%nat] [10%Q; 10%Q])
    as (p & Hstart & Hsum & _).
  - discriminate.
  - reflexivity.
  - reflexivity.
  - reflexivity.
  - reflexivity.
  - exists p. split; assumption.
Defined.

(** ** A degenerate training set *)

(** C3, as the code has it: when the retained annotated durations of the
    filtered training files sum to zero (no such file, or none with a
    retained region), the helper reaches its loop without raising, with
    the vector numpy's division leaves, and every request for a chunk
    raises the [ValueError] of the first file draw. *)
Theorem degenerate_training_set_raises_in_loop
  (np_equal_sequence : list Z -> list pyval -> result (list bool))
  (t : Task) (filters : list (string * pyval))
  (ids : list nat) (durations : list Q) :
  training_file_ids np_equal_sequence (index t) filters = Ok ids ->
  take (annotated_duration (index t)) ids = Ok durations ->
  (np_sum durations == 0)%Q ->
  train__iter__helper_start np_equal_sequence t filters
  = Ok (mkHelperState ids (normalize durations) O O) /\
  (forall d,
      train__iter__helper_next t (mkHelperState ids (normalize durations) O O) d
      = Throw ValueError) /\
  (forall d,
      generator_next np_equal_sequence t (Created filters) d = Throw ValueError).
Proof.
  intros Hids Htake Hsum.
  assert (Hstart : train__iter__helper_start np_equal_sequence t filters
                   = Ok (mkHelperState ids (normalize durations) O O)).
  { unfold train__iter__helper_start. rewrite Hids. cbn [bind]. rewrite Htake. reflexivity. }
  assert (Hnext : forall d,
             train__iter__helper_next t (mkHelperState ids (normalize durations) O O) d
             = Throw ValueError).
  { intros d. unfold train__iter__helper_next. cbn [chunks_left file_ids prob_annotated_duration].
    now rewrite (np_random_choice_degenerate _ _ _ Hsum). }
  split; [exact Hstart|]. split; [exact Hnext|].
  intros d. unfold generator_next. rewrite Hstart, Hnext. reflexivity.
Qed.

Lemma degenerate_training_set_raises_in_loop_witness :
  train__iter__helper_start no_sequence_filter (mkTask short_file_index 4 1 None) []
  = Ok (mkHelperState [0%nat] [NaN] O O) /\
  generator_next no_sequence_filter (mkTask short_file_index 4 1 None)
    (Created []) (mkDraw 0 0 0 0) = Throw ValueError.
Proof.
  destruct (degenerate_training_set_raises_in_loop no_sequence_filter
              (mkTask short_file_index 4 1 None) [] [0%nat] [0%Q]
              eq_refl eq_refl (Qeq_refl 0))
    as (Hstart & _ & Hnext).
  split; [exact Hstart|apply Hnext].
Defined.

(** C3, as the claim states it, fails: with no training file, and with a
    training file whose regions were all filtered out, the part of the
    helper before its loop returns normally; only the first draw inside
    the loop raises, and it raises [ValueError]. *)
Lemma degenerate_training_set_not_reported_before_loop :
  train__iter__helper_start no_sequence_filter (mkTask empty_index 4 1 None) []
  = Ok (mkHelperState [] [] O O) /\
  train__iter__helper_next (mkTask empty_index 4 1 None) (mkHelperState [] [] O O)
    (mkDraw 0 0 0 0) = Throw ValueError /\
  train__iter__helper_start no_sequence_filter (mkTask short_file_index 4 1 None) []
  = Ok (mkHelperState [0%nat] [NaN] O O) /\
  train__iter__helper_next (mkTask short_file_index 4 1 None)
    (mkHelperState [0%nat] [NaN] O O) (mkDraw 0 0 0 0) = Throw ValueError.
Proof. repeat split. Qed.

(** ** The dictionary of sub-samplers *)

Lemma pyval_eqb_eq : forall a b, pyval_eqb a b = true -> a = b.
Proof.
  fix IH 1. intros a b. destruct a as [x|x|l|l], b as [z|z|m|m];
    simpl; try discriminate.
  - intros H. apply Z.eqb_eq in H. now subst.
  - intros H. apply String.eqb_eq in H. now subst.
  - intros H. f_equal. revert m H.
    induction l as [|v l IHl]; intros [|v' m] H; simpl in H;
      try discriminate; [reflexivity|].
    apply andb_true_iff in H. destruct H as [Hv Hl].
    f_equal; [exact (IH v v' Hv)|exact (IHl m Hl)].
  - intros H. f_equal. revert m H.
    induction l as [|v l IHl]; intros [|v' m] H; simpl in H;
      try discriminate; [reflexivity|].
    apply andb_true_iff in H. destruct H as [Hv Hl].
    f_equal; [exact (IH v v' Hv)|exact (IHl m Hl)].
Qed.

Lemma pyval_eqb_refl : forall a, pyval_eqb a a = true.
Proof.
  fix IH 1. intros a. destruct a as [x|x|l|l]; simpl.
  - apply Z.eqb_refl.
  - apply String.eqb_refl.
  - induction l as [|v l IHl]; simpl; [reflexivity|].
    now rewrite (IH v), IHl.
  - induction l as [|v l IHl]; simpl; [reflexivity|].
    now rewrite (IH v), IHl.
Qed.

Lemma pyval_eqb_neq (a b : pyval) : a <> b -> pyval_eqb a b = false.
Proof.
  intros Hne. destruct (pyval_eqb a b) eqn:E; [|reflexivity].
  apply pyval_eqb_eq in E. contradiction.
Qed.

Lemma getitem_store_same (key : pyval) (g : Generator) (d : subchunks_dict) :
  subchunks_getitem key (dict_store key g d) = Ok g.
Proof.
  induction d as [|[k old] d IH]; simpl.
  - now rewrite pyval_eqb_refl.
  - destruct (pyval_eqb key k) eqn:E; simpl; rewrite E; [reflexivity|exact IH].
Qed.

Lemma getitem_store_other (key key' : pyval) (g : Generator) (d : subchunks_dict) :
  key' <> key ->
  subchunks_getitem key' (dict_store key g d) = subchunks_getitem key' d.
Proof.
  intros Hne. induction d as [|[k old] d IH]; simpl.
  - now rewrite (pyval_eqb_neq _ _ Hne).
  - destruct (pyval_eqb key k) eqn:E; simpl.
    + apply pyval_eqb_eq in E. subst k.
      now rewrite (pyval_eqb_neq _ _ Hne).
    + destruct (pyval_eqb key' k); [reflexivity|exact IH].
Qed.

Lemma store_keys (key : pyval) (g : Generator) (d : subchunks_dict) :
  forall k, In k (map fst (dict_store key g d)) -> k = key \/ In k (map fst d).
Proof.
  induction d as [|[k0 old] d IH]; intros k Hk; simpl in *.
  - destruct Hk as [<-|[]]. now left.
  - destruct (pyval_eqb key k0); simpl in Hk.
    + right. exact Hk.
    + destruct Hk as [<-|Hk]; [right; now left|].
      destruct (IH k Hk); [now left|right; now right].
Qed.

Lemma build_subchunks_spec (keys : list string) (products : list (list pyval)) :
  Forall (fun product => forallb hashable product = true) products ->
  forall d,
  exists d',
    build_subchunks keys products d = Ok d' /\
    (forall product,
        In product products ->
        subchunks_getitem (PTuple product) d' = Ok (Created (combine keys product))) /\
    (forall key,
        (forall product, In product products -> key <> PTuple product) ->
        subchunks_getitem key d' = subchunks_getitem key d) /\
    (forall key,
        In key (map fst d') ->
        In key (map fst d) \/ exists product, In product products /\ key = PTuple product).
Proof.
  induction 1 as [|p products Hp Hall IH]; intros d; cbn [build_subchunks].
  - exists d. split; [reflexivity|]. split; [intros ? []|]. split; auto.
  - unfold subchunks_setitem. cbn [hashable]. rewrite Hp. cbn [bind].
    destruct (IH (dict_store (PTuple p) (Created (combine keys p)) d))
      as (d' & Hrun & Hget & Hother & Hkeys).
    exists d'. split; [exact Hrun|]. split; [|split].
    + intros q Hq.
      destruct (pyval_eqb (PTuple q) (PTuple p)) eqn:E.
      * apply pyval_eqb_eq in E. injection E as ->.
        destruct (existsb (fun r => pyval_eqb (PTuple p) (PTuple r)) products) eqn:Ex.
        -- apply existsb_exists in Ex. destruct Ex as (r & Hr & Er).
           apply pyval_eqb_eq in Er. injection Er as ->.
           apply Hget. exact Hr.
        -- rewrite Hother.
           ++ apply getitem_store_same.
           ++ intros r Hr Heq.
              assert (Habs : existsb (fun r => pyval_eqb (PTuple p) (PTuple r))
                               products = true).
              { apply existsb_exists. exists r. split; [exact Hr|].
                rewrite Heq. apply pyval_eqb_refl. }
              congruence.
      * destruct Hq as [->|Hq]; [now rewrite pyval_eqb_refl in E|].
        apply Hget. exact Hq.
    + intros key Hkey. rewrite Hother.
      * apply getitem_store_other. apply Hkey. now left.
      * intros r Hr. apply Hkey. now right.
    + intros key Hk. destruct (Hkeys key Hk) as [Hin|(r & Hr & ->)].
      * apply store_keys in Hin. destruct Hin as [->|Hin]; [|now left].
        right. exists p. split; [now left|reflexivity].
      * right. exists r. split; [now right|reflexivity].
Qed.




(** In balanced mode the iterator never yields a chunk: with a balance key
    the construction of [subchunks] raises [TypeError], and without any the
    dictionary is empty and the first draw raises [IndexError]. *)
Theorem balanced_iterator_never_yields
  (np_equal_sequence : list Z -> list pyval -> result (list bool))
  (ix : Index) (chunk_duration : Q) (chunks_per_file : nat) (keys : list string) :
  match keys with
  | [] =>
      train__iter__start (mkTask ix chunk_duration chunks_per_file (Some []))
      = Ok (Balanced []) /\
      forall d,
        train__iter__next np_equal_sequence
          (mkTask ix chunk_duration chunks_per_file (Some [])) (Balanced []) d
        = Throw IndexError
  | _ :: _ =>
      train__iter__start (mkTask ix chunk_duration chunks_per_file (Some keys))
      = Raise TypeError
  end.
Proof.
  destruct keys as [|key keys].
  - split; [reflexivity|]. intros d. reflexivity.
  - reflexivity.
Qed.

(** ** The calls succeed on the index of [setup] *)

Lemma py_getitem_Scopes (sc : Scope) : py_getitem Scopes (Scopes_index sc) = Ok sc.
Proof. destruct sc; reflexivity. Qed.

Lemma setup_metadata (duration : Q) (has_validation : bool)
  (protocol_train protocol_development : list ProtocolFile) (ix : Index) :
  setup duration has_validation protocol_train protocol_development = Ok ix ->
  keys_prefix (metadata_unique_values ix) /\
  Forall2 row_codes (metadata ix)
    (files_iter has_validation protocol_train protocol_development).
Proof.
  intros Hsetup.
  destruct (setup_inv _ _ _ _ _ Hsetup) as (s & Hloop & Hmuv & Hmeta & _).
  destruct (setup_loop_metadata _ _ _ _ _ initial_keys_prefix Hloop)
    as (Hpre & rows & Hrows & Hall).
  simpl in Hrows. rewrite Hmuv, Hmeta, Hrows. split; assumption.
Qed.



Lemma take_ok {A : Type} (rows : list A) (indices : list nat) :
  Forall (fun i => (i < List.length rows)%nat) indices ->
  exists xs, take rows indices = Ok xs.
Proof.
  induction 1 as [|i indices Hi Hall IH]; simpl.
  - exists []. reflexivity.
  - destruct IH as (xs & Hxs). unfold np_row.
    destruct (nth_error rows i) as [x|] eqn:E.
    + rewrite Hxs. exists (x :: xs). reflexivity.
    + apply nth_error_None in E. lia.
Qed.

(** Without filters, on the index of [setup], the helper reaches its loop:
    the file ids are those of the files of the training subset, and each
    has its annotated duration. *)
Theorem unbalanced_helper_starts_on_setup_index
  (np_equal_sequence : list Z -> list pyval -> result (list bool))
  (chunk_duration : Q) (has_validation : bool)
  (protocol_train protocol_development : list ProtocolFile) (t : Task) :
  setup chunk_duration has_validation protocol_train protocol_development
  = Ok (index t) ->
  let files := files_iter has_validation protocol_train protocol_development in
  training_file_ids np_equal_sequence (index t) [] = Ok (train_file_ids files) /\
  exists durations,
    take (annotated_duration (index t)) (train_file_ids files) = Ok durations /\
    train__iter__helper_start np_equal_sequence t []
    = Ok (mkHelperState (train_file_ids files) (normalize durations) O O).
Proof.
  intros Hsetup files.
  destruct (setup_metadata _ _ _ _ _ Hsetup) as [Hpre Hrows]. fold files in Hrows.
  destruct (setup_arrays _ _ _ _ _ Hsetup) as [_ Hdur]. fold files in Hdur.
  destruct (field_position_prefix _ Hpre) as [_ Hpos].
  assert (Hids : training_file_ids np_equal_sequence (index t) []
                 = Ok (train_file_ids files)).
  { unfold training_file_ids, metadata_column. rewrite Hpos. cbn [bind apply_filters].
    rewrite (subset_column _ _ Hrows), map_map.
    rewrite (map_ext _ (fun f => Subset_eqb (f_subset f) train))
      by (intros f; apply Subsets_index_eqb).
    rewrite np_where_map. reflexivity. }
  split; [exact Hids|].
  destruct (take_ok (annotated_duration (index t)) (train_file_ids files))
    as (durations & Htake).
  { apply Forall_forall. intros i Hi. unfold train_file_ids in Hi.
    apply filter_In in Hi. destruct Hi as [Hi _]. apply in_seq in Hi.
    rewrite (Forall2_length Hdur). lia. }
  exists durations. split; [exact Htake|].
  unfold train__iter__helper_start. rewrite Hids. cbn [bind]. rewrite Htake. reflexivity.
Qed.

Lemma unbalanced_helper_starts_on_setup_index_witness :
  training_file_ids no_sequence_filter two_files_index [] = Ok [0%nat; 1%nat] /\
  exists durations,
    take (annotated_duration two_files_index) [0%nat; 1%nat] = Ok durations /\
    train__iter__helper_start no_sequence_filter (mkTask two_files_index 4 1 None) []
    = Ok (mkHelperState [0%nat; 1%nat] (normalize durations) O O).
Proof.
  exact (unbalanced_helper_starts_on_setup_index no_sequence_filter 4 false
           two_files [] (mkTask two_files_index 4 1 None) eq_refl).
Defined.

Lemma setup_database_idx_is_file_idx_witness :
  exists ix a,
    setup 1 false shared_label_files [] = Ok ix /\
    nth_error (annotations ix) 1 = Some a /\
    database_label_idx a = file_label_idx a.
Proof.
  eexists. eexists. split; [reflexivity|]. split; [reflexivity|].
  apply (setup_database_idx_is_file_idx 1 false shared_label_files [] _ eq_refl
           _ (nth 0 shared_label_files (mkFile train file [] [] []))).
  - simpl. auto.
  - reflexivity.
  - reflexivity.
Defined.

(** * Further properties *)

(** ** Where the training chunks come from *)

Lemma np_random_choice_In {A : Type} (u : Q) (a : list A) (p : list npfloat) (x : A) :
  np_random_choice u a p = Ok x -> In x a.
Proof.
  unfold np_random_choice. destruct a as [|x0 a]; [discriminate|].
  destruct (negb _); [discriminate|].
  destruct (finite_values p) as [qs|]; [|discriminate].
  destruct (existsb _ qs); [discriminate|].
  destruct (Qlt_bool atol _); [discriminate|].
  unfold np_row. destruct (nth_error (x0 :: a) (choice_position qs u)) eqn:E;
    [|discriminate].
  intros H. injection H as <-. exact (nth_error_In _ _ E).
Qed.

Lemma np_where_map_In {A : Type} (p : A -> bool) (l : list A) (i : nat) :
  In i (np_where (map p l)) <-> exists x, nth_error l i = Some x /\ p x = true.
Proof.
  rewrite np_where_map, filter_In, in_seq. split.
  - intros [_ H]. destruct (nth_error l i) as [x|]; [|discriminate].
    exists x. auto.
  - intros (x & Hx & Hp). rewrite Hx. split; [|exact Hp].
    assert (i < List.length l)%nat by (apply nth_error_Some; congruence). lia.
Qed.

Lemma rng_uniform_bounds (a b u : Q) :
  (a <= b)%Q -> (0 <= u)%Q -> (u < 1)%Q ->
  (a <= rng_uniform a b u)%Q /\ (rng_uniform a b u <= b)%Q.
Proof.
  intros Hab Hu0 Hu1. unfold rng_uniform.
  assert (Hd : (0 <= b - a)%Q).
  { apply (Qplus_le_l _ _ a). ring_simplify. exact Hab. }
  split.
  - rewrite <- (Qplus_0_r a) at 1. apply Qplus_le_r.
    apply Qmult_le_0_compat; assumption.
  - assert (H : ((b - a) * u <= (b - a) * 1)%Q).
    { rewrite !(Qmult_comm (b - a)). apply Qmult_le_compat_r; [|exact Hd].
      apply Qlt_le_weak. exact Hu1. }
    apply (Qplus_le_r _ _ a) in H.
    eapply Qle_trans; [exact H|]. ring_simplify. apply Qle_refl.
Qed.

Lemma draw_chunk_region
  (t : Task) (file_id : nat) (d : Draw) (c : Chunk) :
  draw_chunk t file_id d = Ok c ->
  exists region,
    In region (annotated_regions (index t)) /\ r_file_id region = file_id /\
    c = mkChunk file_id
          (rng_uniform (r_start region) (r_end region - duration t) (u_start d))
          (duration t).
Proof.
  unfold draw_chunk. intros H.
  apply bind_ok in H. destruct H as (p & _ & H).
  apply bind_ok in H. destruct H as (i & Hi & H).
  apply bind_ok in H. destruct H as (region & Hregion & H).
  injection H as <-. exists region.
  apply np_random_choice_In in Hi. unfold annotated_region_indices in Hi.
  apply np_where_map_In in Hi. destruct Hi as (r & Hr & Hid).
  unfold np_row in Hregion. rewrite Hr in Hregion. injection Hregion as <-.
  apply Nat.eqb_eq in Hid.
  split; [exact (nth_error_In _ _ Hr)|]. split; [exact Hid|reflexivity].
Qed.

Lemma helper_next_source (t : Task) (s s' : HelperState) (d : Draw) (c : Chunk) :
  train__iter__helper_next t s d = Yield (c, s') ->
  exists file_id,
    draw_chunk t file_id d = Ok c /\
    current_file s' = file_id /\
    file_ids s' = file_ids s /\
    prob_annotated_duration s' = prob_annotated_duration s /\
    ((exists k, chunks_left s = S k /\ chunks_left s' = k /\
                file_id = current_file s) \/
     (chunks_left s = O /\ In file_id (file_ids s) /\
      num_chunks_per_file t = S (chunks_left s'))).
Proof.
  unfold train__iter__helper_next. intros H.
  destruct (chunks_left s) as [|k] eqn:Hleft.
  - destruct (np_random_choice (u_file d) (file_ids s) (prob_annotated_duration s))
      as [file_id|e] eqn:Hchoice; [|discriminate].
    destruct (num_chunks_per_file t) as [|k]; [discriminate|].
    destruct (draw_chunk t file_id d) as [c0|e] eqn:Hdraw; [|discriminate].
    simpl in H. injection H as <- <-. exists file_id. simpl.
    split; [exact Hdraw|]. do 3 (split; [reflexivity|]).
    right. split; [reflexivity|]. split; [|reflexivity].
    exact (np_random_choice_In _ _ _ _ Hchoice).
  - destruct (draw_chunk t (current_file s) d) as [c0|e] eqn:Hdraw; [|discriminate].
    simpl in H. injection H as <- <-. exists (current_file s). simpl.
    split; [exact Hdraw|]. do 3 (split; [reflexivity|]).
    left. exists k. repeat split.
Qed.


Lemma two_files_fit : segments_fit two_files.
Proof.
  intros f segment [<-|[<-|[]]] [<-|[]]; unfold Qle; simpl; lia.
Qed.


(** ** The helper takes its chunks file by file *)

Lemma helper_run_current_file (t : Task) (draws : list Draw) :
  forall s cs s',
    chunks_left s = List.length draws ->
    helper_run t s draws = Yield (cs, s') ->
    Forall (fun c => c_file_id c = current_file s) cs /\
    List.length cs = List.length draws /\
    chunks_left s' = O /\ current_file s' = current_file s /\
    file_ids s' = file_ids s.
Proof.
  induction draws as [|d draws IH]; intros s cs s' Hleft Hrun; simpl in *.
  - injection Hrun as <- <-. repeat split; [constructor|exact Hleft].
  - destruct (train__iter__helper_next t s d) as [[c s1]|e|] eqn:Hnext;
      try discriminate.
    destruct (helper_run t s1 draws) as [[cs1 s2]|e|] eqn:Hrest; try discriminate.
    injection Hrun as <- <-.
    destruct (helper_next_source _ _ _ _ _ Hnext)
      as (file_id & Hdraw & Hcur & Hids & _ & [(k & Hk & Hk' & Hfile)|(Hzero & _)]).
    + destruct (draw_chunk_region _ _ _ _ Hdraw) as (region & _ & _ & Hc).
      assert (Hk1 : chunks_left s1 = List.length draws) by lia.
      destruct (IH _ _ _ Hk1 Hrest) as (Hall & Hlen & Hend & Hcur' & Hids').
      rewrite Hcur, Hfile in Hall, Hcur'.
      split; [|split; [|split; [|split]]].
      * constructor; [|exact Hall]. rewrite Hc. simpl. exact Hfile.
      * simpl. now rewrite Hlen.
      * exact Hend.
      * exact Hcur'.
      * now rewrite Hids'.
    + lia.
Qed.

(** From a state in which a file is to be drawn, the [num_chunks_per_file]
    next chunks the helper yields all come from one file, drawn among the
    file ids, after which a file is to be drawn again. *)
Theorem helper_takes_chunks_file_by_file
  (t : Task) (s s' : HelperState) (draws : list Draw) (cs : list Chunk) :
  chunks_left s = O ->
  List.length draws = num_chunks_per_file t ->
  draws <> [] ->
  helper_run t s draws = Yield (cs, s') ->
  exists file_id,
    In file_id (file_ids s) /\
    Forall (fun c => c_file_id c = file_id) cs /\
    List.length cs = num_chunks_per_file t /\
    chunks_left s' = O /\ file_ids s' = file_ids s.
Proof.
  intros Hzero Hlen Hne Hrun.
  destruct draws as [|d draws]; [contradiction|]. simpl in Hrun, Hlen.
  destruct (train__iter__helper_next t s d) as [[c s1]|e|] eqn:Hnext;
    try discriminate.
  destruct (helper_run t s1 draws) as [[cs1 s2]|e|] eqn:Hrest; try discriminate.
  injection Hrun as <- <-.
  destruct (helper_next_source _ _ _ _ _ Hnext)
    as (file_id & Hdraw & Hcur & Hids & _ & [(k & Hk & _)|(_ & Hin & Hper)]).
  - lia.
  - destruct (draw_chunk_region _ _ _ _ Hdraw) as (region & _ & _ & Hc).
    assert (Hk1 : chunks_left s1 = List.length draws) by lia.
    destruct (helper_run_current_file _ _ _ _ _ Hk1 Hrest)
      as (Hall & Hlen1 & Hend & _ & Hids').
    exists file_id. split; [exact Hin|]. split; [|split; [|split]].
    + constructor; [rewrite Hc; reflexivity|]. now rewrite Hcur in Hall.
    + simpl. lia.
    + exact Hend.
    + now rewrite Hids', Hids.
Qed.

Lemma helper_takes_chunks_file_by_file_witness :
  exists cs s' file_id,
    helper_run (mkTask two_files_index 4 2 None)
      (mkHelperState [0%nat; 1%nat] [Finite (1 # 2); Finite (1 # 2)] O O)
      [mkDraw (1 # 2) (1 # 3) (1 # 4) 0; mkDraw 0 (1 # 3) (3 # 4) 0]
    = Yield (cs, s') /\
    Forall (fun c => c_file_id c = file_id) cs /\ List.length cs = 2%nat.
Proof.
  assert (Hrun : exists cs s',
             helper_run (mkTask two_files_index 4 2 None)
               (mkHelperState [0%nat; 1%nat] [Finite (1 # 2); Finite (1 # 2)] O O)
               [mkDraw (1 # 2) (1 # 3) (1 # 4) 0; mkDraw 0 (1 # 3) (3 # 4) 0]
             = Yield (cs, s'))
    by (eexists; eexists; reflexivity).
  destruct Hrun as (cs & s' & Hrun).
  assert (Hne : [mkDraw (1 # 2) (1 # 3) (1 # 4) 0; mkDraw 0 (1 # 3) (3 # 4) 0]
                <> []) by discriminate.
  destruct (helper_takes_chunks_file_by_file
              (mkTask two_files_index 4 2 None)
              (mkHelperState [0%nat; 1%nat] [Finite (1 # 2); Finite (1 # 2)] O O)
              s' [mkDraw (1 # 2) (1 # 3) (1 # 4) 0; mkDraw 0 (1 # 3) (3 # 4) 0]
              cs eq_refl eq_refl Hne Hrun)
    as (file_id & _ & Hall & Hlen & _).
  exists cs, s', file_id. split; [exact Hrun|]. split; assumption.
Defined.

(** ** The helper never runs dry *)

Lemma np_sum_In_le (l : list Q) (x : Q) :
  Forall (fun d => 0 <= d)%Q l -> In x l -> (x <= np_sum l)%Q.
Proof.
  induction 1 as [|y l Hy Hl IH]; intros Hin; [destruct Hin|].
  simpl. destruct Hin as [<-|Hin].
  - rewrite <- (Qplus_0_r y) at 1. apply Qplus_le_r.
    apply np_sum_nonneg. exact Hl.
  - apply Qle_trans with (np_sum l); [apply IH; exact Hin|].
    rewrite <- (Qplus_0_l (np_sum l)) at 1. apply Qplus_le_l. exact Hy.
Qed.

Lemma retained_duration_pos (duration : Q) (f : ProtocolFile) (segment : Segment) :
  (0 < duration)%Q -> In segment (f_annotated f) ->
  ~ (seg_duration segment < duration)%Q ->
  (0 < retained_duration duration f)%Q.
Proof.
  intros Hd Hseg Hret. apply retained_iff in Hret.
  apply Qlt_le_trans with (seg_duration segment).
  - apply Qlt_le_trans with duration; [exact Hd|].
    apply negb_true_iff, Qlt_bool_false_iff in Hret. exact Hret.
  - unfold retained_duration. apply np_sum_In_le.
    + apply Forall_forall. intros x Hx. apply in_map_iff in Hx.
      destruct Hx as (seg & <- & Hin). apply filter_In in Hin.
      destruct Hin as [_ Hr]. apply negb_true_iff, Qlt_bool_false_iff in Hr.
      apply Qle_trans with duration; [apply Qlt_le_weak; exact Hd|exact Hr].
    + apply in_map. apply filter_In. split; assumption.
Qed.

Lemma Forall2_Forall_l {A B : Type} (R : A -> B -> Prop)
  (P : A -> Prop) (Q : B -> Prop) (l : list A) (l' : list B) :
  (forall a b, R a b -> Q b -> P a) ->
  Forall2 R l l' -> Forall Q l' -> Forall P l.
Proof.
  intros HR. induction 1 as [|a b l l' Hab Hall IH]; intros HQ; constructor.
  - apply (HR a b Hab). now inversion HQ.
  - apply IH. now inversion HQ.
Qed.

Section Progress.

Variable has_validation : bool.
Variables protocol_train protocol_development : list ProtocolFile.
Variable t : Task.

Let files := files_iter has_validation protocol_train protocol_development.

Hypothesis setup_ok :
  setup (duration t) has_validation protocol_train protocol_development
  = Ok (index t).
Hypothesis duration_pos : (0 < duration t)%Q.
Hypothesis chunks_per_file : num_chunks_per_file t <> O.

(** A file from which a chunk can be drawn. *)
Let drawable (file_id : nat) : Prop :=
  exists f, nth_error files file_id = Some f /\
            (0 < retained_duration (duration t) f)%Q.

Lemma region_duration_nonneg (r : AnnotatedRegion) :
  In r (annotated_regions (index t)) -> (0 <= r_duration r)%Q.
Proof.
  intros Hin.
  destruct (setup_inv _ _ _ _ _ setup_ok) as (st & Hloop & _ & _ & _ & Hreg & _).
  rewrite Hreg in Hin. apply (setup_loop_regions _ _ _ _ _ Hloop) in Hin.
  destruct Hin as [[]|(k & f & segment & _ & _ & Hret & ->)]. simpl.
  apply negb_true_iff, Qlt_bool_false_iff in Hret.
  apply Qle_trans with (duration t); [apply Qlt_le_weak; exact duration_pos|exact Hret].
Qed.

Lemma draw_chunk_ok (file_id : nat) (d : Draw) :
  drawable file_id ->
  (0 <= u_region d)%Q -> (u_region d < 1)%Q ->
  exists c, draw_chunk t file_id d = Ok c.
Proof.
  intros (f & Hf & Hpos) Hu0 Hu1.
  destruct (region_probabilities _ _ _ _ _ file_id f setup_ok Hf Hpos)
    as (rp & Hrp & Hsum & Hprop).
  assert (Hlen : List.length rp
                 = List.length (annotated_region_indices (index t) file_id)).
  { pose proof Hrp as H. unfold prob_annotated_regions_duration in H.
    apply bind_ok in H. destruct H as (durations & Htake & H).
    injection H as H.
    apply take_Forall2, Forall2_length in Htake. rewrite Htake.
    apply (f_equal (@List.length npfloat)) in H. unfold normalize in H.
    rewrite !length_map in H. symmetry. exact H. }
  assert (Hnonneg : Forall (fun q => 0 <= q)%Q rp).
  { apply (Forall2_Forall_l _ (fun q => 0 <= q)%Q
             (fun r => 0 <= r_duration r)%Q _ _) with (2 := Hprop).
    - intros q r Hq Hr. rewrite Hq. apply Qdiv_nonneg; assumption.
    - apply Forall_forall. intros r Hr. unfold regions_of_file in Hr.
      apply filter_In in Hr. apply region_duration_nonneg. apply Hr. }
  destruct (np_random_choice_ok (u_region d)
              (annotated_region_indices (index t) file_id) rp
              Hlen Hnonneg Hsum Hu0 Hu1)
    as (k & i & q & Hchoice & Hk & _).
  apply nth_error_In in Hk. unfold annotated_region_indices in Hk.
  apply np_where_map_In in Hk. destruct Hk as (r & Hr & _).
  unfold draw_chunk. rewrite Hrp. cbn [bind]. rewrite Hchoice. cbn [bind].
  unfold np_row. rewrite Hr. cbn [bind]. eexists. reflexivity.
Qed.

Variable p : list Q.
Variable ids : list nat.

Hypothesis p_length : List.length p = List.length ids.
Hypothesis p_nonneg : Forall (fun q => 0 <= q)%Q p.
Hypothesis p_sum : (np_sum p == 1)%Q.
Hypothesis p_drawable :
  forall k file_id q,
    nth_error ids k = Some file_id -> nth_error p k = Some q -> (0 < q)%Q ->
    drawable file_id.

(** A state of the loop of the helper. *)
Let in_loop (s : HelperState) : Prop :=
  file_ids s = ids /\ prob_annotated_duration s = map Finite p /\
  (chunks_left s <> O -> drawable (current_file s)).

Lemma helper_next_yields (s : HelperState) (d : Draw) :
  in_loop s -> unit_draw d ->
  exists c s', train__iter__helper_next t s d = Yield (c, s') /\ in_loop s'.
Proof.
  intros (Hids & Hprob & Hcur) (Hf0 & Hf1 & Hr0 & Hr1 & _).
  unfold train__iter__helper_next.
  destruct (chunks_left s) as [|k] eqn:Hleft.
  - rewrite Hids, Hprob.
    destruct (np_random_choice_ok (u_file d) ids p p_length p_nonneg p_sum Hf0 Hf1)
      as (k & file_id & q & Hchoice & Hk & Hq & Hqpos).
    rewrite Hchoice.
    destruct (num_chunks_per_file t) as [|n]; [contradiction|].
    assert (Hdraw : drawable file_id) by exact (p_drawable _ _ _ Hk Hq Hqpos).
    destruct (draw_chunk_ok file_id d Hdraw Hr0 Hr1) as (c & Hc).
    rewrite Hc. simpl. eexists. eexists. split; [reflexivity|].
    repeat split; simpl; auto.
  - assert (Hdraw : drawable (current_file s)) by (apply Hcur; discriminate).
    destruct (draw_chunk_ok _ d Hdraw Hr0 Hr1) as (c & Hc).
    rewrite Hc. simpl. eexists. eexists. split; [reflexivity|].
    repeat split; simpl; auto.
Qed.

Lemma helper_run_yields (draws : list Draw) :
  Forall unit_draw draws ->
  forall s, in_loop s ->
  exists cs s',
    helper_run t s draws = Yield (cs, s') /\
    List.length cs = List.length draws.
Proof.
  induction 1 as [|d draws Hd Hall IH]; intros s Hs; simpl.
  - exists [], s. split; reflexivity.
  - destruct (helper_next_yields s d Hs Hd) as (c & s1 & Hnext & Hs1).
    rewrite Hnext. destruct (IH s1 Hs1) as (cs & s2 & Hrun & Hlen).
    rewrite Hrun. exists (c :: cs), s2. split; [reflexivity|].
    simpl. now rewrite Hlen.
Qed.

End Progress.



(** ** The metadata codes decode to the values of the files *)

Lemma py_in_string (x : string) (l : list string) :
  py_in String.eqb x l = true <-> In x l.
Proof.
  unfold py_in. rewrite existsb_exists. split.
  - intros (y & Hy & E). apply String.eqb_eq in E. now subst.
  - intros H. exists x. split; [exact H|apply String.eqb_refl].
Qed.

Lemma py_index_string_In (x : string) (l : list string) :
  In x l -> nth_error l (py_index String.eqb x l) = Some x.
Proof.
  induction l as [|y l IH]; intros Hin; [destruct Hin|]. simpl.
  destruct (String.eqb x y) eqn:E.
  - apply String.eqb_eq in E. now subst.
  - apply String.eqb_neq in E. destruct Hin as [->|Hin]; [contradiction|].
    exact (IH Hin).
Qed.

Lemma py_index_string_app (x : string) (l tail : list string) :
  In x l -> py_index String.eqb x (l ++ tail) = py_index String.eqb x l.
Proof.
  induction l as [|y l IH]; intros Hin; [destruct Hin|]. simpl.
  destruct (String.eqb x y) eqn:E; [reflexivity|].
  apply String.eqb_neq in E. destruct Hin as [->|Hin]; [contradiction|].
  now rewrite (IH Hin).
Qed.

Lemma append_if_new_spec (x : string) (l : list string) :
  exists tail,
    append_if_new String.eqb x l = l ++ tail /\ In x (l ++ tail) /\
    (NoDup l -> NoDup (l ++ tail)).
Proof.
  unfold append_if_new. destruct (py_in String.eqb x l) eqn:E.
  - apply py_in_string in E. exists []. rewrite app_nil_r. auto.
  - exists [x]. split; [reflexivity|]. split.
    + apply in_or_app. right. left. reflexivity.
    + intros Hl. apply NoDup_app; [exact Hl|repeat constructor; intros []|].
      intros y Hy [<-|[]]. apply py_in_string in Hy. congruence.
Qed.

Lemma muv_has_In (key : string) (muv : unique_values) :
  muv_has key muv = true <-> In key (map fst muv).
Proof.
  induction muv as [|[k vs] muv IH]; simpl.
  - split; [discriminate|intros []].
  - rewrite orb_true_iff, IH, String.eqb_eq. split.
    + intros [->|H]; auto.
    + intros [->|H]; auto.
Qed.

Lemma muv_get_app_new (k key : string) (muv : unique_values) :
  muv_has key muv = false ->
  muv_get k (muv ++ [(key, [])]) = muv_get k muv.
Proof.
  induction muv as [|[k' vs] muv IH]; simpl; intros H.
  - now destruct (String.eqb k key).
  - apply orb_false_iff in H. destruct H as [_ H].
    destruct (String.eqb k k'); [reflexivity|exact (IH H)].
Qed.

Lemma muv_get_touch (k key : string) (muv : unique_values) :
  muv_get k (muv_touch key muv) = muv_get k muv.
Proof.
  unfold muv_touch. destruct (muv_has key muv) eqn:E; [reflexivity|].
  exact (muv_get_app_new k key muv E).
Qed.

Lemma muv_get_set (k key : string) (vs : list string) (muv : unique_values) :
  muv_get k (muv_set key vs muv)
  = if String.eqb k key then vs else muv_get k muv.
Proof.
  induction muv as [|[k' old] muv IH]; simpl.
  - now destruct (String.eqb k key).
  - destruct (String.eqb key k') eqn:E; simpl.
    + apply String.eqb_eq in E. subst k'.
      now destruct (String.eqb k key).
    + rewrite IH. destruct (String.eqb k k') eqn:E1; [|reflexivity].
      apply String.eqb_eq in E1. subst k'.
      rewrite String.eqb_sym in E. now rewrite E.
Qed.

Lemma muv_extends_refl (muv : unique_values) : muv_extends muv muv.
Proof.
  split; [|intros k]; exists []; now rewrite app_nil_r.
Qed.

Lemma muv_extends_trans (muv1 muv2 muv3 : unique_values) :
  muv_extends muv1 muv2 -> muv_extends muv2 muv3 -> muv_extends muv1 muv3.
Proof.
  intros [(t1 & Hk1) Hv1] [(t2 & Hk2) Hv2]. split.
  - exists (t1 ++ t2). now rewrite Hk2, Hk1, app_assoc.
  - intros k. destruct (Hv1 k) as (u1 & Hu1). destruct (Hv2 k) as (u2 & Hu2).
    exists (u1 ++ u2). now rewrite Hu2, Hu1, app_assoc.
Qed.

(** What the string branch of the loop over the items does to the unique
    values. *)
Lemma string_branch (key value : string) (muv : unique_values) :
  let muv1 := muv_touch key muv in
  let muv2 :=
    muv_set key (append_if_new String.eqb value (muv_get key muv1)) muv1 in
  muv_extends muv muv2 /\ (muv_nodup muv -> muv_nodup muv2) /\
  In key (map fst muv2) /\
  nth_error (muv_get key muv2) (py_index String.eqb value (muv_get key muv2))
  = Some value.
Proof.
  intros muv1 muv2.
  destruct (append_if_new_spec value (muv_get key muv)) as (tail & Happ & Hin & Hnd).
  assert (Hget : forall k,
             muv_get k muv2
             = if String.eqb k key then muv_get key muv ++ tail
               else muv_get k muv).
  { intros k. unfold muv2, muv1. rewrite muv_get_set, !muv_get_touch, Happ.
    reflexivity. }
  split; [split|split; [|split]].
  - destruct (muv_touch_keys key muv) as (t1 & Ht1).
    destruct (muv_set_keys key
                (append_if_new String.eqb value (muv_get key muv1)) muv1)
      as (t2 & Ht2).
    exists (t1 ++ t2). unfold muv2. rewrite Ht2. unfold muv1.
    now rewrite Ht1, app_assoc.
  - intros k. rewrite Hget. destruct (String.eqb k key) eqn:E.
    + apply String.eqb_eq in E. subst k. exists tail. reflexivity.
    + exists []. now rewrite app_nil_r.
  - intros Hmuv k. rewrite Hget. destruct (String.eqb k key); [|apply Hmuv].
    apply Hnd, Hmuv.
  - destruct (muv_set_keys key
                (append_if_new String.eqb value (muv_get key muv1)) muv1)
      as (t2 & Ht2).
    unfold muv2. rewrite Ht2. apply in_or_app. left.
    apply muv_has_In. unfold muv1, muv_touch.
    destruct (muv_has key muv) eqn:E; [exact E|].
    apply muv_has_In. rewrite map_app. apply in_or_app. right. left. reflexivity.
  - apply py_index_string_In. rewrite Hget, String.eqb_refl. exact Hin.
Qed.

Lemma encode_items_extends (items : list (string * metaval)) :
  forall muv md muv' md',
    encode_items items muv md = Ok (muv', md') ->
    muv_extends muv muv' /\ (muv_nodup muv -> muv_nodup muv').
Proof.
  induction items as [|[key value] items IH]; intros muv md muv' md' H;
    cbn [encode_items] in H.
  - injection H as <- <-. split; [apply muv_extends_refl|auto].
  - destruct (py_in String.eqb key skipped_keys); [exact (IH _ _ _ _ H)|].
    destruct (py_in String.eqb key reserved_keys); [exact (IH _ _ _ _ H)|].
    destruct value as [v|z|q|]; try exact (IH _ _ _ _ H); [|discriminate].
    destruct (IH _ _ _ _ H) as [Hext Hnd].
    destruct (string_branch key v muv) as (Hext0 & Hnd0 & _).
    split; [exact (muv_extends_trans _ _ _ Hext0 Hext)|auto].
Qed.

Lemma dict_get_set_same (key : string) (v : Z) (d : list (string * Z)) :
  dict_get key (dict_set key v d) = Ok v.
Proof.
  induction d as [|[k old] d IH]; simpl.
  - now rewrite String.eqb_refl.
  - destruct (String.eqb key k) eqn:E; simpl.
    + apply String.eqb_eq in E. subst k. now rewrite String.eqb_refl.
    + now rewrite E.
Qed.

Lemma encode_items_get_other (k : string) (items : list (string * metaval)) :
  forall muv md muv' md',
    encode_items items muv md = Ok (muv', md') ->
    ~ In k (map fst items) ->
    dict_get k md' = dict_get k md.
Proof.
  induction items as [|[key value] items IH]; intros muv md muv' md' H Hk;
    cbn [encode_items] in H.
  - now injection H as <- <-.
  - simpl in Hk.
    assert (Hne : String.eqb k key = false).
    { apply String.eqb_neq. intros ->. apply Hk. left. reflexivity. }
    assert (Hk' : ~ In k (map fst items)) by (intros Hin; apply Hk; now right).
    destruct (py_in String.eqb key skipped_keys); [exact (IH _ _ _ _ H Hk')|].
    destruct (py_in String.eqb key reserved_keys); [exact (IH _ _ _ _ H Hk')|].
    destruct value as [v|z|q|]; try exact (IH _ _ _ _ H Hk'); [| |discriminate].
    + rewrite (IH _ _ _ _ H Hk'). exact (dict_get_set_other _ _ _ _ Hne).
    + rewrite (IH _ _ _ _ H Hk'). exact (dict_get_set_other _ _ _ _ Hne).
Qed.

Lemma nth_error_prefix {A : Type} (l tail : list A) (i : nat) (x : A) :
  nth_error l i = Some x -> nth_error (l ++ tail) i = Some x.
Proof.
  intros H. rewrite nth_error_app1; [exact H|].
  apply nth_error_Some. congruence.
Qed.

Lemma encode_items_string (key value : string) (items : list (string * metaval)) :
  encoded_key key ->
  forall muv md muv' md',
    encode_items items muv md = Ok (muv', md') ->
    NoDup (map fst items) ->
    In (key, MStr value) items ->
    exists code,
      dict_get key md' = Ok (Z.of_nat code) /\
      nth_error (muv_get key muv') code = Some value /\
      In key (map fst muv').
Proof.
  intros [Hskip Hres].
  induction items as [|[k v] items IH]; intros muv md muv' md' H Hnd Hin;
    [destruct Hin|].
  inversion Hnd as [|? ? Hnotin Hnd']; subst.
  destruct Hin as [E|Hin].
  - injection E as -> ->. cbn [encode_items] in H. rewrite Hskip, Hres in H.
    destruct (string_branch key value muv) as (_ & _ & Hkey & Hnth).
    destruct (encode_items_extends _ _ _ _ _ H) as [[(kt & Hkeys) Hvals] _].
    destruct (Hvals key) as (vt & Hvt).
    eexists. split; [|split].
    + rewrite (encode_items_get_other key _ _ _ _ _ H Hnotin).
      apply dict_get_set_same.
    + rewrite Hvt. apply nth_error_prefix. exact Hnth.
    + rewrite Hkeys. apply in_or_app. left. exact Hkey.
  - cbn [encode_items] in H.
    destruct (py_in String.eqb k skipped_keys); [exact (IH _ _ _ _ H Hnd' Hin)|].
    destruct (py_in String.eqb k reserved_keys); [exact (IH _ _ _ _ H Hnd' Hin)|].
    destruct v as [v|z|q|]; try exact (IH _ _ _ _ H Hnd' Hin). discriminate.
Qed.

Lemma metadatum_tuple_nth (md : list (string * Z)) (keys : list string) :
  forall row,
    metadatum_tuple keys md = Ok row ->
    forall p k,
      nth_error keys p = Some k ->
      exists v, dict_get k md = Ok v /\ nth_error row p = Some v.
Proof.
  induction keys as [|k0 keys IH]; intros row H p k Hp.
  - destruct p; discriminate.
  - simpl in H. apply bind_ok in H. destruct H as (v & Hv & H).
    apply bind_ok in H. destruct H as (vs & Hvs & H). injection H as <-.
    destruct p as [|p]; simpl in *.
    + injection Hp as <-. exists v. auto.
    + exact (IH _ Hvs p k Hp).
Qed.

Lemma encode_metadata_extends (f : ProtocolFile) (muv muv' : unique_values)
  (row : list Z) :
  encode_metadata f muv = Ok (muv', row) ->
  muv_extends muv muv' /\ (muv_nodup muv -> muv_nodup muv').
Proof.
  unfold encode_metadata. intros H.
  apply bind_ok in H. destruct H as ([muv1 md] & Henc & H).
  apply bind_ok in H. destruct H as (row1 & _ & H). injection H as <- <-.
  exact (encode_items_extends _ _ _ _ _ Henc).
Qed.

Lemma encode_metadata_string (key value : string) (f : ProtocolFile)
  (muv muv' : unique_values) (row : list Z) :
  encoded_key key ->
  encode_metadata f muv = Ok (muv', row) ->
  NoDup (map fst (f_items f)) ->
  In (key, MStr value) (f_items f) ->
  exists code,
    nth_error row (py_index String.eqb key (map fst muv'))
    = Some (Z.of_nat code) /\
    nth_error (muv_get key muv') code = Some value /\
    In key (map fst muv').
Proof.
  unfold encode_metadata. intros Hkey H Hnd Hin.
  apply bind_ok in H. destruct H as ([muv1 md] & Henc & H).
  apply bind_ok in H. destruct H as (row1 & Hrow & H). injection H as <- <-.
  destruct (encode_items_string key value _ Hkey _ _ _ _ Henc Hnd Hin)
    as (code & Hget & Hnth & Hk).
  destruct (metadatum_tuple_nth _ _ _ Hrow _ key (py_index_string_In _ _ Hk))
    as (v & Hv & Hp).
  rewrite Hget in Hv. injection Hv as <-.
  exists code. auto.
Qed.

Lemma setup_loop_extends (duration : Q) (files : list ProtocolFile) :
  forall file_id s s',
    setup_loop duration file_id files s = Ok s' ->
    muv_extends (ls_unique_values s) (ls_unique_values s') /\
    (muv_nodup (ls_unique_values s) -> muv_nodup (ls_unique_values s')) /\
    exists rows,
      ls_metadata s' = ls_metadata s ++ rows /\
      List.length rows = List.length files.
Proof.
  induction files as [|f files IH]; intros file_id s s' H; simpl in H.
  - injection H as <-. split; [apply muv_extends_refl|]. split; [auto|].
    exists []. now rewrite app_nil_r.
  - apply bind_ok in H. destruct H as (s1 & Hfile & Hloop).
    apply setup_file_spec in Hfile.
    destruct Hfile as (muv & row & total & new & Henc & Hmuv & Hmeta & _).
    destruct (encode_metadata_extends _ _ _ _ Henc) as [Hext Hnd].
    rewrite <- Hmuv in Hext, Hnd.
    destruct (IH _ _ _ Hloop) as (Hext' & Hnd' & rows & Hrows & Hlen).
    split; [exact (muv_extends_trans _ _ _ Hext Hext')|]. split; [auto|].
    exists (row :: rows). split; [|simpl; now rewrite Hlen].
    now rewrite Hrows, Hmeta, <- app_assoc.
Qed.

Lemma setup_loop_string (key value : string) (duration : Q)
  (files : list ProtocolFile) :
  encoded_key key ->
  forall i file_id s s' f,
    setup_loop duration file_id files s = Ok s' ->
    nth_error files i = Some f ->
    NoDup (map fst (f_items f)) ->
    In (key, MStr value) (f_items f) ->
    exists row code,
      nth_error (ls_metadata s') (List.length (ls_metadata s) + i) = Some row /\
      nth_error row (py_index String.eqb key (map fst (ls_unique_values s')))
      = Some (Z.of_nat code) /\
      nth_error (muv_get key (ls_unique_values s')) code = Some value /\
      In key (map fst (ls_unique_values s')).
Proof.
  intros Hkey.
  induction files as [|f0 files IH]; intros i file_id s s' f H Hi Hnd Hin.
  - destruct i; discriminate.
  - simpl in H. apply bind_ok in H. destruct H as (s1 & Hfile & Hloop).
    apply setup_file_spec in Hfile.
    destruct Hfile as (muv & row & total & new & Henc & Hmuv & Hmeta & _).
    destruct i as [|i]; simpl in Hi.
    + injection Hi as ->.
      destruct (encode_metadata_string key value _ _ _ _ Hkey Henc Hnd Hin)
        as (code & Hrow & Hval & Hk).
      destruct (setup_loop_extends _ _ _ _ _ Hloop)
        as ([(kt & Hkeys) Hvals] & _ & rows & Hrows & _).
      destruct (Hvals key) as (vt & Hvt).
      rewrite Hmuv in Hkeys, Hvt.
      exists row, code. split; [|split; [|split]].
      * rewrite Hrows, Hmeta, <- app_assoc, Nat.add_0_r.
        rewrite nth_error_app2 by lia. now rewrite Nat.sub_diag.
      * rewrite Hkeys, (py_index_string_app _ _ _ Hk). exact Hrow.
      * rewrite Hvt. apply nth_error_prefix. exact Hval.
      * rewrite Hkeys. apply in_or_app. now left.
    + destruct (IH i _ _ _ f Hloop Hi Hnd Hin) as (r & code & Hr & H1 & H2 & H3).
      exists r, code. split; [|auto].
      rewrite Hmeta, length_app in Hr. simpl in Hr.
      replace (List.length (ls_metadata s) + S i)%nat
        with (List.length (ls_metadata s) + 1 + i)%nat by lia.
      exact Hr.
Qed.

Lemma initial_nodup : muv_nodup (ls_unique_values initial_state).
Proof.
  intros k. simpl.
  destruct (String.eqb k "scope"); [|destruct (String.eqb k "subset")];
    repeat constructor; simpl; intuition discriminate.
Qed.

(** On the index of [setup], the column of a key holds, for a file whose
    value under this key is a string, the position of this string in the
    unique values of the key, and these values are distinct: the code of a
    file decodes to its value, and two files have the same code exactly when
    they have the same string. *)
Theorem setup_metadata_decodes
  (duration : Q) (has_validation : bool)
  (protocol_train protocol_development : list ProtocolFile) (ix : Index)
  (file_id : nat) (f : ProtocolFile) (key value : string) :
  setup duration has_validation protocol_train protocol_development = Ok ix ->
  nth_error (files_iter has_validation protocol_train protocol_development)
    file_id = Some f ->
  NoDup (map fst (f_items f)) ->
  In (key, MStr value) (f_items f) ->
  encoded_key key ->
  exists col code,
    metadata_column key (metadata_unique_values ix) (metadata ix) = Ok col /\
    nth_error col file_id = Some (Z.of_nat code) /\
    nth_error (muv_get key (metadata_unique_values ix)) code = Some value /\
    NoDup (muv_get key (metadata_unique_values ix)).
Proof.
  intros Hsetup Hf Hnd Hin Hkey.
  destruct (setup_inv _ _ _ _ _ Hsetup) as (s & Hloop & Hmuv & Hmeta & _).
  destruct (setup_loop_string key value _ _ Hkey _ _ _ _ _ Hloop Hf Hnd Hin)
    as (row & code & Hrow & Hcode & Hval & Hk).
  destruct (setup_loop_extends _ _ _ _ _ Hloop) as (_ & Hnodup & _).
  simpl in Hrow. rewrite Hmuv, Hmeta.
  exists (map (fun r =>
                 nth (py_index String.eqb key (map fst (ls_unique_values s))) r 0)
            (ls_metadata s)), code.
  split; [|split; [|split]].
  - unfold metadata_column, field_position.
    rewrite (proj2 (muv_has_In _ _) Hk). reflexivity.
  - rewrite nth_error_map, Hrow. simpl. f_equal.
    exact (nth_error_nth _ _ 0 Hcode).
  - exact Hval.
  - apply Hnodup. exact initial_nodup.
Qed.

Lemma setup_metadata_decodes_witness :
  exists col code,
    metadata_column "domain" (metadata_unique_values domain_index)
      (metadata domain_index) = Ok col /\
    nth_error col 1 = Some (Z.of_nat code) /\
    nth_error (muv_get "domain" (metadata_unique_values domain_index)) code
    = Some "B"%string.
Proof.
  destruct (setup_metadata_decodes 4 false domain_files [] domain_index 1
              (mkFile train file [("domain"%string, MStr "B"%string)]
                 [mkSegment 0 10 10] [(mkSegment 1 9 8, "spk2"%string)])
              "domain" "B")
    as (col & code & Hcol & Hnth & Hval & _).
  - reflexivity.
  - reflexivity.
  - repeat constructor. intros [].
  - left. reflexivity.
  - split; reflexivity.
  - exists col, code. auto.
Defined.

(** ** The fields of the metadata *)

Lemma muv_has_app (k : string) (muv tail : unique_values) :
  muv_has k (muv ++ tail) = muv_has k muv || muv_has k tail.
Proof.
  induction muv as [|[k' vs] muv IH]; simpl; [reflexivity|].
  now rewrite IH, orb_assoc.
Qed.

Lemma muv_has_touch (k key : string) (muv : unique_values) :
  muv_has k (muv_touch key muv) = muv_has k muv || String.eqb k key.
Proof.
  unfold muv_touch. destruct (muv_has key muv) eqn:E.
  - destruct (String.eqb k key) eqn:Ek; [|now rewrite orb_false_r].
    apply String.eqb_eq in Ek. subst k. now rewrite E.
  - rewrite muv_has_app. simpl. now rewrite orb_false_r.
Qed.

Lemma muv_has_set (k key : string) (vs : list string) (muv : unique_values) :
  muv_has k (muv_set key vs muv) = muv_has k muv || String.eqb k key.
Proof.
  induction muv as [|[k' old] muv IH]; simpl.
  - now rewrite orb_false_r.
  - destruct (String.eqb key k') eqn:E; simpl.
    + apply String.eqb_eq in E. subst k'.
      destruct (String.eqb k key); [reflexivity|now rewrite orb_false_r].
    + now rewrite IH, orb_assoc.
Qed.

Lemma encode_items_fields (items : list (string * metaval)) :
  forall muv md muv' md',
    encode_items items muv md = Ok (muv', md') ->
    forall key,
      muv_has key muv' = true <->
      muv_has key muv = true \/
      (encoded_key key /\ exists value, In (key, MStr value) items).
Proof.
  induction items as [|[k v] items IH]; intros muv md muv' md' H key;
    cbn [encode_items] in H.
  - injection H as <- <-. split; [auto|].
    intros [H|(_ & value & [])]. exact H.
  - assert (Hskip_item :
      forall md0,
      encode_items items muv md0 = Ok (muv', md') ->
      (forall value, v = MStr value -> ~ encoded_key k) ->
      muv_has key muv' = true <->
      muv_has key muv = true \/
      (encoded_key key /\ exists value, In (key, MStr value) ((k, v) :: items))).
    { intros md0 H' Hv. rewrite (IH _ _ _ _ H' key). split.
      - intros [Hm|(Hk & value & Hin)]; [auto|].
        right. split; [exact Hk|]. exists value. now right.
      - intros [Hm|(Hk & value & [E|Hin])]; [auto| |].
        + injection E as -> ->. exfalso. exact (Hv value eq_refl Hk).
        + right. split; [exact Hk|]. now exists value. }
    destruct (py_in String.eqb k skipped_keys) eqn:Hskip.
    { apply (Hskip_item _ H). intros value _ [Hs _]. congruence. }
    destruct (py_in String.eqb k reserved_keys) eqn:Hres.
    { apply (Hskip_item _ H). intros value _ [_ Hr]. congruence. }
    destruct v as [v|z|q|]; [| | |discriminate].
    + rewrite (IH _ _ _ _ H key), muv_has_set, muv_has_touch, <- orb_assoc,
        orb_diag, orb_true_iff, String.eqb_eq.
      split.
      * intros [[Hm| ->]|(Hk & value & Hin)].
        -- now left.
        -- right. split; [split; assumption|]. exists v. now left.
        -- right. split; [exact Hk|]. exists value. now right.
      * intros [Hm|(Hk & value & [E|Hin])].
        -- left. now left.
        -- injection E as -> _. left. now right.
        -- right. split; [exact Hk|]. now exists value.
    + apply (Hskip_item _ H). intros value E. discriminate E.
    + apply (Hskip_item _ H). intros value E. discriminate E.
Qed.

Lemma setup_loop_fields (duration : Q) (files : list ProtocolFile) :
  forall file_id s s',
    setup_loop duration file_id files s = Ok s' ->
    forall key,
      muv_has key (ls_unique_values s') = true <->
      muv_has key (ls_unique_values s) = true \/
      (encoded_key key /\
       exists f value, In f files /\ In (key, MStr value) (f_items f)).
Proof.
  induction files as [|f files IH]; intros file_id s s' H key; simpl in H.
  - injection H as <-. split; [auto|].
    intros [H|(_ & f & value & [] & _)]. exact H.
  - apply bind_ok in H. destruct H as (s1 & Hfile & Hloop).
    apply setup_file_spec in Hfile.
    destruct Hfile as (muv & row & total & new & Henc & Hmuv & _).
    unfold encode_metadata in Henc.
    apply bind_ok in Henc. destruct Henc as ([muv1 md] & Henc & Hrow).
    apply bind_ok in Hrow. destruct Hrow as (row1 & _ & Hrow).
    injection Hrow as <- <-.
    rewrite (IH _ _ _ Hloop key), Hmuv, (encode_items_fields _ _ _ _ _ Henc key).
    split.
    + intros [[Hm|(Hk & value & Hin)]|(Hk & f' & value & Hf' & Hin)].
      * now left.
      * right. split; [exact Hk|]. exists f, value. split; [now left|exact Hin].
      * right. split; [exact Hk|]. exists f', value. split; [now right|exact Hin].
    + intros [Hm|(Hk & f' & value & [<-|Hf'] & Hin)].
      * left. now left.
      * left. right. split; [exact Hk|]. now exists value.
      * right. split; [exact Hk|]. now exists f', value.
Qed.

Lemma setup_fields (duration : Q) (has_validation : bool)
  (protocol_train protocol_development : list ProtocolFile) (ix : Index)
  (key : string) :
  setup duration has_validation protocol_train protocol_development = Ok ix ->
  muv_has key (metadata_unique_values ix) = true <->
  key = "scope"%string \/ key = "subset"%string \/
  (encoded_key key /\
   exists f value,
     In f (files_iter has_validation protocol_train protocol_development) /\
     In (key, MStr value) (f_items f)).
Proof.
  intros Hsetup.
  destruct (setup_inv _ _ _ _ _ Hsetup) as (s & Hloop & Hmuv & _).
  rewrite Hmuv, (setup_loop_fields _ _ _ _ _ Hloop key). simpl.
  rewrite !orb_true_iff, !String.eqb_eq. intuition discriminate.
Qed.

(** The fields of the metadata array [setup] builds are [scope], [subset]
    and the keys under which some file has a string: a key under which the
    files only have integers is no field, although its values are put in
    the dictionary of every file. *)
Theorem setup_fields_are_string_keys
  (duration : Q) (has_validation : bool)
  (protocol_train protocol_development : list ProtocolFile) (ix : Index)
  (key : string) :
  setup duration has_validation protocol_train protocol_development = Ok ix ->
  (exists col,
      metadata_column key (metadata_unique_values ix) (metadata ix) = Ok col) <->
  key = "scope"%string \/ key = "subset"%string \/
  (encoded_key key /\
   exists f value,
     In f (files_iter has_validation protocol_train protocol_development) /\
     In (key, MStr value) (f_items f)).
Proof.
  intros Hsetup. rewrite <- (setup_fields _ _ _ _ _ key Hsetup).
  unfold metadata_column, field_position.
  destruct (muv_has key (metadata_unique_values ix)); simpl.
  - split; [reflexivity|]. intros _. eexists. reflexivity.
  - split; [intros (col & H)|]; discriminate.
Qed.

Lemma setup_fields_are_string_keys_witness :
  exists col,
    metadata_column "domain" (metadata_unique_values domain_index)
      (metadata domain_index) = Ok col.
Proof.
  apply (setup_fields_are_string_keys 4 false domain_files [] domain_index
           "domain" eq_refl).
  right. right. split; [split; reflexivity|].
  exists (mkFile train file [("domain"%string, MStr "A"%string)]
            [mkSegment 0 10 10] [(mkSegment 2 5 3, "spk1"%string)]), "A"%string.
  split; left; reflexivity.
Defined.

(** ** The filters of the helper *)

Lemma apply_filters_fields
  (np_equal_sequence : list Z -> list pyval -> result (list bool))
  (ix : Index) (filters : list (string * pyval)) :
  forall training mask,
    apply_filters np_equal_sequence ix filters training = Ok mask ->
    forall key value,
      In (key, value) filters ->
      muv_has key (metadata_unique_values ix) = true.
Proof.
  induction filters as [|[k v] filters IH]; intros training mask H key value Hin;
    [destruct Hin|].
  simpl in H. apply bind_ok in H. destruct H as (col & Hcol & H).
  apply bind_ok in H. destruct H as (m & _ & H).
  destruct Hin as [E|Hin]; [|exact (IH _ _ H key value Hin)].
  injection E as -> ->. unfold metadata_column, field_position in Hcol.
  destruct (muv_has key (metadata_unique_values ix)); [reflexivity|discriminate].
Qed.

(** On the index of [setup], the helper gets to its loop only when every
    key of its filters is [scope], [subset] or a key under which some file
    has a string: filtering on a key whose values are integers raises. *)
Theorem helper_filters_need_string_keys
  (np_equal_sequence : list Z -> list pyval -> result (list bool))
  (chunk_duration : Q) (has_validation : bool)
  (protocol_train protocol_development : list ProtocolFile)
  (t : Task) (filters : list (string * pyval)) (s : HelperState)
  (key : string) (value : pyval) :
  setup chunk_duration has_validation protocol_train protocol_development
  = Ok (index t) ->
  train__iter__helper_start np_equal_sequence t filters = Ok s ->
  In (key, value) filters ->
  key = "scope"%string \/ key = "subset"%string \/
  (encoded_key key /\
   exists f v,
     In f (files_iter has_validation protocol_train protocol_development) /\
     In (key, MStr v) (f_items f)).
Proof.
  intros Hsetup Hstart Hin.
  apply (setup_fields _ _ _ _ _ key Hsetup).
  unfold train__iter__helper_start, training_file_ids in Hstart.
  apply bind_ok in Hstart. destruct Hstart as (ids & Hids & _).
  apply bind_ok in Hids. destruct Hids as (subset & _ & Hids).
  apply bind_ok in Hids. destruct Hids as (training & Hfilters & _).
  exact (apply_filters_fields _ _ _ _ _ Hfilters key value Hin).
Qed.

Lemma helper_filters_need_string_keys_witness :
  "domain"%string = "scope"%string \/ "domain"%string = "subset"%string \/
  (encoded_key "domain" /\
   exists f v, In f domain_files /\ In ("domain"%string, MStr v) (f_items f)).
Proof.
  apply (helper_filters_need_string_keys no_sequence_filter 4 false
           domain_files [] (mkTask domain_index 4 1 None)
           [("domain"%string, PInt 1)]
           (mkHelperState [1%nat] (normalize [10]%Q) O O)
           "domain" (PInt 1)).
  - reflexivity.
  - reflexivity.
  - left. reflexivity.
Defined.

Lemma and_mask_false_l (m1 m2 : list bool) :
  Forall (eq false) m1 -> Forall (eq false) (and_mask m1 m2).
Proof.
  intros H. revert m2. induction H as [|b m1 <- Hm IH]; intros [|b2 m2]; simpl;
    constructor; auto.
Qed.

Lemma and_mask_false_r (m1 m2 : list bool) :
  Forall (eq false) m2 -> Forall (eq false) (and_mask m1 m2).
Proof.
  intros H. revert m1. induction H as [|b m2 <- Hm IH]; intros [|b1 m1]; simpl;
    constructor; auto using andb_false_r.
Qed.

Lemma np_where_from_false (mask : list bool) :
  Forall (eq false) mask -> forall i, np_where_from i mask = [].
Proof.
  induction 1 as [|b mask <- Hm IH]; intros i; simpl; auto.
Qed.

Lemma apply_filters_false
  (np_equal_sequence : list Z -> list pyval -> result (list bool))
  (ix : Index) (filters : list (string * pyval)) :
  forall training mask,
    apply_filters np_equal_sequence ix filters training = Ok mask ->
    Forall (eq false) training \/ (exists key value, In (key, PStr value) filters) ->
    Forall (eq false) mask.
Proof.
  induction filters as [|[k v] filters IH]; intros training mask H Hor.
  - simpl in H. injection H as <-.
    destruct Hor as [Hf|(key & value & [])]. exact Hf.
  - simpl in H. apply bind_ok in H. destruct H as (col & Hcol & H).
    apply bind_ok in H. destruct H as (m & Hm & H).
    destruct Hor as [Hf|(key & value & [E|Hin])].
    + apply (IH _ _ H). left. apply and_mask_false_l. exact Hf.
    + injection E as -> ->. simpl in Hm. injection Hm as <-.
      apply (IH _ _ H). left. apply and_mask_false_r.
      apply Forall_forall. intros b Hb. apply in_map_iff in Hb.
      now destruct Hb as (c & <- & _).
    + apply (IH _ _ H). right. now exists key, value.
Qed.

(** A filter whose value is a string is compared with the integer codes
    of the column and matches no file: a helper with such a filter starts
    with no file at all, and raises [ValueError] when it draws a file. *)
Theorem string_filter_matches_no_file
  (np_equal_sequence : list Z -> list pyval -> result (list bool))
  (t : Task) (filters : list (string * pyval)) (s : HelperState)
  (key value : string) (d : Draw) :
  In (key, PStr value) filters ->
  train__iter__helper_start np_equal_sequence t filters = Ok s ->
  file_ids s = [] /\ train__iter__helper_next t s d = Throw ValueError.
Proof.
  intros Hin Hstart.
  unfold train__iter__helper_start, training_file_ids in Hstart.
  apply bind_ok in Hstart. destruct Hstart as (ids & Hids & Hstart).
  apply bind_ok in Hstart. destruct Hstart as (durations & _ & Hstart).
  apply bind_ok in Hids. destruct Hids as (subset & _ & Hids).
  apply bind_ok in Hids. destruct Hids as (training & Hfilters & Hids).
  injection Hids as <-. injection Hstart as <-.
  assert (Hnone : np_where training = []).
  { apply np_where_from_false.
    apply (apply_filters_false _ _ _ _ _ Hfilters).
    right. now exists key, value. }
  rewrite Hnone. split; reflexivity.
Qed.

Lemma string_filter_matches_no_file_witness :
  file_ids (mkHelperState [] (normalize []) O O) = [] /\
  train__iter__helper_next (mkTask domain_index 4 1 None)
    (mkHelperState [] (normalize []) O O) (mkDraw 0 0 0 0)
  = Throw ValueError.
Proof.
  apply (string_filter_matches_no_file no_sequence_filter
           (mkTask domain_index 4 1 None)
           [("domain"%string, PStr "A"%string)]
           (mkHelperState [] (normalize []) O O) "domain" "A").
  - left. reflexivity.
  - reflexivity.
Defined.

(** ** The metadata of a sample *)

Lemma setup_row_string (duration : Q) (has_validation : bool)
  (protocol_train protocol_development : list ProtocolFile) (ix : Index)
  (file_id : nat) (f : ProtocolFile) (key value : string) :
  setup duration has_validation protocol_train protocol_development = Ok ix ->
  nth_error (files_iter has_validation protocol_train protocol_development)
    file_id = Some f ->
  NoDup (map fst (f_items f)) ->
  In (key, MStr value) (f_items f) ->
  encoded_key key ->
  exists row code,
    nth_error (metadata ix) file_id = Some row /\
    nth_error row (py_index String.eqb key (map fst (metadata_unique_values ix)))
    = Some (Z.of_nat code) /\
    nth_error (muv_get key (metadata_unique_values ix)) code = Some value /\
    In key (map fst (metadata_unique_values ix)).
Proof.
  intros Hsetup Hf Hnd Hin Hkey.
  destruct (setup_inv _ _ _ _ _ Hsetup) as (s & Hloop & Hmuv & Hmeta & _).
  destruct (setup_loop_string key value _ _ Hkey _ _ _ _ _ Hloop Hf Hnd Hin)
    as (row & code & Hrow & Hcode & Hval & Hk).
  simpl in Hrow. rewrite Hmuv, Hmeta. exists row, code. auto.
Qed.

Lemma dict_get_combine (key : string) (v : Z) (keys : list string) :
  forall row,
    nth_error row (py_index String.eqb key keys) = Some v ->
    In key keys ->
    dict_get key (combine keys row) = Ok v.
Proof.
  induction keys as [|k keys IH]; intros row Hnth Hin; [destruct Hin|].
  destruct row as [|v0 row]; simpl in *.
  - destruct (String.eqb key k); discriminate.
  - destruct (String.eqb key k) eqn:E.
    + now injection Hnth as ->.
    + apply String.eqb_neq in E. destruct Hin as [->|Hin]; [contradiction|].
      exact (IH _ Hnth Hin).
Qed.

Lemma prepare_chunk_meta (nonfinite_int : Z) (ix : Index)
  (num_frames file_id : nat) (start_time duration : Q) (smp : Sample) :
  prepare_chunk nonfinite_int ix num_frames file_id start_time duration = Ok smp ->
  exists row,
    nth_error (metadata ix) file_id = Some row /\
    meta smp
    = dict_set "file" (Z.of_nat file_id)
        (combine (map fst (metadata_unique_values ix)) row).
Proof.
  unfold prepare_chunk. intros H.
  apply bind_ok in H. destruct H as (row & Hrow & H).
  apply bind_ok in H. destruct H as (scope & _ & H).
  destruct (Nat.eqb num_frames O); [discriminate|]. injection H as <-.
  unfold np_row in Hrow. destruct (nth_error (metadata ix) file_id) as [r|];
    [|discriminate].
  injection Hrow as ->. exists row. split; reflexivity.
Qed.

(** The [meta] of a sample of [prepare_chunk] on the index of [setup]:
    [file] is the index of the file, also when the file has a key of that
    name; [scope] and [subset] are the codes of the scope and of the subset
    of the file; and under any other key whose value in the file is a
    string, the position of this string in the unique values of the key. *)
Theorem sample_meta_decodes
  (nonfinite_int : Z) (chunk_duration : Q) (has_validation : bool)
  (protocol_train protocol_development : list ProtocolFile) (ix : Index)
  (num_frames file_id : nat) (f : ProtocolFile) (start_time duration : Q)
  (smp : Sample) :
  setup chunk_duration has_validation protocol_train protocol_development = Ok ix ->
  nth_error (files_iter has_validation protocol_train protocol_development)
    file_id = Some f ->
  prepare_chunk nonfinite_int ix num_frames file_id start_time duration = Ok smp ->
  dict_get "file" (meta smp) = Ok (Z.of_nat file_id) /\
  dict_get "scope" (meta smp) = Ok (Scopes_index (f_scope f)) /\
  dict_get "subset" (meta smp) = Ok (Subsets_index (f_subset f)) /\
  forall key value,
    NoDup (map fst (f_items f)) ->
    In (key, MStr value) (f_items f) ->
    encoded_key key -> key <> "file"%string ->
    exists code,
      dict_get key (meta smp) = Ok (Z.of_nat code) /\
      nth_error (muv_get key (metadata_unique_values ix)) code = Some value.
Proof.
  intros Hsetup Hf Hprep.
  destruct (prepare_chunk_meta _ _ _ _ _ _ _ Hprep) as (row & Hrow & Hmeta).
  rewrite Hmeta.
  destruct (setup_metadata _ _ _ _ _ Hsetup) as [(rest & Hkeys) Hrows].
  destruct (Forall2_nth_error _ _ _ Hrows file_id f Hf) as (row' & Hrow' & tail & E).
  rewrite Hrow in Hrow'. injection Hrow' as <-.
  split; [apply dict_get_set_same|]. split; [|split].
  - rewrite dict_get_set_other by reflexivity. rewrite Hkeys, E. reflexivity.
  - rewrite dict_get_set_other by reflexivity. rewrite Hkeys, E. reflexivity.
  - intros key value Hnd Hin Hkey Hne.
    destruct (setup_row_string _ _ _ _ _ _ _ _ _ Hsetup Hf Hnd Hin Hkey)
      as (r & code & Hr & Hcode & Hval & Hk).
    rewrite Hrow in Hr. injection Hr as <-.
    exists code. split; [|exact Hval].
    rewrite dict_get_set_other by (apply String.eqb_neq; exact Hne).
    exact (dict_get_combine _ _ _ _ Hcode Hk).
Qed.

Lemma sample_meta_decodes_witness :
  exists smp,
    prepare_chunk 0 domain_index 8 1 2 4 = Ok smp /\
    dict_get "file" (meta smp) = Ok 1 /\
    dict_get "scope" (meta smp) = Ok 0 /\
    dict_get "subset" (meta smp) = Ok 0.
Proof.
  eexists. split; [reflexivity|].
  destruct (sample_meta_decodes 0 4 false domain_files [] domain_index 8 1
              (mkFile train file [("domain"%string, MStr "B"%string)]
                 [mkSegment 0 10 10] [(mkSegment 1 9 8, "spk2"%string)])
              2 4 _ eq_refl eq_refl eq_refl)
    as (Hfile & Hscope & Hsubset & _).
  split; [exact Hfile|]. split; [exact Hscope|exact Hsubset].
Defined.

(** ** The validation set *)

Lemma extend_each_In {A B : Type} (body : A -> result (list B)) (l : list A) :
  forall ys,
    extend_each body l = Ok ys ->
    (forall x, In x l -> exists zs, body x = Ok zs) /\
    (forall y, In y ys -> exists x zs, In x l /\ body x = Ok zs /\ In y zs).
Proof.
  induction l as [|x l IH]; intros ys H; simpl in H.
  - injection H as <-. split; [intros x []|intros y []].
  - apply bind_ok in H. destruct H as (zs & Hzs & H).
    apply bind_ok in H. destruct H as (rest & Hrest & H). injection H as <-.
    destruct (IH _ Hrest) as [Hall Hin]. split.
    + intros x' [<-|Hx']; [now exists zs|exact (Hall x' Hx')].
    + intros y Hy. apply in_app_or in Hy. destruct Hy as [Hy|Hy].
      * exists x, zs. split; [now left|auto].
      * destruct (Hin y Hy) as (x' & zs' & Hx' & Hb & Hy').
        exists x', zs'. split; [now right|auto].
Qed.

Lemma setup_validation_loop (duration : Q)
  (protocol_train protocol_development : list ProtocolFile) (ix : Index) :
  setup duration true protocol_train protocol_development = Ok ix ->
  extend_each
    (fun file_id =>
       extend_each (region_chunks duration file_id)
         (regions_of_file (annotated_regions ix) file_id))
    (development_file_ids (protocol_train ++ protocol_development))
  = Ok (validation_chunks ix).
Proof.
  intros Hsetup.
  destruct (setup_inv _ _ _ _ _ Hsetup)
    as (s & Hloop & _ & _ & _ & Hreg & _ & _ & Htile).
  destruct (setup_loop_metadata _ _ _ _ _ initial_keys_prefix Hloop)
    as (Hpre & rows & Hrows & Hall).
  simpl in Hrows. unfold files_iter in Hall.
  unfold tile_validation, metadata_column in Htile.
  destruct (field_position_prefix _ Hpre) as [_ Hpos].
  rewrite Hpos in Htile. cbn [bind] in Htile.
  rewrite Hrows, (subset_column _ _ Hall), map_map in Htile.
  rewrite (map_ext _ (fun f => Subset_eqb (f_subset f) development)) in Htile
    by (intros f; apply Subsets_index_eqb).
  rewrite np_where_map in Htile. rewrite Hreg. exact Htile.
Qed.

Lemma development_file_ids_In (files : list ProtocolFile) (file_id : nat) :
  In file_id (development_file_ids files) <->
  exists f, nth_error files file_id = Some f /\ f_subset f = development.
Proof.
  unfold development_file_ids. rewrite filter_In, in_seq. split.
  - intros [_ H]. destruct (nth_error files file_id) as [f|]; [|discriminate].
    exists f. split; [reflexivity|]. now destruct (f_subset f).
  - intros (f & Hf & Hsub). rewrite Hf, Hsub. split; [|reflexivity].
    assert (file_id < List.length files)%nat by (apply nth_error_Some; congruence).
    lia.
Qed.

Lemma validation_chunk_source (duration : Q)
  (protocol_train protocol_development : list ProtocolFile) (ix : Index)
  (c : Chunk) :
  setup duration true protocol_train protocol_development = Ok ix ->
  In c (validation_chunks ix) ->
  c_duration c = duration /\
  exists f,
    nth_error (protocol_train ++ protocol_development) (c_file_id c) = Some f /\
    f_subset f = development.
Proof.
  intros Hsetup Hc.
  pose proof (setup_validation_loop _ _ _ _ Hsetup) as Hloop.
  destruct (extend_each_In _ _ _ Hloop) as [_ Hin].
  destruct (Hin c Hc) as (file_id & cs & Hid & Hcs & Hc1).
  destruct (extend_each_In _ _ _ Hcs) as [_ Hin1].
  destruct (Hin1 c Hc1) as (region & cs1 & _ & Hchunks & Hc2).
  unfold region_chunks in Hchunks.
  apply bind_ok in Hchunks. destruct Hchunks as (n & _ & Hchunks).
  injection Hchunks as <-. apply in_map_iff in Hc2.
  destruct Hc2 as (k & <- & _). simpl.
  split; [reflexivity|]. apply development_file_ids_In. exact Hid.
Qed.

Lemma py_getitem_in_range {A : Type} (l : list A) (i : Z) :
  - Z.of_nat (List.length l) <= i < Z.of_nat (List.length l) ->
  exists x, py_getitem l i = Ok x /\ In x l.
Proof.
  intros Hi. unfold py_getitem.
  set (j := if i <? 0 then i + Z.of_nat (List.length l) else i).
  assert (Hj : 0 <= j < Z.of_nat (List.length l)).
  { unfold j. destruct (i <? 0) eqn:E; [apply Z.ltb_lt in E|apply Z.ltb_ge in E];
      lia. }
  assert (E1 : (j <? 0) = false) by (apply Z.ltb_ge; lia).
  assert (E2 : (Z.of_nat (List.length l) <=? j) = false) by (apply Z.leb_gt; lia).
  rewrite E1, E2. simpl.
  destruct (nth_error l (Z.to_nat j)) as [x|] eqn:E.
  - exists x. split; [reflexivity|exact (nth_error_In _ _ E)].
  - apply nth_error_None in E. lia.
Qed.

Lemma py_getitem_out_of_range {A : Type} (l : list A) (i : Z) :
  i < - Z.of_nat (List.length l) \/ Z.of_nat (List.length l) <= i ->
  py_getitem l i = Raise IndexError.
Proof.
  intros Hi. unfold py_getitem.
  destruct (i <? 0) eqn:E; [apply Z.ltb_lt in E|apply Z.ltb_ge in E].
  - assert (E1 : (i + Z.of_nat (List.length l) <? 0) = true)
      by (apply Z.ltb_lt; lia).
    now rewrite E1.
  - assert (E1 : (Z.of_nat (List.length l) <=? i) = true)
      by (apply Z.leb_le; lia).
    rewrite E1. now rewrite orb_true_r.
Qed.

Lemma prepare_chunk_defined
  (nonfinite_int : Z) (chunk_duration : Q) (has_validation : bool)
  (protocol_train protocol_development : list ProtocolFile) (ix : Index)
  (num_frames file_id : nat) (f : ProtocolFile) (start_time duration : Q) :
  setup chunk_duration has_validation protocol_train protocol_development = Ok ix ->
  nth_error (files_iter has_validation protocol_train protocol_development)
    file_id = Some f ->
  num_frames <> O ->
  exists smp,
    prepare_chunk nonfinite_int ix num_frames file_id start_time duration = Ok smp.
Proof.
  intros Hsetup Hf Hn.
  destruct (setup_metadata _ _ _ _ _ Hsetup) as [Hpre Hrows].
  destruct (Forall2_nth_error _ _ _ Hrows file_id f Hf) as (row & Hrow & rest & ->).
  destruct (field_position_prefix _ Hpre) as [Hpos _].
  unfold prepare_chunk, file_scope, np_row. rewrite Hrow. cbn [bind].
  rewrite Hpos. cbn [bind nth]. rewrite py_getitem_Scopes. cbn [bind].
  destruct (Nat.eqb num_frames O) eqn:E.
  - apply Nat.eqb_eq in E. contradiction.
  - eexists. reflexivity.
Qed.



(** With a validation set, the tiling divides by the chunk duration: for
    the default duration 0, [setup] raises as soon as a file of the
    development subset has an annotated segment (of a duration that is not
    negative). *)
Theorem setup_zero_duration_validation_raises
  (duration : Q) (protocol_train protocol_development : list ProtocolFile)
  (file_id : nat) (f : ProtocolFile) (segment : Segment) :
  (duration == 0)%Q ->
  nth_error (protocol_train ++ protocol_development) file_id = Some f ->
  f_subset f = development ->
  In segment (f_annotated f) ->
  (0 <= seg_duration segment)%Q ->
  exists e, setup duration true protocol_train protocol_development = Raise e.
Proof.
  intros Hd Hf Hsub Hseg Hpos.
  destruct (setup duration true protocol_train protocol_development)
    as [ix|e] eqn:Hsetup; [exfalso|now exists e].
  pose proof (setup_validation_loop _ _ _ _ Hsetup) as Hloop.
  destruct (extend_each_In _ _ _ Hloop) as [Hfiles _].
  destruct (Hfiles file_id) as (cs & Hcs).
  { apply development_file_ids_In. now exists f. }
  destruct (setup_arrays _ _ _ _ _ Hsetup) as [Hreg _].
  rewrite Hreg, regions_of_file_from in Hcs. simpl Nat.leb in Hcs. cbn iota in Hcs.
  rewrite Nat.sub_0_r in Hcs. unfold files_iter in Hcs. rewrite Hf in Hcs.
  destruct (extend_each_In _ _ _ Hcs) as [Hregions _].
  destruct (Hregions (region_of file_id segment)) as (zs & Hzs).
  { apply in_map. apply filter_In. split; [exact Hseg|].
    apply retained_iff. intros Hlt. rewrite Hd in Hlt.
    exact (Qlt_not_le _ _ Hlt Hpos). }
  unfold region_chunks, np_floor_divide in Hzs.
  apply Qeq_bool_iff in Hd. rewrite Hd in Hzs.
  destruct (Qeq_bool (r_duration (region_of file_id segment)) 0);
    [discriminate Hzs|].
  destruct (Qlt_bool 0 (r_duration (region_of file_id segment)));
    discriminate Hzs.
Qed.

Lemma setup_zero_duration_validation_raises_witness :
  exists e, setup 0 true [] development_files = Raise e.
Proof.
  apply (setup_zero_duration_validation_raises 0 [] development_files O
           (mkFile development file [("domain"%string, MStr "A"%string)]
              [mkSegment 0 (19 # 2) (19 # 2)] [])
           (mkSegment 0 (19 # 2) (19 # 2))).
  - reflexivity.
  - reflexivity.
  - reflexivity.
  - left. reflexivity.
  - discriminate.
Defined.

(** ** The length of an epoch *)

Lemma Qceiling_ge (q : Q) : (q <= inject_Z (Qceiling q))%Q.
Proof. apply Qle_ceiling. Qed.



(** With the default chunk duration 0, [train__len__] raises:
    [OverflowError] when some duration is annotated, [ValueError] when none
    is. *)
Theorem train__len__zero_duration_raises (t : Task) (batch_size : Z) :
  (duration t == 0)%Q ->
  (0 <= np_sum (annotated_duration (index t)))%Q ->
  train__len__ t batch_size
  = Raise (if Qeq_bool (np_sum (annotated_duration (index t))) 0
           then ValueError else OverflowError).
Proof.
  intros Hd Hpos. unfold train__len__, np_div.
  apply Qeq_bool_iff in Hd. rewrite Hd.
  destruct (Qeq_bool (np_sum (annotated_duration (index t))) 0) eqn:E;
    [reflexivity|].
  assert (Hlt : Qlt_bool 0 (np_sum (annotated_duration (index t))) = true).
  { apply Qlt_bool_iff. apply Qle_lt_or_eq in Hpos. destruct Hpos as [H|H];
      [exact H|]. symmetry in H. apply Qeq_bool_iff in H. congruence. }
  now rewrite Hlt.
Qed.

Lemma train__len__zero_duration_raises_witness :
  train__len__ (mkTask two_files_index 0 1 None) 2 = Raise OverflowError.
Proof.
  apply (train__len__zero_duration_raises (mkTask two_files_index 0 1 None) 2).
  - reflexivity.
  - discriminate.
Defined.

(** ** The frames [validation_step] scores *)

Lemma round_half_even_bounds (q : Q) (n : Z) :
  (0 <= q)%Q -> (q <= inject_Z n)%Q -> 0 <= round_half_even q <= n.
Proof.
  intros H0 Hn.
  assert (Hf0 : 0 <= Qfloor q).
  { change 0 with (Qfloor (inject_Z 0)). apply Qfloor_resp_le. exact H0. }
  assert (Hfn : Qfloor q <= n).
  { rewrite <- (Qfloor_Z n). apply Qfloor_resp_le. exact Hn. }
  unfold round_half_even.
  destruct (Qlt_bool (q - inject_Z (Qfloor q)) (1 # 2)) eqn:E; [lia|].
  assert (Hlt : Qfloor q < n).
  { destruct (Z.eq_dec (Qfloor q) n) as [Heq|Hne]; [exfalso|lia].
    apply Qlt_bool_false_iff in E. rewrite Heq in E.
    assert (Hz : (q - inject_Z n <= 0)%Q).
    { apply (Qplus_le_l _ _ (inject_Z n)). ring_simplify. exact Hn. }
    assert (Habs : ((1 # 2) <= 0)%Q) by (eapply Qle_trans; eassumption).
    apply Habs. reflexivity. }
  destruct (Qlt_bool (1 # 2) (q - inject_Z (Qfloor q))); [lia|].
  destruct (Z.even (Qfloor q)); lia.
Qed.

Lemma range_from_In (step count : nat) :
  forall start p,
    In p (range_from start step count) <->
    exists k, (k < count)%nat /\ p = (start + k * step)%nat.
Proof.
  induction count as [|count IH]; intros start p; simpl.
  - split; [intros []|intros (k & Hk & _); lia].
  - rewrite IH. split.
    + intros [<-|(k & Hk & ->)].
      * exists O. split; lia.
      * exists (S k). split; lia.
    + intros (k & Hk & ->). destruct k as [|k].
      * left. lia.
      * right. exists k. split; lia.
Qed.

Lemma py_range_step_In (start stop p : nat) :
  In p (py_range_step start stop 10) <->
  (start <= p < stop)%nat /\ ((p - start) mod 10 = 0)%nat.
Proof.
  unfold py_range_step. rewrite range_from_In.
  change (10 - 1)%nat with 9%nat. split.
  - intros (k & Hk & ->).
    pose proof (Nat.Div0.mul_div_le (stop - start + 9) 10) as Hdiv.
    split; [lia|].
    replace (start + k * 10 - start)%nat with (k * 10)%nat by lia.
    apply Nat.Div0.mod_mul.
  - intros [[Hlo Hhi] Hmod].
    exists ((p - start) / 10)%nat.
    pose proof (Nat.Div0.div_mod (p - start) 10) as Hdm. rewrite Hmod in Hdm.
    split; [|lia].
    apply Nat.Div0.div_lt_upper_bound.
    pose proof (Nat.Div0.mul_div_le (stop - start + 9) 10).
    pose proof (Nat.Div0.mod_eq (stop - start + 9) 10).
    pose proof (Nat.mod_upper_bound (stop - start + 9) 10).
    lia.
Qed.



(** ** The grid of plots of [validation_step] *)

Ltac enumerate_sample i :=
  let H := fresh "H" in
  assert (H : i = 0 \/ i = 1 \/ i = 2 \/ i = 3 \/ i = 4 \/ i = 5 \/ i = 6 \/
              i = 7 \/ i = 8 \/ i < 0 \/ 9 <= i) by lia;
  repeat (destruct H as [H|H]); try subst i.

(** For a batch of at least one sample, the grid has room for the
    [min(batch_size, 9)] samples plotted: the reference and hypothesis axes
    of every sample are inside the [2 * nrows] by [ncols] grid, the
    hypothesis just below the reference.  But two samples are plotted on the
    same axes exactly when 2, 5 or 6 samples are plotted: the row is taken
    from [sample_idx // nrows] while the column is [sample_idx % ncols]. *)
Theorem plot_grid_axes_collide (batch_size : Z) :
  1 <= batch_size ->
  exists nrows ncols,
    plot_grid batch_size = Ok (nrows, ncols) /\
    (forall i,
        0 <= i < Z.min batch_size 9 ->
        exists ax_ref ax_hyp col,
          sample_axes nrows ncols i = (ax_ref, ax_hyp, col) /\
          0 <= ax_ref /\ ax_hyp = ax_ref + 1 /\ ax_hyp < 2 * nrows /\
          0 <= col < ncols) /\
    ((exists i j,
         0 <= i < j /\ j < Z.min batch_size 9 /\
         sample_axes nrows ncols i = sample_axes nrows ncols j) <->
     In (Z.min batch_size 9) [2; 5; 6]).
Proof.
  intros Hb. unfold plot_grid.
  set (n := Z.min batch_size 9).
  assert (Hn : n = 1 \/ n = 2 \/ n = 3 \/ n = 4 \/ n = 5 \/ n = 6 \/ n = 7 \/
               n = 8 \/ n = 9) by lia.
  clearbody n.
  repeat (destruct Hn as [Hn|Hn]); subst n;
    (eexists; eexists; split; [vm_compute; reflexivity|]; split;
     [ intros i Hi; enumerate_sample i; try lia;
       (eexists; eexists; eexists; split; [vm_compute; reflexivity|lia])
     | split;
       [ intros (i & j & Hij & Hj & Heq);
         enumerate_sample i; try lia; enumerate_sample j;
         first [ lia | vm_compute in Heq; discriminate Heq | simpl; tauto ]
       | intros Hin;
         first [ exists 0, 1; split; [lia|]; split; [lia|]; reflexivity
               | exists 0, 2; split; [lia|]; split; [lia|]; reflexivity
               | exfalso; simpl in Hin; lia ] ] ]).
Qed.

Lemma plot_grid_axes_collide_witness :
  exists nrows ncols,
    plot_grid 6 = Ok (nrows, ncols) /\
    exists i j,
      0 <= i < j /\ j < 6 /\
      sample_axes nrows ncols i = sample_axes nrows ncols j.
Proof.
  assert (Hb : 1 <= 6) by lia.
  destruct (plot_grid_axes_collide 6 Hb) as (nrows & ncols & Hgrid & _ & Hiff).
  exists nrows, ncols. split; [exact Hgrid|].
  apply Hiff. simpl. tauto.
Defined.

(** ** [collate_y] on the samples of [prepare_chunk] *)

Lemma np_unique_sorted_id (l : list Z) :
  StronglySorted Z.lt l -> np_unique l = l.
Proof.
  induction 1 as [|x l Hl IH Hx]; simpl; [reflexivity|].
  rewrite IH. destruct l as [|z l]; [reflexivity|]. simpl.
  assert (E : (x <? z) = true).
  { apply Z.ltb_lt. rewrite Forall_forall in Hx. apply Hx. now left. }
  now rewrite E.
Qed.

Lemma shape_ext (n w : nat) (m m' : list (list Z)) :
  shape n w m -> shape n w m' ->
  (forall f g, (f < n)%nat -> (g < w)%nat -> entry m f g = entry m' f g) ->
  m = m'.
Proof.
  intros [Hn Hw] [Hn' Hw'] Hentry.
  apply (nth_ext _ _ [] []); [congruence|].
  intros f Hf. rewrite Hn in Hf.
  assert (Hrow : List.length (nth f m []) = w).
  { rewrite Forall_forall in Hw. apply Hw. apply nth_In. lia. }
  assert (Hrow' : List.length (nth f m' []) = w).
  { rewrite Forall_forall in Hw'. apply Hw'. apply nth_In. lia. }
  apply (nth_ext _ _ 0 0); [congruence|].
  intros g Hg. rewrite Hrow in Hg. exact (Hentry f g Hf Hg).
Qed.

Lemma prepare_chunk_well_formed (nonfinite_int : Z) (ix : Index)
  (num_frames file_id : nat) (start_time duration : Q) (smp : Sample) :
  prepare_chunk nonfinite_int ix num_frames file_id start_time duration = Ok smp ->
  StronglySorted Z.lt (labels (y smp)) /\ well_formed num_frames smp.
Proof.
  intros H. apply prepare_chunk_inv in H.
  destruct H as (_ & scope & _ & Hlabels & Hdata).
  assert (Hsorted : StronglySorted Z.lt (labels (y smp))).
  { rewrite Hlabels. apply np_unique_sorted. }
  split; [exact Hsorted|]. split; [apply sorted_NoDup; exact Hsorted|].
  rewrite Hdata, Hlabels. apply mark_annotations_shape, np_zeros_shape.
Qed.

(** A batch of one sample of [prepare_chunk] is collated into the target
    of the sample, unchanged. *)
Theorem collate_y_single_sample (nonfinite_int : Z) (ix : Index)
  (num_frames file_id : nat) (start_time duration : Q) (smp : Sample) :
  prepare_chunk nonfinite_int ix num_frames file_id start_time duration = Ok smp ->
  collate_y [smp] = Ok [data (y smp)].
Proof.
  intros H.
  destruct (prepare_chunk_well_formed _ _ _ _ _ _ _ H) as [Hsorted Hwf].
  pose proof Hwf as [Hnodup Hshape]. pose proof Hshape as [Hn _].
  assert (Hunified : unified_labels [smp] = labels (y smp)).
  { unfold unified_labels. simpl. rewrite app_nil_r.
    apply np_unique_sorted_id. exact Hsorted. }
  unfold collate_y. rewrite Hunified, Hn.
  destruct (collate_samples_spec num_frames (labels (y smp)) [smp] Hsorted)
    as (Y & HY & Hall).
  { intros b [<-|[]]. split; [exact Hwf|auto]. }
  rewrite HY. clear Hn. inversion Hall as [|m ? Y' ? [Hm Hentry] Hnil]; subst.
  inversion Hnil; subst. f_equal. f_equal.
  apply (shape_ext num_frames (List.length (labels (y smp)))); try assumption.
  intros f g Hf Hg. destruct (Hentry f g Hf Hg) as [Hhit _].
  apply Hhit; [exact Hg|reflexivity].
Qed.

Lemma collate_y_single_sample_witness :
  exists smp,
    prepare_chunk 0 two_files_index 8 1 2 4 = Ok smp /\
    collate_y [smp] = Ok [data (y smp)].
Proof.
  eexists. split; [reflexivity|].
  exact (collate_y_single_sample 0 two_files_index 8 1 2 4 _ eq_refl).
Defined.

Lemma collate_samples_raises (unified : list Z) (n : nat) (b : Sample)
  (after : list Sample) (e : exn) :
  collate_labels unified (y b) O (labels (y b))
    (np_zeros n (List.length unified)) = Raise e ->
  forall before,
    (forall b', In b' before ->
       exists m, collate_labels unified (y b') O (labels (y b'))
                   (np_zeros n (List.length unified)) = Ok m) ->
    collate_samples unified n (before ++ b :: after) = Raise e.
Proof.
  intros Hb. induction before as [|b0 before IH]; intros Hall; simpl.
  - now rewrite Hb.
  - destruct (Hall b0 (or_introl eq_refl)) as (m & ->). cbn [bind].
    rewrite IH by (intros b' Hb'; apply Hall; now right). reflexivity.
Qed.

Lemma collate_labels_defined (n : nat) (unified : list Z) (b : Sample) :
  StronglySorted Z.lt unified ->
  well_formed n b ->
  (forall l, In l (labels (y b)) -> In l unified) ->
  exists m, collate_labels unified (y b) O (labels (y b))
              (np_zeros n (List.length unified)) = Ok m.
Proof.
  intros Hsorted Hwf Hsub.
  destruct (collate_samples_spec n unified [b] Hsorted) as (Y & HY & _).
  { intros b' [<-|[]]. auto. }
  simpl in HY. apply bind_ok in HY. destruct HY as (m & Hm & _).
  now exists m.
Qed.

Lemma collate_labels_mismatch (n k : nat) (unified : list Z) (b : Sample) :
  well_formed k b -> k <> n -> k <> 1%nat -> labels (y b) <> [] ->
  collate_labels unified (y b) O (labels (y b))
    (np_zeros n (List.length unified)) = Raise ValueError.
Proof.
  intros [_ Hshape] Hkn Hk1 Hne.
  destruct (labels (y b)) as [|l rest] eqn:Hl; [contradiction|].
  cbn [collate_labels].
  rewrite (column_ok k _ (data (y b)) O Hshape) by (simpl; lia).
  cbn [bind]. unfold assign_column.
  destruct Hshape as [Hk _]. destruct (np_zeros_shape n (List.length unified))
    as [Hz _].
  rewrite length_map, Hk, Hz.
  assert (E : Nat.eqb k n = false) by (apply Nat.eqb_neq; exact Hkn).
  rewrite E. cbn [bind].
  destruct (data (y b)) as [|r [|r' d]]; simpl in *; [reflexivity|lia|reflexivity].
Qed.

(** When the samples of a batch do not have the same number of frames,
    [collate_y] raises [ValueError] at the first sample that has a label and
    whose number of frames differs from that of the first sample of the
    batch, unless it has one frame only. *)
Theorem collate_y_frame_mismatch (k : nat) (b0 b : Sample)
  (before after : list Sample) :
  (forall b', In b' (b0 :: before) ->
              well_formed (List.length (data (y b0))) b') ->
  well_formed k b ->
  k <> List.length (data (y b0)) -> k <> 1%nat -> labels (y b) <> [] ->
  collate_y (b0 :: before ++ b :: after) = Raise ValueError.
Proof.
  intros Hwf Hb Hkn Hk1 Hne. unfold collate_y.
  set (batch := b0 :: before ++ b :: after).
  set (n := List.length (data (y b0))) in *.
  apply (collate_samples_raises (unified_labels batch) n b after ValueError
           (collate_labels_mismatch n k _ b Hb Hkn Hk1 Hne) (b0 :: before)).
  intros b' Hb'. apply collate_labels_defined.
  - apply np_unique_sorted.
  - exact (Hwf b' Hb').
  - intros l Hl. apply unified_labels_In. exists b'. split; [|exact Hl].
    unfold batch. change (b0 :: before ++ b :: after)
      with ((b0 :: before) ++ b :: after).
    apply in_or_app. now left.
Qed.

Lemma collate_y_frame_mismatch_witness :
  collate_y [mkSample (mkFeature [[1]; [0]; [1]] [5]) [];
             mkSample (mkFeature [[1]; [1]] [2]) []]
  = Raise ValueError.
Proof.
  apply (collate_y_frame_mismatch 2
           (mkSample (mkFeature [[1]; [0]; [1]] [5]) [])
           (mkSample (mkFeature [[1]; [1]] [2]) []) [] []).
  - intros b' [<-|[]]. split; [repeat constructor; simpl; tauto|].
    split; [reflexivity|repeat constructor].
  - split; [repeat constructor; simpl; tauto|].
    split; [reflexivity|repeat constructor].
  - discriminate.
  - discriminate.
  - discriminate.
Defined.

(** ** The keys every file must have *)

Lemma dict_get_set (k key : string) (v : Z) (d : list (string * Z)) :
  dict_get k (dict_set key v d)
  = if String.eqb k key then Ok v else dict_get k d.
Proof.
  destruct (String.eqb k key) eqn:E.
  - apply String.eqb_eq in E. subst k. apply dict_get_set_same.
  - apply dict_get_set_other. exact E.
Qed.

Lemma encode_items_stored (items : list (string * metaval)) :
  forall muv md muv' md',
    encode_items items muv md = Ok (muv', md') ->
    forall k,
      (exists z, dict_get k md' = Ok z) <->
      (exists z, dict_get k md = Ok z) \/
      (encoded_key k /\ exists v, In (k, v) items /\ stored_value v).
Proof.
  induction items as [|[key v] items IH]; intros muv md muv' md' H k;
    cbn [encode_items] in H.
  - injection H as <- <-. split; [auto|].
    intros [H|(_ & v & [] & _)]. exact H.
  - assert (Hpass :
      forall muv0,
        encode_items items muv0 md = Ok (muv', md') ->
        ~ (encoded_key key /\ stored_value v) ->
        (exists z, dict_get k md' = Ok z) <->
        (exists z, dict_get k md = Ok z) \/
        (encoded_key k /\ exists v0, In (k, v0) ((key, v) :: items) /\
                                     stored_value v0)).
    { intros muv0 H' Hnot. rewrite (IH _ _ _ _ H' k). split.
      - intros [Hm|(Hk & v0 & Hin & Hv)]; [auto|].
        right. split; [exact Hk|]. exists v0. split; [now right|exact Hv].
      - intros [Hm|(Hk & v0 & [E|Hin] & Hv)]; [auto| |].
        + injection E as -> ->. exfalso. apply Hnot. auto.
        + right. split; [exact Hk|]. now exists v0. }
    assert (Hput :
      forall muv0 z0,
        encode_items items muv0 (dict_set key z0 md) = Ok (muv', md') ->
        encoded_key key -> stored_value v ->
        (exists z, dict_get k md' = Ok z) <->
        (exists z, dict_get k md = Ok z) \/
        (encoded_key k /\ exists v0, In (k, v0) ((key, v) :: items) /\
                                     stored_value v0)).
    { intros muv0 z0 H' Hkey Hv. rewrite (IH _ _ _ _ H' k), dict_get_set.
      destruct (String.eqb k key) eqn:E.
      - apply String.eqb_eq in E. subst k. split.
        + intros _. right. split; [exact Hkey|]. exists v. split; [now left|exact Hv].
        + intros _. left. now exists z0.
      - apply String.eqb_neq in E. split.
        + intros [Hm|(Hk & v0 & Hin & Hv0)]; [auto|].
          right. split; [exact Hk|]. exists v0. split; [now right|exact Hv0].
        + intros [Hm|(Hk & v0 & [E0|Hin] & Hv0)]; [auto| |].
          * injection E0 as E0 _. congruence.
          * right. split; [exact Hk|]. now exists v0. }
    destruct (py_in String.eqb key skipped_keys) eqn:Hskip.
    { apply (Hpass _ H). intros [[Hs _] _]. congruence. }
    destruct (py_in String.eqb key reserved_keys) eqn:Hres.
    { apply (Hpass _ H). intros [[_ Hr] _]. congruence. }
    destruct v as [s|z|q|]; [| | |discriminate].
    + apply (Hput _ _ H); [split; assumption|]. left. now exists s.
    + apply (Hput _ _ H); [split; assumption|]. right. now exists z.
    + apply (Hpass _ H). intros [_ [(s & E)|(z & E)]]; discriminate E.
Qed.

Lemma metadatum_tuple_length (md : list (string * Z)) (keys : list string) :
  forall row, metadatum_tuple keys md = Ok row -> List.length row = List.length keys.
Proof.
  induction keys as [|k keys IH]; intros row H; simpl in H.
  - now injection H as <-.
  - apply bind_ok in H. destruct H as (v & _ & H).
    apply bind_ok in H. destruct H as (vs & Hvs & H). injection H as <-.
    simpl. now rewrite (IH _ Hvs).
Qed.

Lemma setup_loop_file (duration : Q) (files : list ProtocolFile) :
  forall i file_id s s' f,
    setup_loop duration file_id files s = Ok s' ->
    nth_error files i = Some f ->
    exists muv0 muv1 row,
      encode_metadata f muv0 = Ok (muv1, row) /\
      nth_error (ls_metadata s') (List.length (ls_metadata s) + i) = Some row /\
      muv_extends muv1 (ls_unique_values s').
Proof.
  induction files as [|f0 files IH]; intros i file_id s s' f H Hi.
  - destruct i; discriminate.
  - simpl in H. apply bind_ok in H. destruct H as (s1 & Hfile & Hloop).
    apply setup_file_spec in Hfile.
    destruct Hfile as (muv & row & total & new & Henc & Hmuv & Hmeta & _).
    destruct i as [|i]; simpl in Hi.
    + injection Hi as ->.
      destruct (setup_loop_extends _ _ _ _ _ Hloop) as (Hext & _ & rows & Hrows & _).
      exists (ls_unique_values s), muv, row. split; [exact Henc|]. split.
      * rewrite Hrows, Hmeta, <- app_assoc, Nat.add_0_r.
        rewrite nth_error_app2 by lia. now rewrite Nat.sub_diag.
      * now rewrite <- Hmuv.
    + destruct (IH i _ _ _ f Hloop Hi) as (muv0 & muv1 & r & Henc' & Hr & Hext).
      exists muv0, muv1, r. split; [exact Henc'|]. split; [|exact Hext].
      rewrite Hmeta, length_app in Hr. simpl in Hr.
      replace (List.length (ls_metadata s) + S i)%nat
        with (List.length (ls_metadata s) + 1 + i)%nat by lia.
      exact Hr.
Qed.

(** [setup] succeeds only on files that carry the same keys: when some
    file has a string under a key, every file has a string or an integer
    under that key.  (A file without the key raises [KeyError]; a key that
    first shows up after the first file leaves the earlier tuples too short
    for the array.) *)
Theorem setup_needs_the_same_keys
  (duration : Q) (has_validation : bool)
  (protocol_train protocol_development : list ProtocolFile) (ix : Index)
  (f f' : ProtocolFile) (key value : string) :
  setup duration has_validation protocol_train protocol_development = Ok ix ->
  In f (files_iter has_validation protocol_train protocol_development) ->
  In f' (files_iter has_validation protocol_train protocol_development) ->
  In (key, MStr value) (f_items f') ->
  encoded_key key ->
  exists v, In (key, v) (f_items f) /\ stored_value v.
Proof.
  intros Hsetup Hf Hf' Hin Hkey.
  assert (Hfield : muv_has key (metadata_unique_values ix) = true).
  { apply (setup_fields _ _ _ _ _ key Hsetup). right. right.
    split; [exact Hkey|]. now exists f', value. }
  destruct (setup_inv _ _ _ _ _ Hsetup)
    as (s & Hloop & Hmuv & _ & _ & _ & _ & Hlen & _).
  destruct (In_nth_error _ _ Hf) as (i & Hi).
  destruct (setup_loop_file _ _ _ _ _ _ _ Hloop Hi)
    as (muv0 & muv1 & row & Henc & Hrow & [(tail & Hkeys) _]).
  simpl in Hrow. apply nth_error_In in Hrow.
  rewrite Forall_forall in Hlen. pose proof (Hlen row Hrow) as Hwidth.
  unfold encode_metadata in Henc.
  apply bind_ok in Henc. destruct Henc as ([muv2 md] & Henc & Htuple).
  apply bind_ok in Htuple. destruct Htuple as (row1 & Htuple & E).
  injection E as <- <-.
  assert (Htail : tail = []).
  { apply (f_equal (@List.length string)) in Hkeys.
    rewrite length_app, !length_map in Hkeys.
    rewrite (metadatum_tuple_length _ _ _ Htuple), length_map in Hwidth.
    destruct tail; [reflexivity|simpl in Hkeys; lia]. }
  rewrite Htail, app_nil_r in Hkeys.
  rewrite Hmuv in Hfield. apply muv_has_In in Hfield. rewrite Hkeys in Hfield.
  destruct (In_nth_error _ _ Hfield) as (p & Hp).
  destruct (metadatum_tuple_nth _ _ _ Htuple p key Hp) as (z & Hz & _).
  destruct (proj1 (encode_items_stored _ _ _ _ _ Henc key)) as [(z0 & Hz0)|H].
  - now exists z.
  - exfalso. destruct Hkey as [_ Hres]. simpl in Hz0.
    destruct (String.eqb key "subset") eqn:E1.
    { apply String.eqb_eq in E1. subst key. discriminate Hres. }
    destruct (String.eqb key "scope") eqn:E2; [|discriminate Hz0].
    apply String.eqb_eq in E2. subst key. discriminate Hres.
  - exact (proj2 H).
Qed.

Lemma setup_needs_the_same_keys_witness :
  exists v,
    In ("domain"%string, v)
      (f_items (mkFile train file [("domain"%string, MStr "A"%string)]
                  [mkSegment 0 10 10] [(mkSegment 2 5 3, "spk1"%string)])) /\
    stored_value v.
Proof.
  apply (setup_needs_the_same_keys 4 false domain_files [] domain_index
           (mkFile train file [("domain"%string, MStr "A"%string)]
              [mkSegment 0 10 10] [(mkSegment 2 5 3, "spk1"%string)])
           (mkFile train file [("domain"%string, MStr "B"%string)]
              [mkSegment 0 10 10] [(mkSegment 1 9 8, "spk2"%string)])
           "domain" "B").
  - reflexivity.
  - left. reflexivity.
  - right. left. reflexivity.
  - left. reflexivity.
  - split; reflexivity.
Defined.

(** ** Corpora on which [setup] returns *)

Lemma encode_items_ok (items : list (string * metaval)) :
  (forall key v, In (key, v) items -> encoded_key key -> v <> MOther) ->
  forall muv md, exists muv' md', encode_items items muv md = Ok (muv', md').
Proof.
  induction items as [|[key v] items IH]; intros Hsup muv md; cbn [encode_items].
  - now exists muv, md.
  - assert (Hsup' : forall k v0, In (k, v0) items -> encoded_key k -> v0 <> MOther)
      by (intros k v0 Hin; apply Hsup; now right).
    destruct (py_in String.eqb key skipped_keys) eqn:Hskip; [exact (IH Hsup' _ _)|].
    destruct (py_in String.eqb key reserved_keys) eqn:Hres; [exact (IH Hsup' _ _)|].
    destruct v as [s|z|q|]; try exact (IH Hsup' _ _).
    exfalso. apply (Hsup key MOther); [now left|split; assumption|reflexivity].
Qed.

Lemma metadatum_tuple_ok (md : list (string * Z)) (keys : list string) :
  (forall k, In k keys -> exists z, dict_get k md = Ok z) ->
  exists row, metadatum_tuple keys md = Ok row.
Proof.
  induction keys as [|k keys IH]; intros H; simpl.
  - now exists [].
  - destruct (H k (or_introl eq_refl)) as (z & ->).
    destruct IH as (row & ->); [intros k' Hk'; apply H; now right|].
    now exists (z :: row).
Qed.

Lemma encode_metadata_ok (f : ProtocolFile) (muv : unique_values) :
  supported_file f -> fields_stored muv f ->
  exists muv' row,
    encode_metadata f muv = Ok (muv', row) /\
    List.length row = List.length muv'.
Proof.
  intros Hsup Hfields. unfold encode_metadata.
  destruct (encode_items_ok (f_items f) Hsup muv
              [("subset"%string, Subsets_index (f_subset f));
               ("scope"%string, Scopes_index (f_scope f))])
    as (muv' & md' & Henc).
  rewrite Henc. cbn [bind].
  destruct (metadatum_tuple_ok md' (map fst muv')) as (row & Hrow).
  { intros k Hk. apply muv_has_In in Hk.
    apply (encode_items_stored _ _ _ _ _ Henc k).
    apply (encode_items_fields _ _ _ _ _ Henc k) in Hk.
    destruct Hk as [Hk|(Hkey & value & Hin)].
    - destruct (Hfields k Hk) as [->|[->|H]].
      + left. eexists. reflexivity.
      + left. eexists. reflexivity.
      + now right.
    - right. split; [exact Hkey|]. exists (MStr value).
      split; [exact Hin|]. left. now exists value. }
  rewrite Hrow. cbn [bind]. exists muv', row. split; [reflexivity|].
  rewrite (metadatum_tuple_length _ _ _ Hrow). apply length_map.
Qed.

Lemma muv_set_same_keys (key : string) (vs : list string) (muv : unique_values) :
  muv_has key muv = true -> map fst (muv_set key vs muv) = map fst muv.
Proof.
  induction muv as [|[k old] muv IH]; simpl; [discriminate|].
  destruct (String.eqb key k) eqn:E; simpl; [reflexivity|].
  intros H. now rewrite IH.
Qed.

Lemma encode_items_same_keys (items : list (string * metaval)) :
  forall muv md muv' md',
    encode_items items muv md = Ok (muv', md') ->
    (forall key value,
        In (key, MStr value) items -> encoded_key key ->
        muv_has key muv = true) ->
    map fst muv' = map fst muv.
Proof.
  induction items as [|[key v] items IH]; intros muv md muv' md' H Hin;
    cbn [encode_items] in H.
  - now injection H as <- <-.
  - assert (Hin' : forall k value,
               In (k, MStr value) items -> encoded_key k ->
               muv_has k muv = true)
      by (intros k value Hk; apply (Hin k value); now right).
    destruct (py_in String.eqb key skipped_keys) eqn:Hskip;
      [exact (IH _ _ _ _ H Hin')|].
    destruct (py_in String.eqb key reserved_keys) eqn:Hres;
      [exact (IH _ _ _ _ H Hin')|].
    destruct v as [s|z|q|]; try exact (IH _ _ _ _ H Hin'); [|discriminate].
    assert (Hhas : muv_has key muv = true).
    { apply (Hin key s); [now left|split; assumption]. }
    assert (Htouch : muv_touch key muv = muv) by (unfold muv_touch; now rewrite Hhas).
    rewrite Htouch in H.
    rewrite (IH _ _ _ _ H).
    + apply muv_set_same_keys. exact Hhas.
    + intros k value Hk Hkey. rewrite muv_has_set, (Hin' k value Hk Hkey).
      reflexivity.
Qed.

Lemma muv_has_keys (k : string) (muv muv' : unique_values) :
  map fst muv' = map fst muv -> muv_has k muv' = muv_has k muv.
Proof.
  intros H.
  destruct (muv_has k muv') eqn:E1, (muv_has k muv) eqn:E2; try reflexivity.
  - apply muv_has_In in E1. rewrite H in E1. apply muv_has_In in E1. congruence.
  - apply muv_has_In in E2. rewrite <- H in E2. apply muv_has_In in E2. congruence.
Qed.

Lemma setup_file_ok (duration : Q) (file_id : nat) (f : ProtocolFile)
  (s : LoopState) (muv : unique_values) (row : list Z) :
  encode_metadata f (ls_unique_values s) = Ok (muv, row) ->
  exists s',
    setup_file duration file_id f s = Ok s' /\
    ls_unique_values s' = muv /\
    ls_metadata s' = ls_metadata s ++ [row].
Proof.
  intros Henc. unfold setup_file. rewrite Henc. cbn [bind].
  destruct (annotated_loop duration file_id (f_annotated f)
              (ls_annotated_regions s) 0%Q) as [regions total].
  destruct (fold_left (annotation_step file_id (f_scope f)) (f_annotation f)
              (mkLabelLists [] [] (ls_unique_labels s), ls_annotations s))
    as [lists rows].
  eexists. split; [reflexivity|]. split; reflexivity.
Qed.

Lemma setup_loop_ok (duration : Q) (files : list ProtocolFile) :
  forall file_id s,
    (forall f, In f files ->
       supported_file f /\ fields_stored (ls_unique_values s) f /\
       forall key value,
         In (key, MStr value) (f_items f) -> encoded_key key ->
         muv_has key (ls_unique_values s) = true) ->
    exists s',
      setup_loop duration file_id files s = Ok s' /\
      map fst (ls_unique_values s') = map fst (ls_unique_values s) /\
      exists rows,
        ls_metadata s' = ls_metadata s ++ rows /\
        Forall (fun row => List.length row = List.length (ls_unique_values s)) rows.
Proof.
  induction files as [|f files IH]; intros file_id s Hall; simpl.
  - exists s. split; [reflexivity|]. split; [reflexivity|].
    exists []. split; [now rewrite app_nil_r|constructor].
  - destruct (Hall f (or_introl eq_refl)) as (Hsup & Hfields & Hkeys).
    destruct (encode_metadata_ok f _ Hsup Hfields) as (muv & row & Henc & Hlen).
    destruct (setup_file_ok duration file_id f s muv row Henc)
      as (s1 & Hfile & Hmuv & Hmeta).
    rewrite Hfile. cbn [bind].
    assert (Hsame : map fst (ls_unique_values s1) = map fst (ls_unique_values s)).
    { rewrite Hmuv. unfold encode_metadata in Henc.
      apply bind_ok in Henc. destruct Henc as ([muv1 md] & Henc & Htuple).
      apply bind_ok in Htuple. destruct Htuple as (row1 & _ & E).
      injection E as <- <-.
      exact (encode_items_same_keys _ _ _ _ _ Henc Hkeys). }
    destruct (IH (S file_id) s1) as (s' & Hloop & Hkeys' & rows & Hrows & Hwidth).
    { intros f' Hf'. destruct (Hall f' (or_intror Hf')) as (Hsup' & Hfields' & Hk').
      split; [exact Hsup'|]. split.
      - intros k Hk. apply Hfields'. now rewrite <- (muv_has_keys k _ _ Hsame).
      - intros key value Hin Hkey. rewrite (muv_has_keys key _ _ Hsame).
        exact (Hk' key value Hin Hkey). }
    assert (Hcount : List.length (ls_unique_values s1)
                     = List.length (ls_unique_values s)).
    { apply (f_equal (@List.length string)) in Hsame.
      now rewrite !length_map in Hsame. }
    exists s'. split; [exact Hloop|]. split; [now rewrite Hkeys'|].
    exists (row :: rows). split.
    + now rewrite Hrows, Hmeta, <- app_assoc.
    + constructor.
      * now rewrite Hlen, <- Hmuv.
      * rewrite <- Hcount. exact Hwidth.
Qed.

Lemma tile_validation_ok (duration : Q) (muv : unique_values)
  (rows : list (list Z)) (regions : list AnnotatedRegion) :
  ~ (duration == 0)%Q -> muv_has "subset" muv = true ->
  exists chunks, tile_validation duration muv rows regions = Ok chunks.
Proof.
  intros Hd Hsubset. unfold tile_validation, metadata_column, field_position.
  rewrite Hsubset. cbn [bind].
  eexists. apply (extend_each_ok _
    (fun file_id =>
       flat_map (fun region =>
                   map (fun c =>
                          mkChunk file_id
                            (r_start region + inject_Z (Z.of_nat c) * duration)%Q
                            duration)
                       (py_range (Qfloor (r_duration region / duration))))
         (regions_of_file regions file_id))).
  intros file_id _. apply extend_each_ok. intros region _.
  unfold region_chunks. now rewrite (py_round_floor_divide _ _ Hd).
Qed.



(** ** Integer values *)

Lemma setup_file_row (duration : Q) (has_validation : bool)
  (protocol_train protocol_development : list ProtocolFile) (ix : Index)
  (file_id : nat) (f : ProtocolFile) :
  setup duration has_validation protocol_train protocol_development = Ok ix ->
  nth_error (files_iter has_validation protocol_train protocol_development)
    file_id = Some f ->
  exists muv0 muv1 md row,
    encode_items (f_items f) muv0
      [("subset"%string, Subsets_index (f_subset f));
       ("scope"%string, Scopes_index (f_scope f))] = Ok (muv1, md) /\
    metadatum_tuple (map fst muv1) md = Ok row /\
    nth_error (metadata ix) file_id = Some row /\
    map fst (metadata_unique_values ix) = map fst muv1.
Proof.
  intros Hsetup Hf.
  destruct (setup_inv _ _ _ _ _ Hsetup)
    as (s & Hloop & Hmuv & Hmeta & _ & _ & _ & Hlen & _).
  destruct (setup_loop_file _ _ _ _ _ _ _ Hloop Hf)
    as (muv0 & muv1 & row & Henc & Hrow & [(tail & Hkeys) _]).
  simpl in Hrow.
  rewrite Forall_forall in Hlen. pose proof (Hlen row (nth_error_In _ _ Hrow)) as Hw.
  unfold encode_metadata in Henc.
  apply bind_ok in Henc. destruct Henc as ([muv2 md] & Henc & Htuple).
  apply bind_ok in Htuple. destruct Htuple as (row1 & Htuple & E).
  injection E as <- <-.
  exists muv0, muv2, md, row1.
  split; [exact Henc|]. split; [exact Htuple|]. split; [now rewrite Hmeta|].
  rewrite Hmuv, Hkeys.
  apply (f_equal (@List.length string)) in Hkeys.
  rewrite length_app, !length_map in Hkeys.
  rewrite (metadatum_tuple_length _ _ _ Htuple), length_map in Hw.
  destruct tail; [apply app_nil_r|simpl in Hkeys; lia].
Qed.

Lemma encode_items_int (key : string) (z : Z) (items : list (string * metaval)) :
  encoded_key key ->
  forall muv md muv' md',
    encode_items items muv md = Ok (muv', md') ->
    NoDup (map fst items) ->
    In (key, MInt z) items ->
    dict_get key md' = Ok z.
Proof.
  intros [Hskip Hres].
  induction items as [|[k v] items IH]; intros muv md muv' md' H Hnd Hin;
    [destruct Hin|].
  inversion Hnd as [|? ? Hnotin Hnd']; subst.
  destruct Hin as [E|Hin].
  - injection E as -> ->. cbn [encode_items] in H. rewrite Hskip, Hres in H.
    rewrite (encode_items_get_other key _ _ _ _ _ H Hnotin).
    apply dict_get_set_same.
  - cbn [encode_items] in H.
    destruct (py_in String.eqb k skipped_keys); [exact (IH _ _ _ _ H Hnd' Hin)|].
    destruct (py_in String.eqb k reserved_keys); [exact (IH _ _ _ _ H Hnd' Hin)|].
    destruct v as [v|z0|q|]; try exact (IH _ _ _ _ H Hnd' Hin). discriminate.
Qed.



(** ** The label indices identify the labels *)

Lemma row_of_track_in_prefix (labels unique tail_l tail_u : list string)
  (a : Annotation) (tr : Track) :
  row_of_track_in labels unique a tr ->
  row_of_track_in (labels ++ tail_l) (unique ++ tail_u) a tr.
Proof.
  intros (Hid & Hs & He & (p & Hp & Hnth) & Hglobal).
  split; [exact Hid|]. split; [exact Hs|]. split; [exact He|]. split.
  - exists p. split; [exact Hp|]. apply nth_error_prefix. exact Hnth.
  - intros Hsc. destruct (Hglobal Hsc) as (q & Hq & Hnth').
    exists q. split; [exact Hq|]. apply nth_error_prefix. exact Hnth'.
Qed.

Lemma annotation_step_track (file_id : nat) (sc : Scope) (lists : LabelLists)
  (rows : list Annotation) (segment : Segment) (label : string) :
  exists lists1 a tail_l tail_u,
    annotation_step file_id sc (lists, rows) (segment, label)
    = (lists1, rows ++ [a]) /\
    file_unique_labels lists1 = file_unique_labels lists ++ tail_l /\
    unique_labels lists1 = unique_labels lists ++ tail_u /\
    (NoDup (file_unique_labels lists) -> NoDup (file_unique_labels lists1)) /\
    (NoDup (unique_labels lists) -> NoDup (unique_labels lists1)) /\
    row_of_track_in (file_unique_labels lists1) (unique_labels lists1) a
      (mkTrack file_id sc segment label).
Proof.
  destruct (append_if_new_spec label (file_unique_labels lists))
    as (tl & Hfile & Hinl & Hndl).
  destruct (append_if_new_spec label (unique_labels lists))
    as (tu & Huniq & Hinu & Hndu).
  unfold annotation_step.
  exists (mkLabelLists
            (append_if_new String.eqb label (file_unique_labels lists))
            (if Scope_eqb sc database
             then append_if_new String.eqb label (database_unique_labels lists)
             else database_unique_labels lists)
            (if Scope_eqb sc global
             then append_if_new String.eqb label (unique_labels lists)
             else unique_labels lists)).
  eexists. exists tl, (if Scope_eqb sc global then tu else []).
  split; [reflexivity|]. cbn [file_unique_labels unique_labels].
  split; [exact Hfile|]. split; [|split; [|split]].
  - destruct (Scope_eqb sc global); [exact Huniq|now rewrite app_nil_r].
  - intros Hnd. rewrite Hfile. exact (Hndl Hnd).
  - intros Hnd. destruct (Scope_eqb sc global); [|exact Hnd].
    rewrite Huniq. exact (Hndu Hnd).
  - unfold row_of_track_in.
    cbn [a_file_id a_start a_end file_label_idx global_label_idx
         t_file_id t_segment t_label t_scope].
    split; [reflexivity|]. split; [reflexivity|]. split; [reflexivity|]. split.
    + eexists. split; [reflexivity|]. apply py_index_string_In.
      rewrite Hfile. exact Hinl.
    + intros ->. cbn [Scope_eqb]. eexists. split; [reflexivity|].
      apply py_index_string_In. rewrite Huniq. exact Hinu.
Qed.

Lemma annotation_fold_tracks (file_id : nat) (sc : Scope)
  (tracks : list (Segment * string)) :
  forall lists rows,
    exists lists' new tail_l tail_u,
      fold_left (annotation_step file_id sc) tracks (lists, rows)
      = (lists', rows ++ new) /\
      file_unique_labels lists' = file_unique_labels lists ++ tail_l /\
      unique_labels lists' = unique_labels lists ++ tail_u /\
      (NoDup (file_unique_labels lists) -> NoDup (file_unique_labels lists')) /\
      (NoDup (unique_labels lists) -> NoDup (unique_labels lists')) /\
      Forall2 (row_of_track_in (file_unique_labels lists') (unique_labels lists'))
        new
        (map (fun track => mkTrack file_id sc (fst track) (snd track)) tracks).
Proof.
  induction tracks as [|[segment label] tracks IH]; intros lists rows;
    cbn [fold_left map].
  - exists lists, [], [], []. rewrite !app_nil_r.
    split; [reflexivity|]. split; [reflexivity|]. split; [reflexivity|].
    split; [auto|]. split; [auto|constructor].
  - destruct (annotation_step_track file_id sc lists rows segment label)
      as (lists1 & a & tl & tu & Hstep & Hl1 & Hu1 & Hndl & Hndu & Hrow).
    rewrite Hstep.
    destruct (IH lists1 (rows ++ [a]))
      as (lists' & new & tl' & tu' & Hfold & Hl' & Hu' & Hndl' & Hndu' & Hall).
    exists lists', (a :: new), (tl ++ tl'), (tu ++ tu').
    split; [|split; [|split; [|split; [|split]]]].
    + rewrite Hfold, <- app_assoc. reflexivity.
    + now rewrite Hl', Hl1, app_assoc.
    + now rewrite Hu', Hu1, app_assoc.
    + intros Hnd. exact (Hndl' (Hndl Hnd)).
    + intros Hnd. exact (Hndu' (Hndu Hnd)).
    + constructor; [|exact Hall]. cbn [fst snd].
      rewrite Hl', Hu'. apply row_of_track_in_prefix. exact Hrow.
Qed.

Lemma setup_file_tracks (duration : Q) (file_id : nat) (f : ProtocolFile)
  (s s' : LoopState) :
  setup_file duration file_id f s = Ok s' ->
  exists labels new tail_u,
    NoDup labels /\
    ls_annotations s' = ls_annotations s ++ new /\
    ls_unique_labels s' = ls_unique_labels s ++ tail_u /\
    (NoDup (ls_unique_labels s) -> NoDup (ls_unique_labels s')) /\
    Forall2 (row_of_track_in labels (ls_unique_labels s')) new
      (map (fun track => mkTrack file_id (f_scope f) (fst track) (snd track))
         (f_annotation f)).
Proof.
  unfold setup_file. intros H.
  apply bind_ok in H. destruct H as ([muv row] & _ & H).
  destruct (annotated_loop duration file_id (f_annotated f)
              (ls_annotated_regions s) 0%Q) as [regions total].
  destruct (annotation_fold_tracks file_id (f_scope f) (f_annotation f)
              (mkLabelLists [] [] (ls_unique_labels s)) (ls_annotations s))
    as (lists' & new & tl & tu & Hfold & Hl & Hu & Hndl & Hndu & Hall).
  rewrite Hfold in H. injection H as <-. simpl in *.
  exists (file_unique_labels lists'), new, tu.
  split; [apply Hndl; constructor|]. split; [reflexivity|].
  split; [exact Hu|]. split; [exact Hndu|exact Hall].
Qed.

Lemma Forall2_and_r {A B : Type} (R : A -> B -> Prop) (P : B -> Prop)
  (l : list A) (l' : list B) :
  Forall2 R l l' -> Forall P l' -> Forall2 (fun a b => R a b /\ P b) l l'.
Proof.
  induction 1 as [|a b l l' Hab Hall IH]; intros HP; constructor.
  - split; [exact Hab|]. now inversion HP.
  - apply IH. now inversion HP.
Qed.

Lemma setup_loop_tracks (duration : Q) (files : list ProtocolFile) :
  forall file_id s s',
    setup_loop duration file_id files s = Ok s' ->
    exists per_file new tail_u,
      Forall (@NoDup string) per_file /\
      ls_annotations s' = ls_annotations s ++ new /\
      ls_unique_labels s' = ls_unique_labels s ++ tail_u /\
      (NoDup (ls_unique_labels s) -> NoDup (ls_unique_labels s')) /\
      Forall2
        (fun a tr =>
           (file_id <= t_file_id tr)%nat /\
           exists labels,
             nth_error per_file (t_file_id tr - file_id) = Some labels /\
             row_of_track_in labels (ls_unique_labels s') a tr)
        new (corpus_tracks file_id files).
Proof.
  induction files as [|f files IH]; intros file_id s s' H; simpl in H.
  - injection H as <-. exists [], [], []. rewrite !app_nil_r.
    split; [constructor|]. split; [reflexivity|]. split; [reflexivity|].
    split; [auto|constructor].
  - apply bind_ok in H. destruct H as (s1 & Hfile & Hloop).
    destruct (setup_file_tracks _ _ _ _ _ Hfile)
      as (labels & new1 & tu1 & Hnd & Hann1 & Hu1 & Hndu1 & Hall1).
    destruct (IH _ _ _ Hloop)
      as (per_file & new & tu & Hper & Hann & Hu & Hndu & Hall).
    exists (labels :: per_file), (new1 ++ new), (tu1 ++ tu).
    split; [constructor; assumption|].
    split; [now rewrite Hann, Hann1, app_assoc|].
    split; [now rewrite Hu, Hu1, app_assoc|].
    split; [intros H0; exact (Hndu (Hndu1 H0))|].
    cbn [corpus_tracks]. apply Forall2_app.
    + assert (Hids : Forall (fun tr => t_file_id tr = file_id)
                       (map (fun track =>
                               mkTrack file_id (f_scope f) (fst track) (snd track))
                          (f_annotation f))).
      { apply Forall_forall. intros tr Htr. apply in_map_iff in Htr.
        now destruct Htr as (track & <- & _). }
      eapply Forall2_impl; [|exact (Forall2_and_r _ _ _ _ Hall1 Hids)].
      intros a tr [Hrow Hid]. cbn beta in Hid. rewrite Hid.
      split; [lia|]. exists labels. rewrite Nat.sub_diag. split; [reflexivity|].
      rewrite Hu. rewrite <- (app_nil_r labels).
      apply row_of_track_in_prefix. exact Hrow.
    + eapply Forall2_impl; [|exact Hall].
      intros a tr (Hle & labels2 & Hnth & Hrow). split; [lia|].
      exists labels2. split; [|exact Hrow].
      replace (t_file_id tr - file_id)%nat with (S (t_file_id tr - S file_id))
        by lia.
      exact Hnth.
Qed.

Lemma NoDup_nth_error_eq (l : list string) (p q : nat) (x y : string) :
  NoDup l -> nth_error l p = Some x -> nth_error l q = Some y ->
  (p = q <-> x = y).
Proof.
  intros Hnd Hp Hq. split.
  - intros ->. congruence.
  - intros ->. apply (proj1 (NoDup_nth_error l) Hnd).
    + apply nth_error_Some. congruence.
    + congruence.
Qed.

(** The annotation rows of [setup] stand, in order, for the tracks of the
    files: each has the file and the bounds of its track, its
    [file_label_idx] is the position of the label in a duplicate-free list
    of the labels of the file, and, for a file of scope [global], its
    [global_label_idx] the position of the label in one duplicate-free list
    for the whole corpus.  So two rows of one file have the same
    [file_label_idx] exactly when their tracks have the same label, and two
    rows of files of scope [global] the same [global_label_idx] exactly when
    their tracks have the same label, across files. *)
Theorem setup_label_indices_identify_labels
  (duration : Q) (has_validation : bool)
  (protocol_train protocol_development : list ProtocolFile) (ix : Index) :
  setup duration has_validation protocol_train protocol_development = Ok ix ->
  let tracks :=
    corpus_tracks O
      (files_iter has_validation protocol_train protocol_development) in
  exists per_file unique,
    NoDup unique /\ Forall (@NoDup string) per_file /\
    Forall2 (row_of_track per_file unique) (annotations ix) tracks /\
    forall j k a b tr1 tr2,
      nth_error (annotations ix) j = Some a -> nth_error tracks j = Some tr1 ->
      nth_error (annotations ix) k = Some b -> nth_error tracks k = Some tr2 ->
      (t_file_id tr1 = t_file_id tr2 ->
       (file_label_idx a = file_label_idx b <-> t_label tr1 = t_label tr2)) /\
      (t_scope tr1 = global -> t_scope tr2 = global ->
       (global_label_idx a = global_label_idx b <-> t_label tr1 = t_label tr2)).
Proof.
  intros Hsetup tracks.
  destruct (setup_inv _ _ _ _ _ Hsetup) as (s & Hloop & _ & _ & _ & _ & Hann & _).
  destruct (setup_loop_tracks _ _ _ _ _ Hloop)
    as (per_file & new & tu & Hper & Hnew & Hu & Hndu & Hall).
  simpl in Hnew, Hu, Hndu. rewrite <- Hann in Hnew. rewrite <- Hnew in Hall.
  assert (Hrows : Forall2 (row_of_track per_file (ls_unique_labels s))
                    (annotations ix) tracks).
  { eapply Forall2_impl; [|exact Hall].
    intros a tr (_ & labels & Hnth & Hrow). rewrite Nat.sub_0_r in Hnth.
    now exists labels. }
  assert (Hunique : NoDup (ls_unique_labels s)) by (apply Hndu; constructor).
  exists per_file, (ls_unique_labels s).
  split; [exact Hunique|]. split; [exact Hper|]. split; [exact Hrows|].
  intros j k a b tr1 tr2 Ha Htr1 Hb Htr2.
  destruct (Forall2_nth_error_l _ _ _ Hrows j a Ha) as (tr0 & Htr0 & Hrow_a).
  destruct (Forall2_nth_error_l _ _ _ Hrows k b Hb) as (tr3 & Htr3 & Hrow_b).
  rewrite Htr1 in Htr0. injection Htr0 as <-.
  rewrite Htr2 in Htr3. injection Htr3 as <-.
  destruct Hrow_a as (la & Hla & _ & _ & _ & (p & Hp & Hpl) & Hga).
  destruct Hrow_b as (lb & Hlb & _ & _ & _ & (q & Hq & Hql) & Hgb).
  split.
  - intros Hfile. rewrite Hfile, Hlb in Hla. injection Hla as <-.
    rewrite Hp, Hq, Nat2Z.inj_iff.
    apply (NoDup_nth_error_eq lb); try assumption.
    rewrite Forall_forall in Hper. apply Hper.
    exact (nth_error_In _ _ Hlb).
  - intros Hsa Hsb.
    destruct (Hga Hsa) as (p2 & Hp2 & Hpu). destruct (Hgb Hsb) as (q2 & Hq2 & Hqu).
    rewrite Hp2, Hq2, Nat2Z.inj_iff.
    exact (NoDup_nth_error_eq _ _ _ _ _ Hunique Hpu Hqu).
Qed.

Lemma setup_label_indices_identify_labels_witness :
  global_label_idx (mkAnnotation 0 2 4 1 (-1) 1)
  = global_label_idx (mkAnnotation 1 1 3 0 (-1) 1) <->
  "b"%string = "b"%string.
Proof.
  destruct (setup_label_indices_identify_labels 1 false global_label_files []
              global_label_index eq_refl)
    as (per_file & unique & _ & _ & _ & Hiff).
  refine (proj2 (Hiff 1%nat 2%nat (mkAnnotation 0 2 4 1 (-1) 1)
                   (mkAnnotation 1 1 3 0 (-1) 1)
                   (mkTrack 0 global (mkSegment 2 4 2) "b")
                   (mkTrack 1 global (mkSegment 1 3 2) "b")
                   eq_refl eq_refl eq_refl eq_refl) eq_refl eq_refl).
Defined.

(** ** [prepare_chunk] outside its domain *)



(** ** The unbalanced iterator *)

Lemma train_file_ids_In (files : list ProtocolFile) (file_id : nat) :
  In file_id (train_file_ids files) <->
  exists f, nth_error files file_id = Some f /\ f_subset f = train.
Proof.
  unfold train_file_ids. rewrite filter_In, in_seq. split.
  - intros [_ H]. destruct (nth_error files file_id) as [f|]; [|discriminate].
    exists f. split; [reflexivity|]. now destruct (f_subset f).
  - intros (f & Hf & Hsub). rewrite Hf, Hsub. split; [|reflexivity].
    assert (file_id < List.length files)%nat by (apply nth_error_Some; congruence).
    lia.
Qed.

Lemma helper_start_unfiltered
  (np_equal_sequence : list Z -> list pyval -> result (list bool))
  (chunk_duration : Q) (has_validation : bool)
  (protocol_train protocol_development : list ProtocolFile) (t : Task) :
  setup chunk_duration has_validation protocol_train protocol_development
  = Ok (index t) ->
  exists s,
    train__iter__helper_start np_equal_sequence t [] = Ok s /\
    file_ids s
    = train_file_ids
        (files_iter has_validation protocol_train protocol_development).
Proof.
  intros Hsetup.
  set (files := files_iter has_validation protocol_train protocol_development).
  destruct (setup_metadata _ _ _ _ _ Hsetup) as [Hpre Hrows]. fold files in Hrows.
  destruct (setup_arrays _ _ _ _ _ Hsetup) as [_ Hdur]. fold files in Hdur.
  destruct (field_position_prefix _ Hpre) as [_ Hpos].
  assert (Hids : training_file_ids np_equal_sequence (index t) []
                 = Ok (train_file_ids files)).
  { unfold training_file_ids, metadata_column. rewrite Hpos. cbn [bind apply_filters].
    rewrite (subset_column _ _ Hrows), map_map.
    rewrite (map_ext _ (fun f => Subset_eqb (f_subset f) train))
      by (intros f; apply Subsets_index_eqb).
    rewrite np_where_map. reflexivity. }
  destruct (take_ok (annotated_duration (index t)) (train_file_ids files))
    as (durations & Htake).
  { apply Forall_forall. intros i Hi. apply train_file_ids_In in Hi.
    destruct Hi as (f & Hf & _). rewrite (Forall2_length Hdur).
    apply nth_error_Some. congruence. }
  unfold train__iter__helper_start. rewrite Hids. cbn [bind]. rewrite Htake.
  cbn [bind]. eexists. split; reflexivity.
Qed.

Lemma helper_start_in_loop
  (np_equal_sequence : list Z -> list pyval -> result (list bool))
  (has_validation : bool)
  (protocol_train protocol_development : list ProtocolFile)
  (t : Task) (filters : list (string * pyval)) (s : HelperState)
  (file_id : nat) (f : ProtocolFile) (segment : Segment) :
  setup (duration t) has_validation protocol_train protocol_development
  = Ok (index t) ->
  (0 < duration t)%Q ->
  train__iter__helper_start np_equal_sequence t filters = Ok s ->
  In file_id (file_ids s) ->
  nth_error (files_iter has_validation protocol_train protocol_development)
    file_id = Some f ->
  In segment (f_annotated f) ->
  ~ (seg_duration segment < duration t)%Q ->
  exists p,
    List.length p = List.length (file_ids s) /\
    Forall (fun q => 0 <= q)%Q p /\ (np_sum p == 1)%Q /\
    (forall k i q,
        nth_error (file_ids s) k = Some i -> nth_error p k = Some q ->
        (0 < q)%Q ->
        exists f',
          nth_error (files_iter has_validation protocol_train protocol_development)
            i = Some f' /\
          (0 < retained_duration (duration t) f')%Q) /\
    prob_annotated_duration s = map Finite p /\ chunks_left s = O.
Proof.
  intros Hsetup Hd Hstart Hin Hf Hseg Hret.
  unfold train__iter__helper_start in Hstart.
  apply bind_ok in Hstart. destruct Hstart as (ids & Hids & Hstart).
  apply bind_ok in Hstart. destruct Hstart as (durations & Htake & Hstart).
  injection Hstart as <-. simpl in Hin. simpl.
  destruct (setup_arrays _ _ _ _ _ Hsetup) as [_ Hdur].
  pose proof (take_Forall2 _ _ _ Htake) as Htaken.
  assert (Hfiles :
    Forall2 (fun file_id dur =>
               exists f,
                 nth_error
                   (files_iter has_validation protocol_train protocol_development)
                   file_id = Some f /\
                 (dur == retained_duration (duration t) f)%Q)
      ids durations).
  { eapply Forall2_impl; [|exact Htaken]. intros i dur Hnth.
    exact (Forall2_nth_error_l _ _ _ Hdur i dur Hnth). }
  assert (Hnonneg : Forall (fun dur => 0 <= dur)%Q durations).
  { apply Forall_forall. intros dur Hdur_in.
    destruct (Forall2_In_r _ _ _ Hfiles dur Hdur_in) as (i & _ & f' & _ & Heq).
    rewrite Heq. apply retained_duration_nonneg. apply Qlt_le_weak. exact Hd. }
  assert (Hpos : (0 < np_sum durations)%Q).
  { destruct (In_nth_error _ _ Hin) as (k & Hk).
    destruct (Forall2_nth_error_l _ _ _ Hfiles k file_id Hk)
      as (dur & Hdur_k & f' & Hf' & Heq).
    rewrite Hf in Hf'. injection Hf' as <-.
    apply Qlt_le_trans with dur.
    - rewrite Heq. exact (retained_duration_pos _ _ _ Hd Hseg Hret).
    - apply np_sum_In_le; [exact Hnonneg|exact (nth_error_In _ _ Hdur_k)]. }
  assert (Hne : ~ (np_sum durations == 0)%Q) by (apply Qpos_nonzero; exact Hpos).
  exists (map (fun d => d / np_sum durations)%Q durations).
  split; [|split; [|split; [|split; [|split]]]].
  - rewrite length_map. symmetry. exact (Forall2_length Htaken).
  - apply Forall_forall. intros q Hq. apply in_map_iff in Hq.
    destruct Hq as (dur & <- & Hdur_in). apply Qdiv_nonneg; [|exact Hpos].
    rewrite Forall_forall in Hnonneg. exact (Hnonneg dur Hdur_in).
  - exact (np_sum_normalized _ Hne).
  - intros k i q Hk Hq Hqpos.
    destruct (Forall2_nth_error_l _ _ _ Hfiles k i Hk)
      as (dur & Hdur_k & f' & Hf' & Heq).
    rewrite nth_error_map, Hdur_k in Hq. injection Hq as <-.
    exists f'. split; [exact Hf'|].
    rewrite <- Heq. apply (Qdiv_lt_iff 0 dur _ Hpos).
    assert (E : (0 / np_sum durations == 0)%Q) by (unfold Qdiv; ring).
    rewrite E. exact Hqpos.
  - exact (normalize_finite _ Hne).
  - reflexivity.
Qed.

Lemma helper_run_files (t : Task) (draws : list Draw) :
  forall s cs s',
    helper_run t s draws = Yield (cs, s') ->
    (chunks_left s <> O -> In (current_file s) (file_ids s)) ->
    Forall (fun c => In (c_file_id c) (file_ids s) /\ c_duration c = duration t) cs.
Proof.
  induction draws as [|d draws IH]; intros s cs s' Hrun Hcur; simpl in Hrun.
  - injection Hrun as <- _. constructor.
  - destruct (train__iter__helper_next t s d) as [[c s1]|e|] eqn:Hnext;
      try discriminate.
    destruct (helper_run t s1 draws) as [[cs1 s2]|e|] eqn:Hrest; try discriminate.
    injection Hrun as <- _.
    destruct (helper_next_source _ _ _ _ _ Hnext)
      as (file_id & Hdraw & Hcur1 & Hids & _ & Hcase).
    destruct (draw_chunk_region _ _ _ _ Hdraw) as (region & _ & _ & Hc).
    assert (Hin : In file_id (file_ids s)).
    { destruct Hcase as [(k & Hk & _ & ->)|(_ & Hin & _)]; [|exact Hin].
      apply Hcur. lia. }
    constructor.
    + rewrite Hc. simpl. split; [exact Hin|reflexivity].
    + rewrite <- Hids. apply (IH s1 cs1 s2 Hrest).
      intros _. rewrite Hcur1, Hids. exact Hin.
Qed.

Lemma iter_run_running
  (np_equal_sequence : list Z -> list pyval -> result (list bool))
  (t : Task) (draws : list Draw) :
  forall s cs s',
    helper_run t s draws = Yield (cs, s') ->
    iter_run np_equal_sequence t (Unbalanced (Running s)) draws
    = Yield (cs, Unbalanced (Running s')).
Proof.
  induction draws as [|d draws IH]; intros s cs s' Hrun; simpl in Hrun |- *.
  - now injection Hrun as <- <-.
  - destruct (train__iter__helper_next t s d) as [[c s1]|e|]; try discriminate.
    destruct (helper_run t s1 draws) as [[cs1 s2]|e|] eqn:Hrest; try discriminate.
    injection Hrun as <- <-. now rewrite (IH _ _ _ Hrest).
Qed.



(** ** What integer filters select *)

Lemma and_mask_map {A : Type} (g h : A -> bool) (l : list A) :
  and_mask (map g l) (map h l) = map (fun x => g x && h x) l.
Proof.
  induction l as [|x l IH]; simpl; [reflexivity|]. now rewrite IH.
Qed.

Lemma apply_filters_int_mask
  (np_equal_sequence : list Z -> list pyval -> result (list bool))
  (ix : Index) (filters : list (string * pyval)) :
  (forall key value, In (key, value) filters -> exists z, value = PInt z) ->
  forall g mask,
    apply_filters np_equal_sequence ix filters (map g (metadata ix)) = Ok mask ->
    exists h,
      mask = map h (metadata ix) /\
      forall row,
        h row = true <->
        g row = true /\
        forall key z,
          In (key, PInt z) filters ->
          exists p,
            field_position key (metadata_unique_values ix) = Ok p /\
            nth p row 0 = z.
Proof.
  induction filters as [|[key value] filters IH]; intros Hint g mask H.
  - simpl in H. injection H as <-. exists g. split; [reflexivity|].
    intros row. split; [intros Hg; split; [exact Hg|intros k z []]|tauto].
  - destruct (Hint key value (or_introl eq_refl)) as (z & ->).
    simpl in H. apply bind_ok in H. destruct H as (col & Hcol & H).
    unfold metadata_column in Hcol.
    apply bind_ok in Hcol. destruct Hcol as (p & Hp & Hcol).
    injection Hcol as <-.
    rewrite map_map, and_mask_map in H.
    destruct (IH (fun k v Hin => Hint k v (or_intror Hin)) _ _ H)
      as (h & Hmask & Hh).
    exists h. split; [exact Hmask|].
    intros row. rewrite (Hh row), andb_true_iff, Z.eqb_eq. split.
    + intros [[Hg Hz] Hrest]. split; [exact Hg|].
      intros k z' [E|Hin]; [|exact (Hrest k z' Hin)].
      injection E as <- <-. now exists p.
    + intros [Hg Hall]. split; [split; [exact Hg|]|].
      * destruct (Hall key z (or_introl eq_refl)) as (p' & Hp' & Hz).
        rewrite Hp in Hp'. now injection Hp' as <-.
      * intros k z' Hin. apply Hall. now right.
Qed.

(** On the index of [setup], the files the helper samples from under
    filters whose values are integers are the files of the training subset
    whose metadata column holds, for every filter, the value of the filter:
    with the position of a string in the unique values of its key as value,
    a filter selects the training files that have this string. *)
Theorem integer_filters_select_matching_training_files
  (np_equal_sequence : list Z -> list pyval -> result (list bool))
  (chunk_duration : Q) (has_validation : bool)
  (protocol_train protocol_development : list ProtocolFile) (ix : Index)
  (filters : list (string * pyval)) (ids : list nat) :
  setup chunk_duration has_validation protocol_train protocol_development = Ok ix ->
  (forall key value, In (key, value) filters -> exists z, value = PInt z) ->
  training_file_ids np_equal_sequence ix filters = Ok ids ->
  forall file_id,
    In file_id ids <->
    exists f,
      nth_error (files_iter has_validation protocol_train protocol_development)
        file_id = Some f /\
      f_subset f = train /\
      forall key z,
        In (key, PInt z) filters ->
        exists col,
          metadata_column key (metadata_unique_values ix) (metadata ix) = Ok col /\
          nth_error col file_id = Some z.
Proof.
  intros Hsetup Hint Hids file_id.
  destruct (setup_metadata _ _ _ _ _ Hsetup) as [Hpre Hrows].
  destruct (field_position_prefix _ Hpre) as [_ Hpos].
  unfold training_file_ids, metadata_column in Hids. rewrite Hpos in Hids.
  cbn [bind] in Hids. rewrite map_map in Hids.
  apply bind_ok in Hids. destruct Hids as (training & Hfilters & Hids).
  injection Hids as <-.
  destruct (apply_filters_int_mask _ _ _ Hint _ _ Hfilters) as (h & -> & Hh).
  rewrite np_where_map_In.
  assert (Hcolumn : forall row key z,
             nth_error (metadata ix) file_id = Some row ->
             (exists p, field_position key (metadata_unique_values ix) = Ok p /\
                        nth p row 0 = z) <->
             (exists col,
                 metadata_column key (metadata_unique_values ix) (metadata ix)
                 = Ok col /\
                 nth_error col file_id = Some z)).
  { intros row key z Hrow. unfold metadata_column. split.
    - intros (p & Hp & Hz). rewrite Hp. cbn [bind]. eexists. split; [reflexivity|].
      rewrite nth_error_map, Hrow. simpl. now rewrite Hz.
    - intros (col & Hcol & Hz).
      destruct (field_position key (metadata_unique_values ix)) as [p|e];
        [|discriminate].
      cbn [bind] in Hcol. injection Hcol as <-.
      rewrite nth_error_map, Hrow in Hz. simpl in Hz. injection Hz as Hz.
      now exists p. }
  split.
  - intros (row & Hrow & Hrow_ok). apply Hh in Hrow_ok.
    destruct Hrow_ok as [Htrain Hall].
    destruct (Forall2_nth_error_l _ _ _ Hrows file_id row Hrow)
      as (f & Hf & rest & E).
    exists f. split; [exact Hf|]. split.
    + rewrite E in Htrain. simpl in Htrain.
      rewrite Subsets_index_eqb in Htrain. now destruct (f_subset f).
    + intros key z Hin. apply (Hcolumn row key z Hrow). exact (Hall key z Hin).
  - intros (f & Hf & Hsub & Hall).
    destruct (Forall2_nth_error _ _ _ Hrows file_id f Hf) as (row & Hrow & rest & E).
    exists row. split; [exact Hrow|]. apply Hh. split.
    + rewrite E. simpl. rewrite Subsets_index_eqb, Hsub. reflexivity.
    + intros key z Hin. apply (Hcolumn row key z Hrow). exact (Hall key z Hin).
Qed.

Lemma integer_filters_select_matching_training_files_witness :
  In 1%nat [1%nat] <->
  exists f,
    nth_error domain_files 1 = Some f /\ f_subset f = train /\
    forall key z,
      In (key, PInt z) [("domain"%string, PInt 1)] ->
      exists col,
        metadata_column key (metadata_unique_values domain_index)
          (metadata domain_index) = Ok col /\
        nth_error col 1 = Some z.
Proof.
  apply (integer_filters_select_matching_training_files no_sequence_filter
           4 false domain_files [] domain_index [("domain"%string, PInt 1)]
           [1%nat] eq_refl).
  - intros key value [E|[]]. injection E as _ <-. now exists 1.
  - reflexivity.
Defined.

(** ** Values [setup] does not support *)

Lemma encode_items_unsupported (key : string) (items : list (string * metaval)) :
  encoded_key key -> In (key, MOther) items ->
  forall muv md, encode_items items muv md = Raise NotImplementedError.
Proof.
  intros [Hskip Hres].
  induction items as [|[k v] items IH]; intros Hin muv md; [destruct Hin|].
  cbn [encode_items]. destruct Hin as [E|Hin].
  - injection E as -> ->. now rewrite Hskip, Hres.
  - destruct (py_in String.eqb k skipped_keys); [exact (IH Hin _ _)|].
    destruct (py_in String.eqb k reserved_keys); [exact (IH Hin _ _)|].
    destruct v; try exact (IH Hin _ _). reflexivity.
Qed.

(** [setup] returns no index on a corpus in which a file has, under a key
    it encodes, a value that is neither a string, an integer nor a float;
    when this file is the first one, the exception is
    [NotImplementedError]. *)
Theorem setup_rejects_unsupported_values
  (duration : Q) (has_validation : bool)
  (protocol_train protocol_development : list ProtocolFile)
  (file_id : nat) (f : ProtocolFile) (key : string) :
  nth_error (files_iter has_validation protocol_train protocol_development)
    file_id = Some f ->
  In (key, MOther) (f_items f) ->
  encoded_key key ->
  (exists e,
      setup duration has_validation protocol_train protocol_development
      = Raise e) /\
  (file_id = O ->
   setup duration has_validation protocol_train protocol_development
   = Raise NotImplementedError).
Proof.
  intros Hf Hin Hkey. split.
  - destruct (setup duration has_validation protocol_train protocol_development)
      as [ix|e] eqn:Hsetup; [exfalso|now exists e].
    destruct (setup_file_row _ _ _ _ _ _ _ Hsetup Hf)
      as (muv0 & muv1 & md & row & Henc & _).
    rewrite (encode_items_unsupported key _ Hkey Hin) in Henc. discriminate Henc.
  - intros ->. unfold setup.
    destruct (files_iter has_validation protocol_train protocol_development)
      as [|f0 files]; [discriminate|].
    simpl in Hf. injection Hf as ->.
    cbn [setup_loop]. unfold setup_file, encode_metadata.
    now rewrite (encode_items_unsupported key _ Hkey Hin).
Qed.

Lemma setup_rejects_unsupported_values_witness :
  setup 4 false
    [mkFile train file [("speakers"%string, MOther)] [mkSegment 0 10 10] []] []
  = Raise NotImplementedError.
Proof.
  apply (setup_rejects_unsupported_values 4 false
           [mkFile train file [("speakers"%string, MOther)] [mkSegment 0 10 10] []]
           [] O
           (mkFile train file [("speakers"%string, MOther)] [mkSegment 0 10 10] [])
           "speakers").
  - reflexivity.
  - left. reflexivity.
  - split; reflexivity.
  - reflexivity.
Defined.

(** ** The epoch counts every file of the index *)

Lemma np_sum_Forall2 (l : list Q) (files : list ProtocolFile) (g : ProtocolFile -> Q) :
  Forall2 (fun total f => (total == g f)%Q) l files ->
  (np_sum l == np_sum (map g files))%Q.
Proof.
  induction 1 as [|total f l files Heq Hall IH]; simpl; [reflexivity|].
  now rewrite Heq, IH.
Qed.


